(** * School-bus route optimizer: a shallow embedding of [route_optimizer.py]

    Python [float]s are modelled as real numbers, Python [int]s as [Z],
    lengths and indices as [nat].  A Python [str] is the list of its code
    points ([ord] of each character).  The three external services the
    module talks to (scikit-learn's DBSCAN, the OR-Tools routing solver and
    the OneMap HTTP routing service) are parameters of the development. *)

From Stdlib Require Import String Ascii.
From Stdlib Require Import List ZArith Reals Lia Lra Bool Arith.
From Stdlib Require Import Permutation Sorted Zfloor Machin.
Import ListNotations.

(** ** Exceptions *)

Inductive exn : Type := IndexError | KeyError.

Inductive outcome (A : Type) : Type :=
| Ok (a : A)
| Raise (e : exn).

Arguments Ok {A} a.
Arguments Raise {A} e.

(** A Python [str]: the sequence of the code points of its characters. *)
Definition pystr : Type := list Z.



(** A coordinate pair [[lat, lng]]. *)
Definition Point : Type := (R * R)%type.

(** ** Polyline decoder ([decode_polyline]) *)

Module Polyline.

(** The inner [while True] loop.  Reading [encoded[index]] past the end
    raises [IndexError]; every other iteration consumes one unit of fuel and
    moves [index] one character forward. *)
Fixpoint read_chunks (fuel : nat) (encoded : pystr) (index : nat)
    (result shift : Z) : option (outcome (Z * nat)) :=
  match nth_error encoded index with
  | None => Some (Raise IndexError)
  | Some c =>
    match fuel with
    | O => None
    | S fuel' =>
      let b := (c - 63)%Z in
      let index := S index in
      let result := Z.lor result (Z.shiftl (Z.land b 31) shift) in
      let shift := (shift + 5)%Z in
      if (b <? 32)%Z then Some (Ok (result, index))
      else read_chunks fuel' encoded index result shift
    end
  end.

(** [~(result >> 1) if (result & 1) else (result >> 1)] *)
Definition unzigzag (result : Z) : Z :=
  if (Z.land result 1 =? 0)%Z then Z.shiftr result 1
  else Z.lnot (Z.shiftr result 1).

Definition scale (lat lng : Z) : Point :=
  (IZR lat / 100000, IZR lng / 100000)%R.

(** The outer [while index < len(encoded)] loop. *)
Fixpoint decode_loop (fuel : nat) (encoded : pystr) (index : nat)
    (lat lng : Z) (coordinates : list Point) : option (outcome (list Point)) :=
  if index <? length encoded then
    match fuel with
    | O => None
    | S fuel' =>
      match read_chunks fuel encoded index 0 0 with
      | None => None
      | Some (Raise e) => Some (Raise e)
      | Some (Ok (result, index)) =>
        let lat := (lat + unzigzag result)%Z in
        match read_chunks fuel encoded index 0 0 with
        | None => None
        | Some (Raise e) => Some (Raise e)
        | Some (Ok (result, index)) =>
          let lng := (lng + unzigzag result)%Z in
          decode_loop fuel' encoded index lat lng
                      (coordinates ++ [scale lat lng])
        end
      end
    end
  else Some (Ok coordinates).

(** The body of the [try] block, run with the given amount of fuel. *)
Definition decode_body (fuel : nat) (encoded : pystr)
  : option (outcome (list Point)) :=
  decode_loop fuel encoded 0 0 0 [].

(** [decode_polyline]: the bare [except:] turns every exception into [[]].
    [length encoded] units of fuel are enough ([decode_body_enough_fuel]);
    the last branch is never taken. *)
Definition decode_polyline (encoded : pystr) : list Point :=
  match decode_body (length encoded) encoded with
  | Some (Ok coordinates) => coordinates
  | Some (Raise _) => []
  | None => []
  end.

(** *** The encoded-polyline format, as the specification words it

    Every character is a 5-bit chunk offset by 63, with bit 32 set on all
    chunks of a value but the last: a character of a value lies in
    [63..126].  Values are zig-zag signed differences; a coordinate is a
    pair of values added to the previous coordinate. *)





(** A character closes a value when its chunk has the continuation bit
    clear, in the decoder's reading ([b < 0x20]). *)
Definition closes (c : Z) : bool := (c - 63 <? 32)%Z.

Definition values (encoded : pystr) : nat :=
  length (filter closes encoded).

(** The input stops in the middle of a coordinate: its last character
    leaves a value open, or it holds an odd number of values. *)
Definition truncated (encoded : pystr) : bool :=
  negb (closes (last encoded 63%Z)) || Nat.odd (values encoded).

(** *** The loops seen on the unread suffix of the input *)

(** [read_chunks] on the unread characters: the value and the number of
    characters consumed, [None] when the input ends first. *)
Fixpoint chunks (cs : list Z) (result shift : Z) : option (Z * nat) :=
  match cs with
  | [] => None
  | c :: cs' =>
    let b := (c - 63)%Z in
    let result := Z.lor result (Z.shiftl (Z.land b 31) shift) in
    if (b <? 32)%Z then Some (result, 1)
    else match chunks cs' result (shift + 5) with
         | Some (v, k) => Some (v, S k)
         | None => None
         end
  end.

Fixpoint decode_list (fuel : nat) (cs : list Z) (lat lng : Z)
    (coordinates : list Point) : option (outcome (list Point)) :=
  match cs with
  | [] => Some (Ok coordinates)
  | _ :: _ =>
    match fuel with
    | O => None
    | S fuel' =>
      match chunks cs 0 0 with
      | None => Some (Raise IndexError)
      | Some (r1, k1) =>
        let lat := (lat + unzigzag r1)%Z in
        match chunks (skipn k1 cs) 0 0 with
        | None => Some (Raise IndexError)
        | Some (r2, k2) =>
          let lng := (lng + unzigzag r2)%Z in
          decode_list fuel' (skipn k2 (skipn k1 cs)) lat lng
                      (coordinates ++ [scale lat lng])
        end
      end
    end
  end.

Lemma skipn_cons_tail (A : Type) (l : list A) i x t :
  skipn i l = x :: t -> skipn (S i) l = t.
Proof.
  revert i; induction l as [|a l IH]; intros [|i] H; simpl in *;
    try discriminate.
  - now inversion H.
  - now apply IH.
Qed.

Lemma skipn_skipn_add (A : Type) (l : list A) i k :
  skipn k (skipn i l) = skipn (i + k) l.
Proof.
  revert l; induction i as [|i IH]; intros l; simpl.
  - reflexivity.
  - destruct l as [|a l]; [now rewrite skipn_nil | apply IH].
Qed.

Lemma read_chunks_chunks fuel : forall encoded index result shift,
  length (skipn index encoded) <= fuel ->
  read_chunks fuel encoded index result shift =
  Some match chunks (skipn index encoded) result shift with
       | Some (v, k) => Ok (v, index + k)
       | None => Raise IndexError
       end.
Proof.
  induction fuel as [|fuel IH]; intros encoded index result shift Hfuel;
    simpl; rewrite <- hd_error_skipn;
    destruct (skipn index encoded) as [|c t] eqn:E; simpl in *;
    try reflexivity; try lia.
  destruct (c - 63 <? 32)%Z.
  - now rewrite Nat.add_1_r.
  - apply skipn_cons_tail in E.
    rewrite IH by (rewrite E; lia). rewrite E.
    destruct (chunks t _ _) as [[v k]|]; [|reflexivity].
    now rewrite Nat.add_succ_r.
Qed.

(** A successful read consumes at least one character and stays inside
    the input. *)
Lemma chunks_consumed cs : forall result shift v k,
  chunks cs result shift = Some (v, k) -> 1 <= k <= length cs.
Proof.
  induction cs as [|c cs IH]; intros result shift v k; simpl;
    [discriminate|].
  destruct (c - 63 <? 32)%Z.
  - intros H; inversion H; subst; lia.
  - destruct (chunks cs _ _) as [[v' k']|] eqn:E; [|discriminate].
    intros H; inversion H; subst. apply IH in E. lia.
Qed.

Lemma decode_loop_list fuel : forall encoded index lat lng coordinates,
  length (skipn index encoded) <= fuel ->
  decode_loop fuel encoded index lat lng coordinates =
  decode_list fuel (skipn index encoded) lat lng coordinates.
Proof.
  induction fuel as [|fuel IH]; intros encoded index lat lng coordinates Hfuel.
  - simpl. rewrite length_skipn in Hfuel.
    destruct (skipn index encoded) eqn:E.
    + destruct (Nat.ltb_spec index (length encoded)); [lia|reflexivity].
    + apply (f_equal (@length Z)) in E. rewrite length_skipn in E.
      simpl in E. lia.
  - cbn [decode_loop].
    destruct (Nat.ltb_spec index (length encoded)) as [Hlt|Hge].
    + rewrite !read_chunks_chunks by assumption.
      assert (Hne : skipn index encoded <> []).
      { intros E. apply (f_equal (@length Z)) in E.
        rewrite length_skipn in E. simpl in E. lia. }
      destruct (chunks (skipn index encoded) 0 0) as [[r1 k1]|] eqn:E1.
      * pose proof (chunks_consumed _ _ _ _ _ E1) as Hk1.
        rewrite read_chunks_chunks by (rewrite length_skipn in *; lia).
        rewrite <- skipn_skipn_add.
        destruct (chunks (skipn k1 (skipn index encoded)) 0 0)
          as [[r2 k2]|] eqn:E2.
        -- pose proof (chunks_consumed _ _ _ _ _ E2) as Hk2.
           rewrite IH by (rewrite !length_skipn in *; lia).
           rewrite <- Nat.add_assoc, <- !skipn_skipn_add.
           destruct (skipn index encoded); [contradiction|].
           cbn [decode_list]. now rewrite E1, E2.
        -- destruct (skipn index encoded); [contradiction|].
           cbn [decode_list]. now rewrite E1, E2.
      * destruct (skipn index encoded); [contradiction|].
        cbn [decode_list]. now rewrite E1.
    + rewrite skipn_all2 by lia. reflexivity.
Qed.

(** **** Bit-level facts about chunks *)





(** **** One iteration of the outer loop *)

Lemma decode_list_step fuel cs lat lng coordinates :
  cs <> [] ->
  decode_list (S fuel) cs lat lng coordinates =
  match chunks cs 0 0 with
  | None => Some (Raise IndexError)
  | Some (r1, k1) =>
    match chunks (skipn k1 cs) 0 0 with
    | None => Some (Raise IndexError)
    | Some (r2, k2) =>
      decode_list fuel (skipn k2 (skipn k1 cs))
        (lat + unzigzag r1) (lng + unzigzag r2)
        (coordinates ++ [scale (lat + unzigzag r1) (lng + unzigzag r2)])
    end
  end.
Proof. destruct cs; [contradiction | reflexivity]. Qed.


(** **** Well-formed input: the decoder computes the encoded points *)







(** **** Any input: the result is empty exactly on truncation *)

Lemma chunks_none cs : forall result shift,
  chunks cs result shift = None -> cs <> [] ->
  closes (last cs 63%Z) = false.
Proof.
  induction cs as [|c cs IH]; intros result shift H Hne; [contradiction|].
  cbn [chunks] in H. fold (closes c) in H.
  destruct (closes c) eqn:Ec; [discriminate|].
  destruct (chunks cs _ _) as [[v k]|] eqn:E; [discriminate|].
  destruct cs as [|c' cs']; [exact Ec|].
  change (last (c :: c' :: cs') 63%Z) with (last (c' :: cs') 63%Z).
  eapply IH; [exact E | discriminate].
Qed.

Lemma chunks_some cs : forall result shift v k,
  chunks cs result shift = Some (v, k) ->
  values cs = S (values (skipn k cs)) /\
  (skipn k cs <> [] -> last cs 63%Z = last (skipn k cs) 63%Z) /\
  (skipn k cs = [] -> closes (last cs 63%Z) = true).
Proof.
  unfold values.
  induction cs as [|c cs IH]; intros result shift v k H; [discriminate|].
  cbn [chunks] in H. fold (closes c) in H. cbn [filter].
  destruct (closes c) eqn:Ec.
  - inversion H; subst. cbn [skipn]. repeat split.
    + intros Hne. destruct cs; [contradiction|reflexivity].
    + intros ->. exact Ec.
  - destruct (chunks cs _ _) as [[v' k']|] eqn:E; [|discriminate].
    inversion H; subst. cbn [skipn].
    destruct (IH _ _ _ _ E) as (Hv & Hl & Hc).
    assert (Hcs : cs <> []) by (intros ->; discriminate).
    destruct cs as [|c' cs']; [contradiction|].
    change (last (c :: c' :: cs') 63%Z) with (last (c' :: cs') 63%Z).
    auto.
Qed.

Lemma decode_list_shape fuel : forall cs lat lng coordinates,
  length cs <= fuel ->
  exists pts,
    length pts = Nat.div2 (values cs) /\
    decode_list fuel cs lat lng coordinates =
    Some (if truncated cs then Raise IndexError
          else Ok (coordinates ++ pts)).
Proof.
  induction fuel as [|fuel IH]; intros cs lat lng coordinates Hfuel.
  - destruct cs; [|simpl in Hfuel; lia].
    exists []. now rewrite app_nil_r.
  - destruct cs as [|c0 cs0] eqn:Ecs.
    { exists []. now rewrite app_nil_r. }
    rewrite <- Ecs in *. assert (Hne : cs <> []) by (subst; discriminate).
    clear Ecs. rewrite decode_list_step by assumption.
    destruct (chunks cs 0 0) as [[r1 k1]|] eqn:E1.
    + destruct (chunks_some _ _ _ _ _ E1) as (Hv1 & Hl1 & Hc1).
      pose proof (chunks_consumed _ _ _ _ _ E1) as Hk1.
      destruct (chunks (skipn k1 cs) 0 0) as [[r2 k2]|] eqn:E2.
      * destruct (chunks_some _ _ _ _ _ E2) as (Hv2 & Hl2 & Hc2).
        pose proof (chunks_consumed _ _ _ _ _ E2) as Hk2.
        assert (Hne1 : skipn k1 cs <> []) by (intros E; now rewrite E in E2).
        destruct (IH (skipn k2 (skipn k1 cs)) (lat + unzigzag r1)%Z
                    (lng + unzigzag r2)%Z
                    (coordinates ++
                     [scale (lat + unzigzag r1) (lng + unzigzag r2)]))
          as (pts & Hlen & Hdec).
        { rewrite !length_skipn in *. lia. }
        exists (scale (lat + unzigzag r1) (lng + unzigzag r2) :: pts).
        split.
        { rewrite Hv1, Hv2. simpl. now rewrite Hlen. }
        rewrite Hdec. f_equal.
        assert (Ht : truncated cs = truncated (skipn k2 (skipn k1 cs))).
        { unfold truncated. rewrite Hv1, Hv2, (Hl1 Hne1).
          destruct (skipn k2 (skipn k1 cs)) eqn:E.
          - rewrite (Hc2 eq_refl). reflexivity.
          - rewrite (Hl2 ltac:(discriminate)).
            now rewrite Nat.odd_succ, Nat.even_succ. }
        rewrite Ht. now rewrite <- app_assoc.
      * exists (repeat (0%R, 0%R) (Nat.div2 (values cs))).
        split; [apply repeat_length|]. f_equal.
        unfold truncated.
        destruct (skipn k1 cs) eqn:E.
        -- rewrite Hv1. simpl. now rewrite orb_true_r.
        -- rewrite (Hl1 ltac:(discriminate)).
           rewrite (chunks_none _ _ _ E2) by discriminate. reflexivity.
    + exists (repeat (0%R, 0%R) (Nat.div2 (values cs))).
      split; [apply repeat_length|]. f_equal.
      unfold truncated. now rewrite (chunks_none _ _ _ E1 Hne).
Qed.

(** **** Termination *)

Lemma read_chunks_index fuel : forall encoded index result shift v index',
  read_chunks fuel encoded index result shift = Some (Ok (v, index')) ->
  index < index' <= length encoded.
Proof.
  induction fuel as [|fuel IH]; intros encoded index result shift v index';
    simpl; destruct (nth_error encoded index) as [c|] eqn:E;
    try discriminate.
  assert (index < length encoded) by (apply nth_error_Some; congruence).
  destruct (c - 63 <? 32)%Z.
  - intros H'; inversion H'; subst; lia.
  - intros H'; apply IH in H'. lia.
Qed.

Lemma decode_body_enough_fuel encoded fuel :
  length encoded <= fuel ->
  exists pts,
    length pts = Nat.div2 (values encoded) /\
    decode_body fuel encoded =
    Some (if truncated encoded then Raise IndexError else Ok pts).
Proof.
  intros Hfuel. unfold decode_body.
  rewrite decode_loop_list by (simpl; lia). simpl.
  destruct (decode_list_shape fuel encoded 0%Z 0%Z [] Hfuel)
    as (pts & Hlen & Hdec).
  exists pts. now split.
Qed.

Lemma decode_list_more_fuel fuel : forall cs lat lng coordinates out,
  decode_list fuel cs lat lng coordinates = Some out ->
  forall more,
    decode_list (fuel + more) cs lat lng coordinates = Some out.
Proof.
  induction fuel as [|fuel IH]; intros cs lat lng acc out H more.
  - destruct cs; [|discriminate]. destruct more; exact H.
  - destruct cs as [|c cs]; [exact H|].
    rewrite decode_list_step in H by discriminate.
    change (S fuel + more) with (S (fuel + more)).
    rewrite decode_list_step by discriminate.
    destruct (chunks (c :: cs) 0 0) as [[r1 k1]|]; [|exact H].
    destruct (chunks (skipn k1 (c :: cs)) 0 0) as [[r2 k2]|]; [|exact H].
    now apply IH.
Qed.

(** C10: [decode_polyline] terminates on every input.  Each successful run
    of the inner loop leaves the index strictly larger and within the input,
    and [len(encoded)] loop iterations are enough for the body of the [try]
    block to finish, with a value or with the exception that the handler
    turns into the empty list; more fuel changes nothing. *)
Theorem decode_polyline_terminates (encoded : pystr) :
  (forall fuel index result shift,
     match read_chunks fuel encoded index result shift with
     | Some (Ok (_, index')) => index < index' <= length encoded
     | _ => True
     end) /\
  (exists out,
     (forall extra,
        decode_body (length encoded + extra) encoded = Some out) /\
     decode_polyline encoded =
     match out with Ok pts => pts | Raise _ => [] end).
Proof.
  split.
  - intros fuel index result shift.
    destruct (read_chunks fuel encoded index result shift)
      as [[[v index']|e]|] eqn:E; trivial.
    eapply read_chunks_index; eassumption.
  - destruct (decode_body_enough_fuel encoded (length encoded) (le_n _))
      as (pts & _ & Hdec).
    exists (if truncated encoded then Raise IndexError else Ok pts). split.
    + intros extra. unfold decode_body in *.
      rewrite decode_loop_list in * by (simpl; lia).
      now apply decode_list_more_fuel.
    + unfold decode_polyline. rewrite Hdec.
      now destruct (truncated encoded).
Qed.

(** **** What [decode_polyline] returns *)




(** **** Size of the result *)

Lemma values_le_length encoded : values encoded <= length encoded.
Proof. unfold values. apply filter_length_le. Qed.

Lemma div2_double_le n : 2 * Nat.div2 n <= n.
Proof.
  induction n as [n IH] using lt_wf_ind.
  destruct n as [|[|n]]; cbn [Nat.div2]; try lia.
  specialize (IH n ltac:(lia)). lia.
Qed.

(** X3: Every returned point takes at least two characters of the input;
    in particular the empty string decodes to no point. *)
Theorem decode_polyline_length (encoded : pystr) :
  2 * length (decode_polyline encoded) <= length encoded.
Proof.
  destruct (decode_body_enough_fuel encoded (length encoded) (le_n _))
    as (pts & Hlen & Hdec).
  unfold decode_polyline. rewrite Hdec.
  destruct (truncated encoded); [cbn; lia|].
  rewrite Hlen. pose proof (div2_double_le (values encoded)).
  pose proof (values_le_length encoded). lia.
Qed.

(** **** Decoding a concatenation *)

(** A point moved by the coordinates of another. *)
Definition translate (d p : Point) : Point :=
  (fst d + fst p, snd d + snd p)%R.



Lemma translate_origin p : translate (scale 0 0) p = p.
Proof.
  unfold translate, scale. cbn [fst snd]. destruct p as [x y]. cbn [fst snd].
  f_equal; field.
Qed.









End Polyline.

(** ** Geo primitives and the distance matrix *)

Module Geo.

Local Open Scope R_scope.

(** [math.radians] *)
Definition radians (x : R) : R := x * (PI / 180).

Definition haversine_distance (lat1 lon1 lat2 lon2 : R) : R :=
  let R := 6371 in
  let lat1_rad := radians lat1 in
  let lat2_rad := radians lat2 in
  let delta_lat := radians (lat2 - lat1) in
  let delta_lon := radians (lon2 - lon1) in
  let a := sin (delta_lat / 2) ^ 2
           + cos lat1_rad * cos lat2_rad * sin (delta_lon / 2) ^ 2 in
  let c := 2 * asin (sqrt a) in
  let distance_km := R * c in
  distance_km.

Definition estimate_travel_time (distance_km : R) : R :=
  let avg_speed_kmh := 30 in
  let time_hours := distance_km / avg_speed_kmh in
  time_hours * 3600.

(** [int(x)] on a float: truncation toward zero. *)
Definition py_int (x : R) : Z :=
  if Rle_dec 0 x then Zfloor x else Zceil x.

(** [round(x)]: the nearest integer, a tie going to the even one. *)
Definition py_round (x : R) : Z :=
  let f := Zfloor x in
  let d := x - IZR f in
  if Rlt_dec d (1 / 2) then f
  else if Rlt_dec (1 / 2) d then (f + 1)%Z
  else if Z.even f then f else (f + 1)%Z.

(** [round(x, ndigits)], read on real numbers. *)
Definition py_round_to (x : R) (ndigits : nat) : R :=
  IZR (py_round (x * 10 ^ ndigits)) / 10 ^ ndigits.

(** The dictionaries of the ingest layer. *)
Record Student : Type := {
  id : Z;
  name : string;
  address : string;
  postal : string;
  latitude : R;
  longitude : R
}.

Record School : Type := {
  school_name : string;
  school_address : string;
  school_postal : string;
  school_latitude : R;
  school_longitude : R
}.

Definition student_point (s : Student) : Point := (latitude s, longitude s).
Definition school_point (s : School) : Point :=
  (school_latitude s, school_longitude s).

(** *** Lists of lists updated by index *)

Definition matrix : Type := list (list Z).

Fixpoint set_nth {A : Type} (l : list A) (i : nat) (v : A) : list A :=
  match l, i with
  | [], _ => []
  | _ :: t, O => v :: t
  | x :: t, S i' => x :: set_nth t i' v
  end.

(** [m[i][j] = v]; the builder only writes inside the matrix. *)
Definition matrix_set (m : matrix) (i j : nat) (v : Z) : matrix :=
  set_nth m i (set_nth (nth i m []) j v).

Definition matrix_get (m : matrix) (i j : nat) : Z :=
  nth j (nth i m []) 0%Z.

(** [m[i][j]] where the indices come from the solver: out of range raises. *)
Definition matrix_lookup (m : matrix) (i j : nat) : outcome Z :=
  match nth_error m i with
  | None => Raise IndexError
  | Some row =>
    match nth_error row j with
    | None => Raise IndexError
    | Some v => Ok v
    end
  end.

(** The entry the builder stores for the pair of points [p], [q]. *)
Definition road_meters (p q : Point) : Z :=
  let distance_km := haversine_distance (fst p) (snd p) (fst q) (snd q) in
  py_int (distance_km * (13 / 10) * 1000).

Definition build_distance_matrix_fast (school : School)
    (students : list Student) : matrix :=
  let points := school_point school :: map student_point students in
  let n := length points in
  let distance_matrix := repeat (repeat 0%Z n) n in
  fold_left
    (fun distance_matrix i =>
       fold_left
         (fun distance_matrix j =>
            let distance_m :=
              road_meters (nth i points (0, 0)) (nth j points (0, 0)) in
            matrix_set (matrix_set distance_matrix i j distance_m)
                       j i distance_m)
         (seq (i + 1) (n - (i + 1))) distance_matrix)
    (seq 0 n) distance_matrix.

(** *** Haversine *)

Lemma haversine_sym lat1 lon1 lat2 lon2 :
  haversine_distance lat1 lon1 lat2 lon2 =
  haversine_distance lat2 lon2 lat1 lon1.
Proof.
  unfold haversine_distance, radians. cbv zeta.
  replace ((lat1 - lat2) * (PI / 180) / 2)
    with (- ((lat2 - lat1) * (PI / 180) / 2)) by field.
  replace ((lon1 - lon2) * (PI / 180) / 2)
    with (- ((lon2 - lon1) * (PI / 180) / 2)) by field.
  rewrite !sin_neg. do 4 f_equal. ring.
Qed.

Lemma road_meters_sym p q : road_meters p q = road_meters q p.
Proof. unfold road_meters. now rewrite haversine_sym. Qed.

(** *** Indexed updates *)

Lemma length_set_nth (A : Type) (l : list A) i v :
  length (set_nth l i v) = length l.
Proof.
  revert i; induction l as [|x l IH]; intros [|i]; simpl; auto.
Qed.

Lemma nth_set_nth_eq (A : Type) (l : list A) i v d :
  (i < length l)%nat -> nth i (set_nth l i v) d = v.
Proof.
  revert i; induction l as [|x l IH]; intros [|i] H; simpl in *;
    try lia; auto. apply IH. lia.
Qed.

Lemma nth_set_nth_neq (A : Type) (l : list A) i j v d :
  i <> j -> nth j (set_nth l i v) d = nth j l d.
Proof.
  revert i j; induction l as [|x l IH]; intros [|i] [|j] H; simpl;
    auto; try congruence.
Qed.

Definition square (n : nat) (m : matrix) : Prop :=
  length m = n /\ Forall (fun row => length row = n) m.

Lemma square_row n m i : square n m -> (i < n)%nat -> length (nth i m []) = n.
Proof.
  intros [Hl Hr] Hi. rewrite Forall_forall in Hr. apply Hr.
  apply nth_In. lia.
Qed.

Lemma Forall_set_nth (A : Type) (P : A -> Prop) l i v :
  Forall P l -> P v -> Forall P (set_nth l i v).
Proof.
  intros Hl Hv. revert i.
  induction Hl as [|x l Hx Hl IH]; intros [|i]; simpl; auto.
Qed.

Lemma square_matrix_set n m i j v :
  square n m -> (i < n)%nat -> square n (matrix_set m i j v).
Proof.
  intros Hsq Hi. pose proof (square_row n m i Hsq Hi) as Hrow.
  destruct Hsq as [Hl Hr]. unfold matrix_set. split.
  - now rewrite length_set_nth.
  - apply Forall_set_nth; [assumption|]. now rewrite length_set_nth.
Qed.

Lemma matrix_get_set n m i j v a b :
  square n m -> (i < n)%nat -> (j < n)%nat ->
  matrix_get (matrix_set m i j v) a b =
  if (a =? i)%nat && (b =? j)%nat then v else matrix_get m a b.
Proof.
  intros Hsq Hi Hj. pose proof (square_row n m i Hsq Hi) as Hrow.
  destruct Hsq as [Hl Hr]. unfold matrix_get, matrix_set.
  destruct (Nat.eqb_spec a i) as [->|Hai]; simpl.
  - rewrite nth_set_nth_eq by lia.
    destruct (Nat.eqb_spec b j) as [->|Hbj].
    + apply nth_set_nth_eq. lia.
    + apply nth_set_nth_neq. congruence.
  - rewrite nth_set_nth_neq by congruence. reflexivity.
Qed.

(** *** The two loops of the builder as one sequence of writes *)

Definition write (points : list Point) (m : matrix) (p : nat * nat) : matrix :=
  let distance_m :=
    road_meters (nth (fst p) points (0, 0)) (nth (snd p) points (0, 0)) in
  matrix_set (matrix_set m (fst p) (snd p) distance_m)
             (snd p) (fst p) distance_m.

Definition upper_pairs (n : nat) : list (nat * nat) :=
  flat_map (fun i => map (pair i) (seq (i + 1) (n - (i + 1)))) (seq 0 n).

Definition at_pair (a b : nat) (p : nat * nat) : bool :=
  (fst p =? a)%nat && (snd p =? b)%nat.

Lemma build_as_writes school students :
  let points := school_point school :: map student_point students in
  build_distance_matrix_fast school students =
  fold_left (write points) (upper_pairs (length points))
            (repeat (repeat 0%Z (length points)) (length points)).
Proof.
  cbv zeta. unfold build_distance_matrix_fast, upper_pairs.
  set (points := school_point school :: map student_point students).
  set (n := length points).
  generalize (repeat (repeat 0%Z n) n) as m.
  generalize (seq 0 n) as rows.
  induction rows as [|i rows IH]; intros m; [reflexivity|].
  cbn [fold_left flat_map]. rewrite fold_left_app, <- IH. f_equal.
  generalize (seq (i + 1) (n - (i + 1))) as cols. clear.
  intros cols; revert m.
  induction cols as [|j cols IH]; intros m; [reflexivity|].
  cbn [fold_left map]. now rewrite IH.
Qed.

Lemma square_write n points m p :
  square n m -> (fst p < n)%nat -> (snd p < n)%nat ->
  square n (write points m p).
Proof.
  intros. unfold write. now repeat apply square_matrix_set.
Qed.

Lemma matrix_get_write n points m p a b :
  square n m -> (fst p < snd p < n)%nat ->
  matrix_get (write points m p) a b =
  if at_pair a b p || at_pair b a p
  then road_meters (nth (fst p) points (0, 0)) (nth (snd p) points (0, 0))
  else matrix_get m a b.
Proof.
  intros Hsq Hp. unfold write, at_pair.
  rewrite (matrix_get_set n)
    by (try apply square_matrix_set; auto; lia).
  rewrite (matrix_get_set n) by (auto; lia).
  destruct (Nat.eqb_spec a (snd p)), (Nat.eqb_spec b (fst p)),
    (Nat.eqb_spec a (fst p)), (Nat.eqb_spec b (snd p)),
    (Nat.eqb_spec (fst p) a), (Nat.eqb_spec (snd p) b),
    (Nat.eqb_spec (fst p) b), (Nat.eqb_spec (snd p) a);
    simpl; try reflexivity; lia.
Qed.

Lemma matrix_get_writes n points pairs : forall m a b,
  square n m ->
  Forall (fun p => (fst p < snd p < n)%nat) pairs ->
  matrix_get (fold_left (write points) pairs m) a b =
  if existsb (at_pair a b) pairs
  then road_meters (nth a points (0, 0)) (nth b points (0, 0))
  else if existsb (at_pair b a) pairs
  then road_meters (nth b points (0, 0)) (nth a points (0, 0))
  else matrix_get m a b.
Proof.
  induction pairs as [|p pairs IH]; intros m a b Hsq Hall; [reflexivity|].
  inversion Hall as [|p' pairs' Hp Hps]; subst.
  cbn [fold_left existsb].
  rewrite IH by (auto; apply square_write; auto; lia).
  rewrite (matrix_get_write n) by assumption.
  assert (Hab : forall x y, existsb (at_pair x y) pairs = true ->
                            (x < y)%nat).
  { intros x y Hex. apply existsb_exists in Hex as (q & Hq & Hat).
    rewrite Forall_forall in Hps. specialize (Hps q Hq).
    unfold at_pair in Hat. apply andb_prop in Hat as [H1 H2].
    apply Nat.eqb_eq in H1, H2. lia. }
  destruct (existsb (at_pair a b) pairs) eqn:E1;
    [now rewrite orb_true_r|].
  destruct (existsb (at_pair b a) pairs) eqn:E2.
  - rewrite orb_false_r, orb_true_r.
    destruct (at_pair a b p) eqn:E3; [|reflexivity].
    apply Hab in E2. unfold at_pair in E3.
    apply andb_prop in E3 as [H1 H2]. apply Nat.eqb_eq in H1, H2. lia.
  - rewrite !orb_false_r.
    destruct (at_pair a b p) eqn:E3; destruct (at_pair b a p) eqn:E4;
      cbn [orb]; try reflexivity.
    + unfold at_pair in E3. apply andb_prop in E3 as [H1 H2].
      apply Nat.eqb_eq in H1, H2. now subst.
    + unfold at_pair in E3. apply andb_prop in E3 as [H1 H2].
      apply Nat.eqb_eq in H1, H2. now subst.
    + unfold at_pair in E4. apply andb_prop in E4 as [H1 H2].
      apply Nat.eqb_eq in H1, H2. now subst.
Qed.

Lemma upper_pairs_spec n a b :
  In (a, b) (upper_pairs n) <-> (a < b < n)%nat.
Proof.
  unfold upper_pairs. rewrite in_flat_map. split.
  - intros (i & Hi & Hin). apply in_map_iff in Hin as (j & Hj & Hin).
    inversion Hj; subst. apply in_seq in Hi, Hin. lia.
  - intros H. exists a. split; [apply in_seq; lia|].
    apply in_map. apply in_seq. lia.
Qed.

Lemma existsb_upper_pairs n a b :
  existsb (at_pair a b) (upper_pairs n) = true <-> (a < b < n)%nat.
Proof.
  rewrite existsb_exists, <- upper_pairs_spec. unfold at_pair. split.
  - intros ([i j] & Hin & Hat). apply andb_prop in Hat as [H1 H2].
    apply Nat.eqb_eq in H1, H2. simpl in *. now subst.
  - intros H. exists (a, b). simpl. now rewrite !Nat.eqb_refl.
Qed.

Lemma square_zero n : square n (repeat (repeat 0%Z n) n).
Proof.
  split; [apply repeat_length|].
  apply Forall_forall. intros row Hrow. apply repeat_spec in Hrow.
  subst. apply repeat_length.
Qed.

Lemma matrix_get_zero n a b : matrix_get (repeat (repeat 0%Z n) n) a b = 0%Z.
Proof.
  unfold matrix_get.
  destruct (Nat.lt_ge_cases a n) as [Ha|Ha].
  - rewrite nth_repeat_lt by assumption.
    destruct (Nat.lt_ge_cases b n) as [Hb|Hb].
    + now rewrite nth_repeat_lt.
    + apply nth_overflow. now rewrite repeat_length.
  - rewrite (nth_overflow (repeat _ _)) by now rewrite repeat_length.
    now destruct b.
Qed.

(** Every entry of the matrix the builder returns. *)
Lemma build_distance_matrix_entry school students a b :
  let points := school_point school :: map student_point students in
  (a < length points)%nat -> (b < length points)%nat ->
  matrix_get (build_distance_matrix_fast school students) a b =
  if (a =? b)%nat then 0%Z
  else road_meters (nth a points (0, 0)) (nth b points (0, 0)).
Proof.
  cbv zeta. intros Ha Hb. rewrite build_as_writes. cbv zeta.
  set (points := school_point school :: map student_point students) in *.
  rewrite (matrix_get_writes (length points)).
  - destruct (existsb (at_pair a b) _) eqn:E1.
    + apply existsb_upper_pairs in E1.
      destruct (Nat.eqb_spec a b); [lia|reflexivity].
    + destruct (existsb (at_pair b a) _) eqn:E2.
      * apply existsb_upper_pairs in E2.
        destruct (Nat.eqb_spec a b); [lia|apply road_meters_sym].
      * destruct (Nat.eqb_spec a b) as [_|Hne];
          [apply matrix_get_zero|].
        assert (a < b < length points \/ b < a < length points)%nat
          as [H|H] by lia;
          apply existsb_upper_pairs in H; congruence.
  - apply square_zero.
  - apply Forall_forall. intros [i j] Hin.
    apply upper_pairs_spec in Hin. exact Hin.
Qed.

Lemma build_distance_matrix_square school students :
  square (S (length students)) (build_distance_matrix_fast school students).
Proof.
  rewrite build_as_writes. cbv zeta.
  set (points := school_point school :: map student_point students).
  replace (S (length students)) with (length points)
    by (unfold points; simpl; now rewrite length_map).
  assert (H : Forall (fun p => (fst p < snd p < length points)%nat)
                     (upper_pairs (length points))).
  { apply Forall_forall. intros [i j] Hin.
    now apply upper_pairs_spec in Hin. }
  revert H. generalize (square_zero (length points)).
  generalize (repeat (repeat 0%Z (length points)) (length points)) as m.
  induction (upper_pairs (length points)) as [|p pairs IH];
    intros m Hsq Hall; [exact Hsq|].
  inversion Hall; subst. cbn [fold_left].
  apply IH; [apply square_write; auto; lia | assumption].
Qed.

(** *** Values of the haversine formula *)

Lemma PI_bounds : 3.1411 < PI < 3.1421.
Proof.
  pose proof (PI_2_3_7_ineq 1) as [Hlo Hhi].
  unfold sum_f_R0, tg_alt, PI_2_3_7_tg, Ratan_seq in Hlo, Hhi.
  simpl in Hlo, Hhi. split; lra.
Qed.

Lemma asin_nonneg x : 0 <= x -> 0 <= asin x.
Proof.
  intros Hx. pose proof PI_RGT_0. unfold asin.
  destruct (Rle_dec x (-1)); [lra|].
  destruct (Rle_dec 1 x); [lra|].
  assert (Hs : 0 < sqrt (1 - x²)).
  { apply sqrt_lt_R0. unfold Rsqr. nra. }
  assert (Hq : 0 <= x / sqrt (1 - x²)).
  { apply Rmult_le_pos; [assumption|].
    apply Rlt_le, Rinv_0_lt_compat, Hs. }
  destruct Hq as [Hq|<-]; [|rewrite atan_0; lra].
  apply Rlt_le. rewrite <- atan_0. now apply atan_increasing.
Qed.

Lemma haversine_nonneg lat1 lon1 lat2 lon2 :
  0 <= haversine_distance lat1 lon1 lat2 lon2.
Proof.
  unfold haversine_distance. cbv zeta.
  pose proof (asin_nonneg _ (sqrt_pos
    (sin (radians (lat2 - lat1) / 2) ^ 2 +
     cos (radians lat1) * cos (radians lat2) *
     sin (radians (lon2 - lon1) / 2) ^ 2))).
  lra.
Qed.

(** Two points on one meridian: the arc between the latitudes. *)
Lemma haversine_meridian lat1 lat2 lon :
  0 <= lat2 - lat1 <= 180 ->
  haversine_distance lat1 lon lat2 lon = 6371 * radians (lat2 - lat1).
Proof.
  intros Hlat. unfold haversine_distance. cbv zeta.
  pose proof PI_RGT_0 as Hpi.
  assert (Hx : 0 <= radians (lat2 - lat1) / 2 <= PI / 2).
  { unfold radians. split.
    - apply Rmult_le_pos; [|lra]. apply Rmult_le_pos; lra.
    - assert ((lat2 - lat1) * (PI / 180) <= 180 * (PI / 180))
        by (apply Rmult_le_compat_r; lra).
      lra. }
  replace (radians (lon - lon) / 2) with 0 by (unfold radians; field).
  rewrite sin_0.
  replace (sin (radians (lat2 - lat1) / 2) ^ 2 +
           cos (radians lat1) * cos (radians lat2) * 0 ^ 2)
    with (sin (radians (lat2 - lat1) / 2) ^ 2) by ring.
  rewrite sqrt_pow2 by (apply sin_ge_0; lra).
  rewrite asin_sin by lra. field.
Qed.

Lemma py_int_floor x : 0 <= x -> py_int x = Zfloor x.
Proof. intros Hx. unfold py_int. now destruct (Rle_dec 0 x). Qed.

Lemma py_int_between x z : (0 <= z)%Z -> IZR z <= x < IZR z + 1 -> py_int x = z.
Proof.
  intros Hz Hx. rewrite py_int_floor; [now apply Zfloor_eq|].
  apply IZR_le in Hz. lra.
Qed.

(** *** The matrix (C6) *)


(** A school and a student 0.005 degrees of latitude (about 556 m) north
    of it. *)
Definition example_school : School :=
  {| school_name := "School"; school_address := "1 School Road";
     school_postal := "100001";
     school_latitude := 1.35; school_longitude := 103.8 |}.

Definition near_student : Student :=
  {| id := 1; name := "Aisha"; address := "2 North Road";
     postal := "100002"; latitude := 1.355; longitude := 103.8 |}.


Lemma near_student_road :
  722.5 < haversine_distance 1.35 103.8 1.355 103.8 * (13 / 10) * 1000
        < 723.
Proof.
  rewrite haversine_meridian by lra. unfold radians.
  pose proof PI_bounds. lra.
Qed.

Lemma near_student_entry :
  matrix_get (build_distance_matrix_fast example_school [near_student]) 0 1
  = 722%Z /\
  matrix_get (build_distance_matrix_fast example_school [near_student]) 1 0
  = 722%Z.
Proof.
  pose proof near_student_road as Hx.
  rewrite !build_distance_matrix_entry by (simpl; lia).
  cbn [Nat.eqb nth map]. rewrite (road_meters_sym (student_point _)).
  split; unfold road_meters; (apply py_int_between; [lia|]);
    change (722 <= haversine_distance 1.35 103.8 1.355 103.8
                   * (13 / 10) * 1000 < 722 + 1); lra.
Qed.


Lemma py_round_between y z :
  IZR z - 1 / 2 < y < IZR z + 1 / 2 -> py_round y = z.
Proof.
  intros Hy. unfold py_round.
  destruct (Rle_dec (IZR z) y) as [Hle|Hgt].
  - rewrite (Zfloor_eq z) by lra.
    destruct (Rlt_dec _ _) as [H|H]; [reflexivity|lra].
  - rewrite (Zfloor_eq (z - 1)) by (rewrite minus_IZR; lra).
    rewrite minus_IZR.
    destruct (Rlt_dec _ _) as [H|H]; [lra|].
    destruct (Rlt_dec _ _) as [H'|H']; [lia|lra].
Qed.

Lemma matrix_lookup_get n D i j :
  square n D -> (i < n)%nat -> (j < n)%nat ->
  matrix_lookup D i j = Ok (matrix_get D i j).
Proof.
  intros Hsq Hi Hj. pose proof (square_row n D i Hsq Hi) as Hrow.
  destruct Hsq as [Hl Hr]. unfold matrix_lookup, matrix_get.
  destruct (nth_error D i) as [row|] eqn:E.
  - rewrite (nth_error_nth _ _ [] E) in *.
    destruct (nth_error row j) as [v|] eqn:E'.
    + now rewrite (nth_error_nth _ _ 0%Z E').
    + apply nth_error_None in E'. lia.
  - apply nth_error_None in E. lia.
Qed.

(** **** Bounds of the haversine distance and of the matrix *)

Lemma haversine_self lat lon : haversine_distance lat lon lat lon = 0.
Proof.
  unfold haversine_distance, radians. cbv zeta.
  replace ((lat - lat) * (PI / 180) / 2) with 0 by field.
  replace ((lon - lon) * (PI / 180) / 2) with 0 by field.
  rewrite sin_0.
  replace (0 ^ 2 + cos (lat * (PI / 180)) * cos (lat * (PI / 180)) * 0 ^ 2)
    with 0 by ring.
  rewrite sqrt_0, asin_0. ring.
Qed.

(** X1: The distance between two points is symmetric, zero from a point
    to itself, never negative and never more than half the circumference of
    the Earth, [PI * 6371] km. *)
Theorem haversine_distance_bounds lat1 lon1 lat2 lon2 :
  0 <= haversine_distance lat1 lon1 lat2 lon2 <= PI * 6371 /\
  haversine_distance lat1 lon1 lat2 lon2
  = haversine_distance lat2 lon2 lat1 lon1 /\
  haversine_distance lat1 lon1 lat1 lon1 = 0.
Proof.
  split; [|split; [apply haversine_sym|apply haversine_self]].
  split; [apply haversine_nonneg|].
  unfold haversine_distance. cbv zeta.
  pose proof (asin_bound
    (sqrt (sin (radians (lat2 - lat1) / 2) ^ 2 +
           cos (radians lat1) * cos (radians lat2) *
           sin (radians (lon2 - lon1) / 2) ^ 2))).
  lra.
Qed.

Lemma road_meters_nonneg p q : (0 <= road_meters p q)%Z.
Proof.
  unfold road_meters.
  pose proof (haversine_nonneg (fst p) (snd p) (fst q) (snd q)) as H.
  rewrite py_int_floor by nra.
  apply Zfloor_lub. cbn. nra.
Qed.

(** X2: The matrix has one row and one column for the school and for
    each student, and no entry is negative; a lookup inside it never raises. *)
Theorem distance_matrix_shape school students :
  let D := build_distance_matrix_fast school students in
  let n := S (length students) in
  length D = n /\
  Forall (fun row => length row = n) D /\
  (forall i j, (0 <= matrix_get D i j)%Z) /\
  (forall i j, (i < n)%nat -> (j < n)%nat ->
               matrix_lookup D i j = Ok (matrix_get D i j)).
Proof.
  cbv zeta.
  pose proof (build_distance_matrix_square school students) as Hsq.
  destruct Hsq as [Hl Hr]. repeat split; auto.
  - intros i j.
    destruct (Nat.lt_ge_cases i (S (length students))) as [Hi|Hi].
    + destruct (Nat.lt_ge_cases j (S (length students))) as [Hj|Hj].
      * rewrite build_distance_matrix_entry
          by (cbn [length]; rewrite length_map; assumption).
        destruct (i =? j)%nat; [lia|apply road_meters_nonneg].
      * unfold matrix_get. rewrite nth_overflow; [lia|].
        rewrite (square_row _ _ i (conj Hl Hr) Hi). exact Hj.
    + unfold matrix_get.
      rewrite (nth_overflow (build_distance_matrix_fast school students))
        by (rewrite Hl; exact Hi).
      destruct j; cbn; lia.
  - intros i j Hi Hj. now apply (matrix_lookup_get _ _ _ _ (conj Hl Hr)).
Qed.

(** **** Rounding *)

Lemma py_round_near x : Rabs (IZR (py_round x) - x) <= 1 / 2.
Proof.
  unfold py_round. pose proof (Zfloor_bound x) as B.
  destruct (Rlt_dec (x - IZR (Zfloor x)) (1 / 2)) as [H|H].
  - apply Rabs_le. lra.
  - assert (IZR (Zfloor x + 1) = IZR (Zfloor x) + 1) as E by apply plus_IZR.
    destruct (Rlt_dec (1 / 2) (x - IZR (Zfloor x))) as [H'|H'].
    + rewrite E. apply Rabs_le. lra.
    + destruct (Z.even (Zfloor x)); [|rewrite E]; apply Rabs_le; lra.
Qed.

Lemma py_round_to_near x ndigits :
  Rabs (py_round_to x ndigits - x) <= 1 / 2 / 10 ^ ndigits.
Proof.
  unfold py_round_to.
  assert (Hp : 0 < 10 ^ ndigits) by (apply pow_lt; lra).
  replace (IZR (py_round (x * 10 ^ ndigits)) / 10 ^ ndigits - x)
    with ((IZR (py_round (x * 10 ^ ndigits)) - x * 10 ^ ndigits)
          / 10 ^ ndigits) by (field; lra).
  unfold Rdiv at 1. rewrite Rabs_mult.
  rewrite (Rabs_right (/ 10 ^ ndigits))
    by (apply Rle_ge, Rlt_le, Rinv_0_lt_compat, Hp).
  apply Rmult_le_compat_r; [apply Rlt_le, Rinv_0_lt_compat, Hp|].
  apply py_round_near.
Qed.

End Geo.

(** ** The solver adapter, the cluster analyzer and the orchestrator *)

Module Optimizer.

Import Geo.

(** *** Adapter calls and exceptions

    A computation returns a value or raises, and records every request it
    sends to the routing service: the pair of end points of the request. *)

Definition Call : Type := (Point * Point)%type.

Definition M (A : Type) : Type := (outcome A * list Call)%type.

Definition ret {A : Type} (a : A) : M A := (Ok a, []).

Definition lift {A : Type} (o : outcome A) : M A := (o, []).

Definition bind {A B : Type} (m : M A) (k : A -> M B) : M B :=
  match m with
  | (Ok a, log) => let (r, log') := k a in (r, log ++ log')
  | (Raise e, log) => (Raise e, log)
  end.

Notation "x <- m ;; k" := (bind m (fun x => k))
  (at level 61, m at next level, right associativity).

Definition value {A : Type} (m : M A) : outcome A := fst m.
Definition calls {A : Type} (m : M A) : list Call := snd m.

(** [l[i]] for an index that may be out of range. *)
Definition getitem {A : Type} (l : list A) (i : nat) : outcome A :=
  match nth_error l i with
  | Some x => Ok x
  | None => Raise IndexError
  end.

Definition Rgtb (x y : R) : bool := if Rlt_dec y x then true else false.
Definition Rltb (x y : R) : bool := if Rlt_dec x y then true else false.
Definition Rleb (x y : R) : bool := if Rle_dec x y then true else false.

(** [sum(...)] of floats. *)
Definition sum_R (l : list R) : R := fold_left Rplus l 0%R.

(** [np.mean] *)
Definition mean (l : list R) : R := (sum_R l / INR (length l))%R.

(** [math.ceil(n / 40)] for a length [n]. *)
Definition ceil40 (n : nat) : nat := Z.to_nat (Zceil (INR n / 40)).

(** *** Records of the routing layer *)

(** A segment before enrichment: [{'from', 'to', 'student'}]. *)
Record RawSegment : Type := {
  raw_from : Point;
  raw_to : Point;
  raw_student : string
}.

(** An enriched segment. *)
Record Segment : Type := {
  seg_from : Point;
  seg_to : Point;
  seg_student : string;
  geometry : list Point;
  distance : R;
  time : R
}.

Record Route : Type := {
  students : list Student;
  distance_km : R;
  time_seconds : Z;
  time_minutes : R;
  student_count : nat;
  segments : list Segment
}.

(** The dictionary [solve_cvrp] returns, by shape. *)
Inductive CvrpResult : Type :=
| NoStudents
| NoSolution
| Solved (routes : list Route) (total_distance max_route_time : R)
         (num_buses : nat).

(** The locals of the extraction loop of one vehicle. *)
Record Tour : Type := {
  route_distance : R;
  route_time : R;
  route_students : list Student;
  route_segments : list RawSegment
}.

Definition empty_tour : Tour :=
  {| route_distance := 0; route_time := 0;
     route_students := []; route_segments := [] |}.

(** *** Records of the cluster analyzer *)

Record ClusterInfo : Type := {
  cluster_id : Z;
  size : nat;
  center : Point;
  distance_from_school : R;
  spread : R;
  cluster_students : list Student
}.

Record ClusterCircle : Type := {
  circle_id : Z;
  circle_center : Point;
  radius : R;
  circle_size : nat;
  circle_distance_from_school : R
}.

Record IsolatedMark : Type := {
  mark_name : string;
  mark_lat : R;
  mark_lng : R;
  mark_address : string
}.

Record Visualization : Type := {
  clusters : list ClusterCircle;
  isolated : list IsolatedMark
}.

(** The text of the recommendation, by the branch that wrote it. *)
Inductive Recommendation : Type :=
| SpreadOut (buses : nat)
| OneDenseCluster (buses : nat)
| FarApartClusters (avg : R) (buses : nat)
| CloseClusters (avg : R) (buses : nat).

Record Analysis : Type := {
  n_clusters : nat;
  n_noise : nat;
  cluster_info : list ClusterInfo;
  isolated_students : list Student;
  avg_cluster_distance : R;
  recommended_buses : nat;
  min_buses : nat;
  recommendation : Recommendation;
  visualization : Visualization
}.

(** The dictionary [analyze_student_clusters] returns: with fewer than two
    students it only has the keys ['clusters'] and ['recommendation']. *)
Inductive AnalysisDict : Type :=
| FewStudents
| Analysed (a : Analysis).

(** *** Records of the orchestrator *)

Inductive Note : Type :=
| ClusterBased (buses clusters : nat) (avg : R)
| PrioritizingSpeed (buses : nat)
| OptimalBalance (buses : nat).

Record Plan : Type := {
  routes : list Route;
  total_buses : nat;
  max_route_time_minutes : option R;
  total_distance_km : option R;
  optimization_note : option Note;
  cluster_visualization : option Visualization;
  error : option string
}.

(** An entry of [results] in the fleet-size sweep. *)
Record Candidate : Type := {
  num_buses : nat;
  candidate_routes : list Route;
  max_time : R;
  candidate_distance : R
}.

Inductive Strategy : Type := FAR_APART | CLOSE_OR_SINGLE.

(** *** The code, over the three external services *)

Section Code.

(** scikit-learn: [dbscan coords i] is the label that
    [DBSCAN(eps=0.03, min_samples=3).fit(coords).labels_] gives to row [i]. *)
Variable dbscan : list Point -> nat -> Z.

(** OR-Tools: [search distance_matrix num_vehicles] is the outcome of
    [SolveWithParameters] on the model built from the matrix, with the
    depot at node 0, unit demands and capacity 40: [None] when no solution
    is found, otherwise, for each vehicle, the nodes of the indices that
    follow its start index up to its end index, which is left out. *)
Variable search : matrix -> nat -> option (nat -> list nat).

(** OneMap: the outcome of the routing request, [Some] of the summary's
    total distance (m), total time (s) and encoded geometry when the
    service answers with a route, [None] on any failure. *)
Variable onemap : Point -> Point -> string -> option (R * R * pystr).

Definition get_route_from_onemap (start_lat start_lng end_lat end_lng : R)
    (api_key : string) : M (R * R * list Point) :=
  (Ok match onemap (start_lat, start_lng) (end_lat, end_lng) api_key with
      | Some (distance_m, time_s, route_geometry) =>
        let geometry := Polyline.decode_polyline route_geometry in
        ((distance_m / 1000)%R, time_s, geometry)
      | None =>
        let distance :=
          haversine_distance start_lat start_lng end_lat end_lng in
        let time := estimate_travel_time distance in
        let geometry := [(start_lat, start_lng); (end_lat, end_lng)] in
        (distance, time, geometry)
      end,
   [((start_lat, start_lng), (end_lat, end_lng))]).

Fixpoint get_real_route_geometry_for_segments
    (route_segments : list RawSegment) (api_key : string)
  : M (list Segment) :=
  match route_segments with
  | [] => ret []
  | segment :: rest =>
    let from_lat := fst (raw_from segment) in
    let from_lng := snd (raw_from segment) in
    let to_lat := fst (raw_to segment) in
    let to_lng := snd (raw_to segment) in
    r <- get_route_from_onemap from_lat from_lng to_lat to_lng api_key ;;
    let '(distance_km, time_s, geometry) := r in
    enriched_segments <- get_real_route_geometry_for_segments rest api_key ;;
    ret ({| seg_from := raw_from segment; seg_to := raw_to segment;
            seg_student := raw_student segment;
            geometry := geometry; distance := distance_km;
            time := time_s |} :: enriched_segments)
  end.

(** The branch [if next_node != 0] of the extraction loop: a student is
    picked up. *)
Definition pickup_leg (school : School) (students : list Student)
    (distance_matrix : matrix) (node_index next_node : nat) (t : Tour)
  : outcome Tour :=
  match getitem students (next_node - 1) with
  | Raise e => Raise e
  | Ok student =>
    match matrix_lookup distance_matrix node_index next_node with
    | Raise e => Raise e
    | Ok distance_m =>
      let distance_km := (IZR distance_m / 1000)%R in
      let time_s := estimate_travel_time distance_km in
      match (if (node_index =? 0)%nat then Ok (school_point school)
             else match getitem students (node_index - 1) with
                  | Ok s => Ok (student_point s)
                  | Raise e => Raise e
                  end) with
      | Raise e => Raise e
      | Ok from_point =>
        Ok {| route_distance := (route_distance t + distance_km)%R;
              route_time := (route_time t + (time_s + 60))%R;
              route_students := route_students t ++ [student];
              route_segments :=
                route_segments t ++
                [{| raw_from := from_point;
                    raw_to := student_point student;
                    raw_student := name student |}] |}
      end
    end
  end.

(** The [else] branch: the bus returns to the school. *)
Definition return_leg (school : School) (students : list Student)
    (distance_matrix : matrix) (node_index : nat) (t : Tour)
  : outcome Tour :=
  match (if (0 <? node_index)%nat
         then match getitem students (node_index - 1) with
              | Ok s => Ok (student_point s)
              | Raise e => Raise e
              end
         else Ok (school_point school)) with
  | Raise e => Raise e
  | Ok from_point =>
    match matrix_lookup distance_matrix node_index 0 with
    | Raise e => Raise e
    | Ok distance_m =>
      let distance_km := (IZR distance_m / 1000)%R in
      let time_s := estimate_travel_time distance_km in
      Ok {| route_distance := (route_distance t + distance_km)%R;
            route_time := (route_time t + time_s)%R;
            route_students := route_students t;
            route_segments :=
              route_segments t ++
              [{| raw_from := from_point;
                  raw_to := school_point school;
                  raw_student := "Return to School" |}] |}
    end
  end.

(** The [while not routing.IsEnd(index)] loop of one vehicle.  [path] holds
    the nodes still ahead; when it is empty the next index is the end index,
    whose node is the depot. *)
Fixpoint follow (school : School) (students : list Student)
    (distance_matrix : matrix) (node_index : nat) (path : list nat)
    (t : Tour) : outcome Tour :=
  let next_node := hd 0%nat path in
  if (node_index =? 0)%nat && (next_node =? 0)%nat then Ok t
  else
    match (if negb (next_node =? 0)%nat
           then pickup_leg school students distance_matrix
                           node_index next_node t
           else return_leg school students distance_matrix node_index t)
    with
    | Raise e => Raise e
    | Ok t' =>
      match path with
      | [] => Ok t'
      | _ :: path' =>
        follow school students distance_matrix next_node path' t'
      end
    end.

Definition make_route (route_students : list Student)
    (enriched_segments : list Segment) (real_distance real_time : R)
  : Route :=
  {| students := route_students;
     distance_km := py_round_to real_distance 2;
     time_seconds := py_round real_time;
     time_minutes := py_round_to (real_time / 60) 1;
     student_count := length route_students;
     segments := enriched_segments |}.

(** The [for vehicle_id in range(num_vehicles)] loop; [acc] holds
    [routes], [total_distance] and [max_route_time]. *)
Fixpoint extract_routes (school : School) (students : list Student)
    (distance_matrix : matrix) (solution : nat -> list nat)
    (api_key : string) (vehicles : list nat) (acc : list Route * R * R)
  : M (list Route * R * R) :=
  match vehicles with
  | [] => ret acc
  | vehicle_id :: vehicles' =>
    let '(routes, total_distance, max_route_time) := acc in
    t <- lift (follow school students distance_matrix 0
                      (solution vehicle_id) empty_tour) ;;
    match route_students t with
    | [] =>
      extract_routes school students distance_matrix solution api_key
                     vehicles' acc
    | _ :: _ =>
      enriched_segments <-
        get_real_route_geometry_for_segments (route_segments t) api_key ;;
      let real_distance := sum_R (map distance enriched_segments) in
      let real_time :=
        (sum_R (map time enriched_segments)
         + INR (length (route_students t)) * 60)%R in
      extract_routes school students distance_matrix solution api_key
        vehicles'
        (routes ++ [make_route (route_students t) enriched_segments
                               real_distance real_time],
         (total_distance + real_distance)%R,
         Rmax max_route_time real_time)
    end
  end.

Definition solve_cvrp (school : School) (students : list Student)
    (num_vehicles : nat) (api_key : string) : M CvrpResult :=
  match students with
  | [] => ret NoStudents
  | _ :: _ =>
    let distance_matrix := build_distance_matrix_fast school students in
    match search distance_matrix num_vehicles with
    | None => ret NoSolution
    | Some solution =>
      acc <- extract_routes school students distance_matrix solution
                            api_key (seq 0 num_vehicles) ([], 0%R, 0%R) ;;
      let '(routes, total_distance, max_route_time) := acc in
      ret (Solved routes total_distance max_route_time (length routes))
    end
  end.

(** **** [analyze_student_clusters] *)

(** [set(labels)] in iteration order: the distinct labels, ascending. *)
Fixpoint set_add (x : Z) (s : list Z) : list Z :=
  match s with
  | [] => [x]
  | y :: s' =>
    if (x <? y)%Z then x :: s
    else if (x =? y)%Z then s
    else y :: set_add x s'
  end.

Definition py_set (labels : list Z) : list Z := fold_right set_add [] labels.

(** [[x for i, x in enumerate(xs) if labels[i] == cluster_id]] *)
Definition members {A : Type} (labels : list Z) (cluster_id : Z)
    (xs : list A) : list A :=
  map fst (filter (fun p => (snd p =? cluster_id)%Z) (combine xs labels)).

(** The pairs [(l[i], l[j])] with [i < j], in the order of the two nested
    [range] loops. *)
Fixpoint pairs_of {A : Type} (l : list A) : list (A * A) :=
  match l with
  | [] => []
  | x :: t => map (pair x) t ++ pairs_of t
  end.

Definition point_distance (p q : Point) : R :=
  haversine_distance (fst p) (snd p) (fst q) (snd q).

Definition cluster_record (school : School) (students : list Student)
    (coords : list Point) (labels : list Z) (cluster_id : Z) : ClusterInfo :=
  let cluster_students := members labels cluster_id students in
  let cluster_coords := members labels cluster_id coords in
  let center_lat := mean (map fst cluster_coords) in
  let center_lng := mean (map snd cluster_coords) in
  let dist_from_school :=
    haversine_distance (school_latitude school) (school_longitude school)
                       center_lat center_lng in
  let max_spread :=
    fold_left (fun max_spread pq =>
                 Rmax max_spread (point_distance (fst pq) (snd pq)))
              (pairs_of cluster_coords) 0%R in
  {| cluster_id := cluster_id;
     size := length cluster_students;
     center := (center_lat, center_lng);
     distance_from_school := dist_from_school;
     spread := max_spread;
     cluster_students := cluster_students |}.

Definition circle_of (c : ClusterInfo) : ClusterCircle :=
  {| circle_id := cluster_id c;
     circle_center := center c;
     radius := Rmax 500 (spread c / 2 * 1000);
     circle_size := size c;
     circle_distance_from_school := distance_from_school c |}.

Definition mark_of (s : Student) : IsolatedMark :=
  {| mark_name := name s; mark_lat := latitude s; mark_lng := longitude s;
     mark_address := address s |}.

Definition sum_nat (l : list nat) : nat := fold_left Nat.add l 0%nat.

Definition analyze_student_clusters (students : list Student)
    (school : School) : AnalysisDict :=
  if (length students <? 2)%nat then FewStudents
  else
    let coords := map student_point students in
    let labels := map (dbscan coords) (seq 0 (length coords)) in
    let noise := existsb (Z.eqb (-1)) labels in
    let n_clusters :=
      (length (py_set labels) - (if noise then 1 else 0))%nat in
    let n_noise := count_occ Z.eq_dec labels (-1)%Z in
    let isolated_students := members labels (-1)%Z students in
    let cluster_info :=
      map (cluster_record school students coords labels)
          (filter (fun cluster_id => negb (cluster_id =? -1)%Z)
                  (py_set labels)) in
    let cluster_distances :=
      map (fun cc => point_distance (center (fst cc)) (center (snd cc)))
          (pairs_of cluster_info) in
    let spread_out := Nat.max 1 (ceil40 (length students)) in
    let '(buses_needed, recommendation, min_buses) :=
      if (n_clusters =? 0)%nat then
        (spread_out, SpreadOut spread_out, spread_out)
      else if (n_clusters =? 1)%nat then
        (spread_out, OneDenseCluster spread_out, 1%nat)
      else
        let avg_cluster_distance :=
          match cluster_distances with
          | [] => 0%R
          | _ :: _ => mean cluster_distances
          end in
        if Rgtb avg_cluster_distance 7 then
          let per_cluster :=
            sum_nat (map (fun c => Nat.max 1 (ceil40 (size c)))
                         cluster_info) in
          let buses_needed :=
            if (0 <? n_noise)%nat then (per_cluster + ceil40 n_noise)%nat
            else per_cluster in
          (buses_needed,
           FarApartClusters avg_cluster_distance buses_needed,
           buses_needed)
        else
          (spread_out, CloseClusters avg_cluster_distance spread_out,
           1%nat) in
    Analysed
      {| n_clusters := n_clusters;
         n_noise := n_noise;
         cluster_info := cluster_info;
         isolated_students := isolated_students;
         avg_cluster_distance :=
           match cluster_distances with
           | [] => 0%R
           | _ :: _ => mean cluster_distances
           end;
         recommended_buses := buses_needed;
         min_buses := min_buses;
         recommendation := recommendation;
         visualization :=
           {| clusters := map circle_of cluster_info;
              isolated := map mark_of isolated_students |} |}.

(** **** [optimize_routes]: the cluster-based branch *)

(** The inner [for idx, cluster in enumerate(cluster_info)] loop; the state
    is [min_dist] ([None] for infinity) and [nearest_cluster_idx]. *)
Definition nearest_cluster (iso_student : Student)
    (cluster_info : list ClusterInfo) : nat :=
  snd (fold_left
         (fun (st : option R * nat) (ic : nat * ClusterInfo) =>
            let dist :=
              haversine_distance (latitude iso_student)
                                 (longitude iso_student)
                                 (fst (center (snd ic)))
                                 (snd (center (snd ic))) in
            match fst st with
            | None => (Some dist, fst ic)
            | Some min_dist =>
              if Rltb dist min_dist then (Some dist, fst ic) else st
            end)
         (combine (seq 0 (length cluster_info)) cluster_info)
         (None, 0%nat)).

(** [cluster_info[idx]['students'].append(s)]: the member list is updated
    in place; the recorded ['size'] is not. *)
Definition append_student (cluster_info : list ClusterInfo) (idx : nat)
    (s : Student) : outcome (list ClusterInfo) :=
  match nth_error cluster_info idx with
  | None => Raise IndexError
  | Some c =>
    Ok (set_nth cluster_info idx
          {| cluster_id := cluster_id c; size := size c;
             center := center c;
             distance_from_school := distance_from_school c;
             spread := spread c;
             cluster_students := cluster_students c ++ [s] |})
  end.

Fixpoint assign_isolated (isolated_students : list Student)
    (cluster_info : list ClusterInfo) : outcome (list ClusterInfo) :=
  match isolated_students with
  | [] => Ok cluster_info
  | iso_student :: rest =>
    match append_student cluster_info
            (nearest_cluster iso_student cluster_info) iso_student with
    | Raise e => Raise e
    | Ok cluster_info' => assign_isolated rest cluster_info'
    end
  end.

(** The [for cluster_idx, cluster in enumerate(cluster_info)] loop; [acc]
    holds [all_routes], [total_distance] and [max_route_time]. *)
Fixpoint route_clusters (school : School) (api_key : string)
    (cluster_info : list ClusterInfo) (acc : list Route * R * R)
  : M (list Route * R * R) :=
  match cluster_info with
  | [] => ret acc
  | cluster :: rest =>
    let '(all_routes, total_distance, max_route_time) := acc in
    let cluster_size := length (cluster_students cluster) in
    let buses_for_cluster := Nat.max 1 (ceil40 cluster_size) in
    result <- solve_cvrp school (cluster_students cluster)
                         buses_for_cluster api_key ;;
    route_clusters school api_key rest
      match result with
      | Solved (r :: rs) cluster_distance cluster_time _ =>
        (all_routes ++ r :: rs,
         (total_distance + cluster_distance)%R,
         Rmax max_route_time cluster_time)
      | _ => acc
      end
  end.

(** **** [optimize_routes]: the fleet-size sweep *)

(** One [try: ... except Exception] block of the sweep: the entries it
    appends to [results]. *)
Definition try_fleet (school : School) (students : list Student)
    (num_vehicles : nat) (api_key : string) : M (list Candidate) :=
  match solve_cvrp school students num_vehicles api_key with
  | (Ok (Solved (r :: rs) total_distance max_route_time num_buses), log) =>
    (Ok [{| num_buses := num_buses; candidate_routes := r :: rs;
            max_time := max_route_time;
            candidate_distance := total_distance |}], log)
  | (_, log) => (Ok [], log)
  end.

Fixpoint try_fleets (school : School) (students : list Student)
    (api_key : string) (fleets : list nat) (results : list Candidate)
  : M (list Candidate) :=
  match fleets with
  | [] => ret results
  | num_buses :: fleets' =>
    found <- try_fleet school students num_buses api_key ;;
    try_fleets school students api_key fleets' (results ++ found)
  end.

(** [1], then [range(2, min(max_buses, recommended_buses) + 1)] when more
    than one bus is recommended. *)
Definition fleet_sizes (max_buses : Z) (recommended_buses : nat) : list nat :=
  1%nat ::
  (if (1 <? recommended_buses)%nat
   then seq 2 (Z.to_nat
                 (Z.min max_buses (Z.of_nat recommended_buses) + 1 - 2))
   else []).

(** [min(r['max_time'] for r in results)] *)
Definition min_time_of (first : Candidate) (others : list Candidate) : R :=
  fold_left (fun m r => Rmin m (max_time r)) others (max_time first).

(** [min(results, key=lambda x: x['max_time'])]: the first of the least. *)
Definition fastest (first : Candidate) (others : list Candidate) : Candidate :=
  fold_left (fun best r =>
               if Rltb (max_time r) (max_time best) then r else best)
            others first.

(** [sorted(results, key=lambda x: x['num_buses'])]: a stable sort. *)
Fixpoint insert_by_buses (r : Candidate) (sorted : list Candidate)
  : list Candidate :=
  match sorted with
  | [] => [r]
  | s :: sorted' =>
    if (num_buses r <=? num_buses s)%nat then r :: sorted
    else s :: insert_by_buses r sorted'
  end.

Definition sorted_by_buses (results : list Candidate) : list Candidate :=
  fold_right insert_by_buses [] results.

Definition chosen_plan (best : Candidate) (note : option Note)
    (cluster_visualization : Visualization) : Plan :=
  {| routes := candidate_routes best;
     total_buses := num_buses best;
     max_route_time_minutes := Some (py_round_to (max_time best / 60) 1);
     total_distance_km := Some (py_round_to (candidate_distance best) 2);
     optimization_note := note;
     cluster_visualization := Some cluster_visualization;
     error := None |}.

(** From [if not results] to the end of [optimize_routes]. *)
Definition pick_best (results : list Candidate)
    (cluster_visualization : Visualization) : Plan :=
  match results with
  | [] =>
    {| routes := []; total_buses := 0;
       max_route_time_minutes := None; total_distance_km := None;
       optimization_note := None;
       cluster_visualization := Some cluster_visualization;
       error := Some "Could not create routes"%string |}
  | first :: others =>
    let min_time := min_time_of first others in
    if Rgtb min_time 1800 then
      let best := fastest first others in
      chosen_plan best (Some (PrioritizingSpeed (num_buses best)))
                  cluster_visualization
    else
      let threshold := (min_time * (115 / 100))%R in
      let results_sorted := sorted_by_buses results in
      match find (fun result => Rleb (max_time result) threshold)
                 results_sorted with
      | Some result =>
        chosen_plan result (Some (OptimalBalance (num_buses result)))
                    cluster_visualization
      | None =>
        chosen_plan (fastest first others) None cluster_visualization
      end
  end.

(** Step 3 of [optimize_routes]. *)
Definition sweep (school : School) (students : list Student)
    (max_buses : Z) (recommended_buses : nat)
    (cluster_visualization : Visualization) (api_key : string) : M Plan :=
  results <- try_fleets school students api_key
                        (fleet_sizes max_buses recommended_buses) [] ;;
  ret (pick_best results cluster_visualization).

(** The test of step 2. *)
Definition strategy (a : Analysis) : Strategy :=
  if Rgtb (avg_cluster_distance a) 7 && (1 <? n_clusters a)%nat
  then FAR_APART else CLOSE_OR_SINGLE.

Definition cluster_plan (a : Analysis) (all_routes : list Route)
    (total_distance max_route_time : R) : Plan :=
  {| routes := all_routes;
     total_buses := length all_routes;
     max_route_time_minutes := Some (py_round_to (max_route_time / 60) 1);
     total_distance_km := Some (py_round_to total_distance 2);
     optimization_note :=
       Some (ClusterBased (length all_routes) (n_clusters a)
                          (avg_cluster_distance a));
     cluster_visualization := Some (visualization a);
     error := None |}.

(** [school] is [None] when the caller holds no school ([not school]). *)
Definition optimize_routes (school : option School)
    (students : list Student) (max_buses : Z) (api_key : string) : M Plan :=
  match school, students with
  | None, _ | _, [] =>
    ret {| routes := []; total_buses := 0;
           max_route_time_minutes := None; total_distance_km := None;
           optimization_note := None; cluster_visualization := None;
           error := Some "School location or students not set"%string |}
  | Some school, _ :: _ =>
    match analyze_student_clusters students school with
    | FewStudents => lift (Raise KeyError)
    | Analysed a =>
      match strategy a with
      | FAR_APART =>
        cluster_info <-
          lift (assign_isolated (isolated_students a) (cluster_info a)) ;;
        acc <- route_clusters school api_key cluster_info
                              ([], 0%R, 0%R) ;;
        let '(all_routes, total_distance, max_route_time) := acc in
        match all_routes with
        | _ :: _ =>
          ret (cluster_plan a all_routes total_distance max_route_time)
        | [] =>
          sweep school students max_buses (recommended_buses a)
                (visualization a) api_key
        end
      | CLOSE_OR_SINGLE =>
        sweep school students max_buses (recommended_buses a)
              (visualization a) api_key
      end
    end
  end.

(** *** Properties that hold for every behaviour of the services *)

(** C1: with exactly one student [optimize_routes] does not return a plan.
    The analyzer answers with its two-key dictionary for fewer than two
    students, and reading ['recommended_buses'] from it raises [KeyError]
    before any route is built. *)
Theorem optimize_routes_single_student school student max_buses api_key :
  analyze_student_clusters [student] school = FewStudents /\
  optimize_routes (Some school) [student] max_buses api_key
  = (Raise KeyError, []).
Proof. split; reflexivity. Qed.

(** **** Lists *)

Lemma flat_map_ext_in (A B : Type) (f g : A -> list B) l :
  (forall x, In x l -> f x = g x) -> flat_map f l = flat_map g l.
Proof.
  induction l as [|x l IH]; intros H; [reflexivity|].
  cbn. rewrite (H x (or_introl eq_refl)), IH; [reflexivity|].
  intros y Hy. apply H. now right.
Qed.

Lemma flat_map_flat_map_concat (A B C : Type) (f : B -> list C)
    (g : A -> list B) l :
  flat_map (fun x => flat_map f (g x)) l = flat_map f (concat (map g l)).
Proof.
  induction l as [|x l IH]; [reflexivity|].
  cbn. now rewrite flat_map_app, IH.
Qed.

(** **** The adapter *)

(** What one request to the adapter returns. *)
Definition adapter_answer (from to : Point) (api_key : string)
  : R * R * list Point :=
  match onemap from to api_key with
  | Some (distance_m, time_s, route_geometry) =>
    ((distance_m / 1000)%R, time_s, Polyline.decode_polyline route_geometry)
  | None =>
    (haversine_distance (fst from) (snd from) (fst to) (snd to),
     estimate_travel_time
       (haversine_distance (fst from) (snd from) (fst to) (snd to)),
     [from; to])
  end.

Definition enrich_segment (api_key : string) (segment : RawSegment)
  : Segment :=
  let '(distance_km, time_s, geometry) :=
    adapter_answer (raw_from segment) (raw_to segment) api_key in
  {| seg_from := raw_from segment; seg_to := raw_to segment;
     seg_student := raw_student segment;
     geometry := geometry; distance := distance_km; time := time_s |}.

Definition raw_call (segment : RawSegment) : Call :=
  (raw_from segment, raw_to segment).

Definition segment_call (segment : Segment) : Call :=
  (seg_from segment, seg_to segment).

Definition route_calls (r : Route) : list Call :=
  map segment_call (segments r).

Lemma get_route_from_onemap_answer from to api_key :
  get_route_from_onemap (fst from) (snd from) (fst to) (snd to) api_key
  = (Ok (adapter_answer from to api_key), [(from, to)]).
Proof.
  destruct from as [a b], to as [c d].
  unfold get_route_from_onemap, adapter_answer. cbn [fst snd].
  now destruct (onemap (a, b) (c, d) api_key) as [[[dm ts] g]|].
Qed.

Lemma enrich_all route_segments api_key :
  get_real_route_geometry_for_segments route_segments api_key
  = (Ok (map (enrich_segment api_key) route_segments),
     map raw_call route_segments).
Proof.
  induction route_segments as [|segment rest IH]; [reflexivity|].
  cbn [get_real_route_geometry_for_segments map].
  rewrite get_route_from_onemap_answer, IH.
  unfold bind, ret, enrich_segment.
  destruct (adapter_answer _ _ _) as [[dk ts] g]. cbn.
  now rewrite app_nil_r.
Qed.

Lemma segment_call_enrich api_key segment :
  segment_call (enrich_segment api_key segment) = raw_call segment.
Proof.
  unfold enrich_segment.
  now destruct (adapter_answer _ _ _) as [[dk ts] g].
Qed.

(** **** Extraction of the routes of a solution *)

Lemma pickup_leg_students school students0 D node next t t' :
  pickup_leg school students0 D node next t = Ok t' ->
  exists s, nth_error students0 (next - 1) = Some s /\
            route_students t' = route_students t ++ [s].
Proof.
  unfold pickup_leg, getitem.
  destruct (nth_error students0 (next - 1)) as [s|]; [|discriminate].
  destruct (matrix_lookup D node next); [|discriminate].
  destruct (if (node =? 0)%nat then _ else _); [|discriminate].
  intros H; inversion H; subst. exists s. now split.
Qed.

Lemma return_leg_students school students0 D node t t' :
  return_leg school students0 D node t = Ok t' ->
  route_students t' = route_students t.
Proof.
  unfold return_leg.
  destruct (if (0 <? node)%nat then _ else _); [|discriminate].
  destruct (matrix_lookup D node 0); [|discriminate].
  intros H; now inversion H.
Qed.

Lemma follow_length school students0 D path : forall node t t',
  follow school students0 D node path t = Ok t' ->
  (length (route_students t') <= length (route_students t) + length path)%nat.
Proof.
  induction path as [|k path IH]; intros node t t'; cbn [follow hd].
  - destruct ((node =? 0)%nat && (0 =? 0)%nat).
    + intros H; inversion H; subst. lia.
    + cbn [Nat.eqb negb].
      destruct (return_leg _ _ _ _ _) as [t1|] eqn:E; [|discriminate].
      intros H; inversion H; subst.
      apply return_leg_students in E. rewrite E. lia.
  - destruct ((node =? 0)%nat && (k =? 0)%nat).
    + intros H; inversion H; subst. lia.
    + destruct (negb (k =? 0)%nat).
      * destruct (pickup_leg _ _ _ _ _ _) as [t1|] eqn:E; [|discriminate].
        intros H. apply IH in H.
        apply pickup_leg_students in E as (s & _ & E).
        rewrite E, length_app in H. simpl in *. lia.
      * destruct (return_leg _ _ _ _ _) as [t1|] eqn:E; [|discriminate].
        intros H. apply IH in H.
        apply return_leg_students in E. rewrite E in H. simpl. lia.
Qed.

(** What [solve_cvrp] stores in a route it returns: the students of a
    tour, and figures computed from the adapter's answers. *)
Definition enriched_route (api_key : string) (r : Route) : Prop :=
  students r <> [] /\
  student_count r = length (students r) /\
  distance_km r = py_round_to (sum_R (map distance (segments r))) 2 /\
  time_seconds r =
    py_round (sum_R (map time (segments r))
              + INR (length (students r)) * 60)%R /\
  Forall (fun seg =>
            (distance seg, time seg, geometry seg)
            = adapter_answer (seg_from seg) (seg_to seg) api_key)
         (segments r).

(** The students the extraction loop collects for a vehicle. *)
Definition tour_students (school : School) (students0 : list Student)
    (D : matrix) (path : list nat) : list Student :=
  match follow school students0 D 0 path empty_tour with
  | Ok t => route_students t
  | Raise _ => []
  end.

Lemma bind_lift_ok (A B : Type) (a : A) (k : A -> M B) :
  bind (lift (Ok a)) k = k a.
Proof. unfold bind, lift. now destruct (k a). Qed.

Lemma bind_lift_raise (A B : Type) e (k : A -> M B) :
  bind (lift (Raise e)) k = (Raise e, []).
Proof. reflexivity. Qed.

Lemma enriched_route_make api_key t :
  route_students t <> [] ->
  enriched_route api_key
    (make_route (route_students t)
       (map (enrich_segment api_key) (route_segments t))
       (sum_R (map distance (map (enrich_segment api_key)
                                 (route_segments t))))
       (sum_R (map time (map (enrich_segment api_key) (route_segments t)))
        + INR (length (route_students t)) * 60)%R).
Proof.
  intros Hne. unfold enriched_route, make_route. cbn.
  repeat split; auto.
  apply Forall_forall. intros seg Hin.
  apply in_map_iff in Hin as (raw & <- & _).
  unfold enrich_segment.
  destruct (adapter_answer _ _ _) as [[dk ts] g] eqn:E. cbn.
  now rewrite E.
Qed.

Lemma extract_routes_facts school students0 D solution api_key vehicles :
  forall routes0 total0 max0,
    match extract_routes school students0 D solution api_key vehicles
                         (routes0, total0, max0) with
    | (Ok (routes1, total1, max1), log) =>
      exists new,
        routes1 = routes0 ++ new /\
        Forall (enriched_route api_key) new /\
        log = flat_map route_calls new /\
        (max0 <= max1)%R /\
        concat (map students new) =
          flat_map (fun v => tour_students school students0 D (solution v))
                   vehicles /\
        Forall (fun r => exists v, In v vehicles /\
                  (length (students r) <= length (solution v))%nat) new
    | (Raise _, _) => True
    end.
Proof.
  induction vehicles as [|v vehicles IH]; intros routes0 total0 max0.
  - cbn. exists []. rewrite app_nil_r. repeat split; auto. lra.
  - cbn [extract_routes flat_map]. unfold tour_students at 1.
    destruct (follow school students0 D 0 (solution v) empty_tour)
      as [t|e] eqn:Ef; [|now rewrite bind_lift_raise].
    rewrite bind_lift_ok.
    destruct (route_students t) as [|s0 ss] eqn:Es.
    + specialize (IH routes0 total0 max0).
      destruct (extract_routes _ _ _ _ _ vehicles _)
        as [[[[routes1 total1] max1]|e] log]; [|exact I].
      destruct IH as (new & H1 & H2 & H3 & H4 & H5 & H6).
      exists new. repeat split; auto.
      eapply Forall_impl; [|exact H6].
      intros r (v' & Hin & Hle). exists v'. split; [now right|exact Hle].
    + rewrite <- Es. rewrite enrich_all. unfold bind at 1.
      match goal with
      | |- context [extract_routes _ _ _ _ _ vehicles (?r, ?t', ?m')] =>
        specialize (IH r t' m');
        destruct (extract_routes school students0 D solution api_key
                                 vehicles (r, t', m'))
          as [[[[routes1 total1] max1]|e] log]; [|exact I]
      end.
      destruct IH as (new & H1 & H2 & H3 & H4 & H5 & H6).
      match type of H1 with
      | _ = (_ ++ [?route]) ++ _ => exists (route :: new)
      end.
      repeat split.
      * now rewrite H1, <- app_assoc.
      * constructor; [|exact H2].
        apply enriched_route_make. rewrite Es. discriminate.
      * cbn [flat_map]. rewrite H3. f_equal.
        unfold route_calls, make_route. cbn [segments].
        rewrite map_map. apply map_ext. intros raw.
        symmetry. apply segment_call_enrich.
      * eapply Rle_trans; [apply Rmax_l|exact H4].
      * cbn [map concat]. rewrite H5. reflexivity.
      * constructor.
        -- exists v. split; [now left|]. cbn [make_route students].
           pose proof (follow_length _ _ _ _ _ _ _ Ef) as Hl.
           cbn in Hl. lia.
        -- eapply Forall_impl; [|exact H6].
           intros r (v' & Hin & Hle). exists v'.
           split; [now right|exact Hle].
Qed.

Lemma solve_cvrp_facts school students0 num_vehicles api_key :
  match solve_cvrp school students0 num_vehicles api_key with
  | (Ok (Solved routes total max_route_time buses), log) =>
    exists solution,
      search (build_distance_matrix_fast school students0) num_vehicles
      = Some solution /\
      students0 <> [] /\
      buses = length routes /\
      Forall (enriched_route api_key) routes /\
      log = flat_map route_calls routes /\
      (0 <= max_route_time)%R /\
      concat (map students routes) =
        flat_map (fun v =>
                    tour_students school students0
                      (build_distance_matrix_fast school students0)
                      (solution v))
                 (seq 0 num_vehicles) /\
      Forall (fun r => exists v, (v < num_vehicles)%nat /\
                (length (students r) <= length (solution v))%nat) routes
  | (Ok NoStudents, log) => students0 = [] /\ log = []
  | (Ok NoSolution, log) =>
    search (build_distance_matrix_fast school students0) num_vehicles = None
    /\ log = []
  | (Raise _, _) => True
  end.
Proof.
  unfold solve_cvrp. destruct students0 as [|s0 ss]; [now split|].
  set (students0 := s0 :: ss).
  destruct (search _ num_vehicles) as [solution|] eqn:Es; [|now split].
  pose proof (extract_routes_facts school students0
                (build_distance_matrix_fast school students0)
                solution api_key (seq 0 num_vehicles) [] 0%R 0%R) as H.
  unfold bind.
  destruct (extract_routes _ _ _ _ _ _ _)
    as [[[[routes1 total1] max1]|e] log]; [|exact I].
  destruct H as (new & H1 & H2 & H3 & H4 & H5 & H6).
  cbn [ret app] in *. subst routes1. rewrite app_nil_r.
  exists solution. repeat split; auto; try discriminate.
  eapply Forall_impl; [|exact H6].
  intros r (v & Hin & Hle). exists v. apply in_seq in Hin.
  split; [lia|exact Hle].
Qed.

(** **** A solution that meets the constraints of the model *)

(** Every node but the depot is on exactly one path, and a path holds at
    most 40 nodes. *)
Definition feasible (n num_vehicles : nat) (solution : nat -> list nat)
  : Prop :=
  Permutation (concat (map solution (seq 0 num_vehicles))) (seq 1 n) /\
  forall v, (v < num_vehicles)%nat -> (length (solution v) <= 40)%nat.

Definition pick (students0 : list Student) (node : nat) : list Student :=
  match nth_error students0 (node - 1) with
  | Some s => [s]
  | None => []
  end.

Lemma matrix_lookup_square n D i j :
  square n D -> (i < n)%nat -> (j < n)%nat ->
  exists v, matrix_lookup D i j = Ok v.
Proof.
  intros Hsq Hi Hj. pose proof (square_row n D i Hsq Hi) as Hrow.
  destruct Hsq as [Hl Hr]. unfold matrix_lookup.
  destruct (nth_error D i) as [row|] eqn:E.
  - rewrite (nth_error_nth _ _ [] E) in Hrow.
    destruct (nth_error row j) as [v|] eqn:E'; [now exists v|].
    apply nth_error_None in E'. lia.
  - apply nth_error_None in E. lia.
Qed.

Lemma getitem_in_range (A : Type) (l : list A) i :
  (i < length l)%nat -> exists x, getitem l i = Ok x /\ nth_error l i = Some x.
Proof.
  intros Hi. unfold getitem.
  destruct (nth_error l i) as [x|] eqn:E; [now exists x|].
  apply nth_error_None in E. lia.
Qed.

Lemma follow_feasible school students0 D path :
  square (S (length students0)) D ->
  forall node t,
    Forall (fun k => (1 <= k <= length students0)%nat) path ->
    (node <= length students0)%nat ->
    exists t',
      follow school students0 D node path t = Ok t' /\
      route_students t' = route_students t ++ flat_map (pick students0) path.
Proof.
  intros Hsq.
  induction path as [|k path IH]; intros node t Hpath Hnode;
    cbn [follow hd flat_map].
  - rewrite app_nil_r. destruct (Nat.eqb_spec node 0) as [->|Hn0].
    + now exists t.
    + cbn [andb Nat.eqb negb]. unfold return_leg.
      destruct (Nat.ltb_spec 0 node); [|lia].
      destruct (getitem_in_range _ students0 (node - 1)) as (s & -> & _);
        [lia|].
      destruct (matrix_lookup_square _ D node 0 Hsq) as (v & ->); try lia.
      eexists. split; reflexivity.
  - inversion Hpath as [|k' path' Hk Hrest]; subst.
    destruct (Nat.eqb_spec k 0); [lia|]. rewrite andb_false_r.
    cbn [negb]. unfold pickup_leg.
    destruct (getitem_in_range _ students0 (k - 1)) as (s & -> & Hs);
      [lia|].
    destruct (matrix_lookup_square _ D node k Hsq) as (v & ->); try lia.
    assert (Hfrom : exists p,
               (if (node =? 0)%nat then Ok (school_point school)
                else match getitem students0 (node - 1) with
                     | Ok s1 => Ok (student_point s1)
                     | Raise e => Raise e
                     end) = Ok p).
    { destruct (Nat.eqb_spec node 0); [now eexists|].
      destruct (getitem_in_range _ students0 (node - 1)) as (s1 & -> & _);
        [lia|]. now eexists. }
    destruct Hfrom as (p & ->).
    edestruct IH as (t' & Hf & Ht'); [exact Hrest| |].
    2:{ exists t'. split; [exact Hf|]. rewrite Ht'. cbn [route_students].
        unfold pick at 2. rewrite Hs. now rewrite <- app_assoc. }
    lia.
Qed.

Lemma flat_map_pick_shift s0 ss l :
  Forall (fun k => (2 <= k)%nat) l ->
  flat_map (pick (s0 :: ss)) l = flat_map (pick ss) (map pred l).
Proof.
  induction 1 as [|k l Hk Hl IH]; [reflexivity|].
  cbn [flat_map map]. rewrite IH. f_equal. unfold pick.
  destruct k as [|[|k]]; try lia. cbn. now rewrite Nat.sub_0_r.
Qed.

Lemma flat_map_pick_all students0 :
  flat_map (pick students0) (seq 1 (length students0)) = students0.
Proof.
  induction students0 as [|s0 ss IH]; [reflexivity|].
  cbn [length seq flat_map]. unfold pick at 1. cbn [Nat.sub nth_error app].
  f_equal. rewrite flat_map_pick_shift.
  - rewrite <- seq_shift, map_map. cbn [pred]. rewrite map_id. exact IH.
  - apply Forall_forall. intros k Hk. apply in_seq in Hk. lia.
Qed.

Lemma feasible_paths n num_vehicles solution v :
  feasible n num_vehicles solution -> (v < num_vehicles)%nat ->
  Forall (fun k => (1 <= k <= n)%nat) (solution v).
Proof.
  intros [Hperm _] Hv. apply Forall_forall. intros k Hk.
  assert (In k (seq 1 n)) as Hin.
  { eapply Permutation_in; [exact Hperm|].
    apply in_concat. exists (solution v). split; [|exact Hk].
    apply in_map. apply in_seq. lia. }
  apply in_seq in Hin. lia.
Qed.

Lemma tour_students_feasible school students0 D path :
  square (S (length students0)) D ->
  Forall (fun k => (1 <= k <= length students0)%nat) path ->
  follow school students0 D 0 path empty_tour <> Raise IndexError /\
  tour_students school students0 D path = flat_map (pick students0) path.
Proof.
  intros Hsq Hpath. unfold tour_students.
  destruct (follow_feasible school students0 D path Hsq 0%nat empty_tour
              Hpath (Nat.le_0_l _)) as (t' & -> & ->).
  split; [discriminate|reflexivity].
Qed.

(** **** Selection among the candidates of the sweep *)

Lemma Rgtb_spec x y : Rgtb x y = true <-> (x > y)%R.
Proof. unfold Rgtb. destruct (Rlt_dec y x); split; auto; discriminate. Qed.

Lemma Rltb_spec x y : Rltb x y = true <-> (x < y)%R.
Proof. unfold Rltb. destruct (Rlt_dec x y); split; auto; discriminate. Qed.

Lemma Rleb_spec x y : Rleb x y = true <-> (x <= y)%R.
Proof. unfold Rleb. destruct (Rle_dec x y); split; auto; discriminate. Qed.

Lemma fold_min_spec others : forall m0,
  let m := fold_left (fun m r => Rmin m (max_time r)) others m0 in
  (m <= m0)%R /\
  (forall r, In r others -> (m <= max_time r)%R) /\
  (m = m0 \/ exists r, In r others /\ max_time r = m).
Proof.
  induction others as [|c others IH]; intros m0; cbn [fold_left].
  - repeat split; [lra|contradiction|now left].
  - destruct (IH (Rmin m0 (max_time c))) as (H1 & H2 & H3).
    pose proof (Rmin_l m0 (max_time c)). pose proof (Rmin_r m0 (max_time c)).
    repeat split.
    + lra.
    + intros r [<-|Hr]; [lra|now apply H2].
    + destruct H3 as [H3|(r & Hr & H3)].
      * destruct (Rle_dec m0 (max_time c)).
        -- left. rewrite H3. now apply Rmin_left.
        -- right. exists c. split; [now left|].
           rewrite H3. symmetry. apply Rmin_right. lra.
      * right. exists r. split; [now right|exact H3].
Qed.

Lemma min_time_of_spec first others :
  (forall r, In r (first :: others) ->
             (min_time_of first others <= max_time r)%R) /\
  (exists r, In r (first :: others) /\
             max_time r = min_time_of first others).
Proof.
  unfold min_time_of.
  destruct (fold_min_spec others (max_time first)) as (H1 & H2 & H3).
  split.
  - intros r [<-|Hr]; [exact H1|now apply H2].
  - destruct H3 as [H3|(r & Hr & H3)].
    + exists first. split; [now left|now rewrite H3].
    + exists r. split; [now right|exact H3].
Qed.

Lemma fold_fastest_spec others : forall b0,
  let b := fold_left (fun best r =>
                        if Rltb (max_time r) (max_time best) then r
                        else best) others b0 in
  (b = b0 \/ In b others) /\
  (max_time b <= max_time b0)%R /\
  (forall r, In r others -> (max_time b <= max_time r)%R).
Proof.
  induction others as [|c others IH]; intros b0; cbn [fold_left].
  - repeat split; [now left|lra|contradiction].
  - destruct (Rltb (max_time c) (max_time b0)) eqn:E.
    + apply Rltb_spec in E. destruct (IH c) as (H1 & H2 & H3).
      repeat split.
      * right. destruct H1 as [->|H1]; [now left|now right].
      * lra.
      * intros r [<-|Hr]; [exact H2|now apply H3].
    + assert (~ (max_time c < max_time b0)%R) as E'
          by (intros H; apply Rltb_spec in H; congruence).
      destruct (IH b0) as (H1 & H2 & H3).
      repeat split.
      * destruct H1 as [->|H1]; [now left|right; now right].
      * exact H2.
      * intros r [<-|Hr]; [lra|now apply H3].
Qed.

Lemma fastest_spec first others :
  In (fastest first others) (first :: others) /\
  (forall r, In r (first :: others) ->
             (max_time (fastest first others) <= max_time r)%R).
Proof.
  unfold fastest.
  destruct (fold_fastest_spec others first) as (H1 & H2 & H3).
  split.
  - destruct H1 as [->|H1]; [now left|now right].
  - intros r [<-|Hr]; [exact H2|now apply H3].
Qed.

Lemma insert_by_buses_perm r sorted :
  Permutation (insert_by_buses r sorted) (r :: sorted).
Proof.
  induction sorted as [|s sorted IH]; cbn [insert_by_buses]; [reflexivity|].
  destruct (num_buses r <=? num_buses s)%nat; [reflexivity|].
  rewrite IH. apply perm_swap.
Qed.

Lemma sorted_by_buses_perm results :
  Permutation (sorted_by_buses results) results.
Proof.
  induction results as [|r results IH]; [reflexivity|].
  cbn. rewrite insert_by_buses_perm. now constructor.
Qed.

Definition fewer_buses (a b : Candidate) : Prop :=
  (num_buses a <= num_buses b)%nat.

Lemma insert_by_buses_sorted r sorted :
  StronglySorted fewer_buses sorted ->
  StronglySorted fewer_buses (insert_by_buses r sorted).
Proof.
  induction 1 as [|s sorted Hs IH Hall]; cbn [insert_by_buses].
  - repeat constructor.
  - destruct (Nat.leb_spec (num_buses r) (num_buses s)) as [Hle|Hgt].
    + constructor; [now constructor|].
      constructor; [exact Hle|].
      eapply Forall_impl; [|exact Hall].
      unfold fewer_buses. intros; lia.
    + constructor; [exact IH|].
      eapply Permutation_Forall.
      * symmetry. apply insert_by_buses_perm.
      * constructor; [unfold fewer_buses; lia|exact Hall].
Qed.

Lemma sorted_by_buses_sorted results :
  StronglySorted fewer_buses (sorted_by_buses results).
Proof.
  induction results as [|r results IH]; [constructor|].
  now apply insert_by_buses_sorted.
Qed.

Lemma find_first_sorted (p : Candidate -> bool) sorted x :
  StronglySorted fewer_buses sorted ->
  find p sorted = Some x ->
  In x sorted /\ p x = true /\
  forall y, In y sorted -> p y = true -> (num_buses x <= num_buses y)%nat.
Proof.
  induction 1 as [|s sorted Hs IH Hall]; cbn [find]; [discriminate|].
  destruct (p s) eqn:Ep.
  - intros H; inversion H; subst. repeat split; [now left|exact Ep|].
    intros y [<-|Hy] _; [lia|].
    rewrite Forall_forall in Hall. now apply Hall.
  - intros H. destruct (IH H) as (H1 & H2 & H3).
    repeat split; [now right|exact H2|].
    intros y [<-|Hy] Hpy; [congruence|now apply H3].
Qed.

(** What [pick_best] returns for a non-empty list of candidates none of
    which has a negative time. *)
Lemma pick_best_spec first others viz :
  let results := first :: others in
  let plan := pick_best results viz in
  let min_max_time := min_time_of first others in
  Forall (fun r => (0 <= max_time r)%R) results ->
  exists best,
    In best results /\
    routes plan = candidate_routes best /\
    total_buses plan = num_buses best /\
    error plan = None /\
    ((min_max_time <= 1800)%R ->
     (max_time best <= 115 / 100 * min_max_time)%R /\
     forall r, In r results ->
               (max_time r <= 115 / 100 * min_max_time)%R ->
               (num_buses best <= num_buses r)%nat) /\
    ((min_max_time > 1800)%R ->
     forall r, In r results -> (max_time best <= max_time r)%R).
Proof.
  cbv zeta. intros Hpos. unfold pick_best.
  destruct (min_time_of_spec first others) as (Hmin & rmin & Hrmin & Hmeq).
  destruct (fastest_spec first others) as (Hfin & Hfast).
  destruct (Rgtb (min_time_of first others) 1800) eqn:Eg.
  - apply Rgtb_spec in Eg.
    exists (fastest first others). repeat split; auto; try lra.
  - assert (Hle : (min_time_of first others <= 1800)%R).
    { destruct (Rle_dec (min_time_of first others) 1800); [assumption|].
      assert (Rgtb (min_time_of first others) 1800 = true)
        by (apply Rgtb_spec; lra). congruence. }
    destruct (find _ _) as [result|] eqn:Ef.
    + apply find_first_sorted in Ef as (H1 & H2 & H3);
        [|apply sorted_by_buses_sorted].
      apply Rleb_spec in H2.
      exists result. repeat split; auto.
      * eapply Permutation_in; [apply sorted_by_buses_perm|exact H1].
      * lra.
      * intros r Hr Hrt. apply H3.
        -- eapply Permutation_in;
             [symmetry; apply sorted_by_buses_perm|exact Hr].
        -- apply Rleb_spec. lra.
      * lra.
    + exfalso.
      assert (In rmin (sorted_by_buses (first :: others))) as Hin
          by (eapply Permutation_in;
              [symmetry; apply sorted_by_buses_perm|exact Hrmin]).
      apply (find_none _ _ Ef) in Hin.
      assert (Rleb (max_time rmin)
                   (min_time_of first others * (115 / 100)) = true).
      { apply Rleb_spec. rewrite Forall_forall in Hpos.
        specialize (Hpos rmin Hrmin). lra. }
      congruence.
Qed.

(** **** The two loops of the orchestrator *)

(** An entry of [results]: what a successful [solve_cvrp] on the whole
    student list returned for some fleet size. *)
Definition recorded (school : School) (students0 : list Student)
    (api_key : string) (c : Candidate) : Prop :=
  exists num_vehicles log,
    solve_cvrp school students0 num_vehicles api_key
    = (Ok (Solved (candidate_routes c) (candidate_distance c)
                  (max_time c) (num_buses c)), log) /\
    candidate_routes c <> [].

Lemma try_fleet_facts school students0 num_vehicles api_key :
  exists found,
    try_fleet school students0 num_vehicles api_key
    = (Ok found, calls (solve_cvrp school students0 num_vehicles api_key)) /\
    Forall (recorded school students0 api_key) found.
Proof.
  unfold try_fleet, calls.
  destruct (solve_cvrp school students0 num_vehicles api_key)
    as [[res|e] log] eqn:E; cbn [snd].
  - destruct res as [| |routes total mt nb];
      try (exists []; split; [reflexivity|constructor]).
    destruct routes as [|r rs];
      [exists []; split; [reflexivity|constructor]|].
    eexists. split; [reflexivity|].
    constructor; [|constructor].
    exists num_vehicles, log. cbn. split; [exact E|discriminate].
  - exists []. split; [reflexivity|constructor].
Qed.

Lemma try_fleets_facts school students0 api_key fleets : forall results0,
  exists new,
    try_fleets school students0 api_key fleets results0
    = (Ok (results0 ++ new),
       flat_map (fun k => calls (solve_cvrp school students0 k api_key))
                fleets) /\
    Forall (recorded school students0 api_key) new.
Proof.
  induction fleets as [|k fleets IH]; intros results0.
  - exists []. cbn. rewrite app_nil_r. split; [reflexivity|constructor].
  - cbn [try_fleets flat_map].
    destruct (try_fleet_facts school students0 k api_key)
      as (found & -> & Hfound).
    destruct (IH (results0 ++ found)) as (new & Hnew & Hrec).
    exists (found ++ new). unfold bind. rewrite Hnew. split.
    + now rewrite app_assoc.
    + apply Forall_app. now split.
Qed.

Lemma sweep_facts school students0 max_buses recommended viz api_key :
  exists results,
    value (try_fleets school students0 api_key
                      (fleet_sizes max_buses recommended) []) = Ok results /\
    sweep school students0 max_buses recommended viz api_key
    = (Ok (pick_best results viz),
       flat_map (fun k => calls (solve_cvrp school students0 k api_key))
                (fleet_sizes max_buses recommended)) /\
    Forall (recorded school students0 api_key) results.
Proof.
  unfold sweep.
  destruct (try_fleets_facts school students0 api_key
              (fleet_sizes max_buses recommended) [])
    as (results & -> & Hrec).
  exists results. unfold bind, ret. cbn. rewrite app_nil_r. now repeat split.
Qed.

Lemma recorded_nonneg school students0 api_key c :
  recorded school students0 api_key c -> (0 <= max_time c)%R.
Proof.
  intros (k & log & E & _).
  pose proof (solve_cvrp_facts school students0 k api_key) as H.
  rewrite E in H. destruct H as (sol & _ & _ & _ & _ & _ & H & _).
  exact H.
Qed.

Lemma pick_best_routes results viz :
  match results with
  | [] =>
    routes (pick_best results viz) = [] /\
    error (pick_best results viz) <> None
  | _ :: _ =>
    error (pick_best results viz) = None /\
    exists c, In c results /\
              routes (pick_best results viz) = candidate_routes c
  end.
Proof.
  destruct results as [|first others]; [split; [reflexivity|discriminate]|].
  unfold pick_best.
  destruct (fastest_spec first others) as (Hfin & _).
  destruct (Rgtb _ _); [split; [reflexivity|now exists (fastest first others)]|].
  destruct (find _ _) as [result|] eqn:Ef;
    [|split; [reflexivity|now exists (fastest first others)]].
  split; [reflexivity|].
  exists result. split; [|reflexivity].
  apply find_some in Ef as [Hin _].
  eapply Permutation_in; [apply sorted_by_buses_perm|exact Hin].
Qed.

(** The routes the cluster-based branch takes from one cluster. *)
Definition served (school : School) (api_key : string) (c : ClusterInfo)
  : list Route :=
  match value (solve_cvrp school (cluster_students c)
                 (Nat.max 1 (ceil40 (length (cluster_students c))))
                 api_key) with
  | Ok (Solved routes _ _ _) => routes
  | _ => []
  end.

Lemma route_clusters_facts school api_key clusters0 :
  forall routes0 total0 max0,
    match route_clusters school api_key clusters0 (routes0, total0, max0)
    with
    | (Ok (routes1, _, _), log) =>
      routes1 = routes0 ++ flat_map (served school api_key) clusters0 /\
      log = flat_map
              (fun c => calls (solve_cvrp school (cluster_students c)
                                 (Nat.max 1
                                    (ceil40 (length (cluster_students c))))
                                 api_key))
              clusters0
    | (Raise _, _) => True
    end.
Proof.
  induction clusters0 as [|c clusters0 IH]; intros routes0 total0 max0.
  - cbn. now rewrite app_nil_r.
  - cbn [route_clusters flat_map]. unfold served at 1, value, calls at 1.
    destruct (solve_cvrp school (cluster_students c) _ api_key)
      as [[res|e] log] eqn:E; cbn [fst snd bind]; [|exact I].
    match goal with
    | |- context [route_clusters school api_key clusters0 ?acc] =>
      destruct acc as [[routes' total'] max'] eqn:Eacc;
      specialize (IH routes' total' max');
      destruct (route_clusters school api_key clusters0
                               (routes', total', max'))
        as [[[[routes1 total1] max1]|e] log']; [|exact I]
    end.
    destruct IH as (-> & ->). split; [|reflexivity].
    destruct res as [| |[|r rs] total mt nb]; inversion Eacc; subst;
      try reflexivity.
    now rewrite app_assoc.
Qed.

(** **** The shape of what [optimize_routes] returns *)

Definition not_set_plan : Plan :=
  {| routes := []; total_buses := 0;
     max_route_time_minutes := None; total_distance_km := None;
     optimization_note := None; cluster_visualization := None;
     error := Some "School location or students not set"%string |}.

(** The fleet size the cluster-based branch gives to a cluster. *)
Definition cluster_fleet (c : ClusterInfo) : nat :=
  Nat.max 1 (ceil40 (length (cluster_students c))).

Lemma optimize_routes_close school students0 max_buses api_key a :
  analyze_student_clusters students0 school = Analysed a ->
  strategy a = CLOSE_OR_SINGLE ->
  optimize_routes (Some school) students0 max_buses api_key
  = sweep school students0 max_buses (recommended_buses a)
          (visualization a) api_key.
Proof.
  intros Ha Hs. unfold optimize_routes.
  destruct students0 as [|s0 ss]; [discriminate|].
  now rewrite Ha, Hs.
Qed.

Lemma optimize_routes_far school students0 max_buses api_key a ci :
  analyze_student_clusters students0 school = Analysed a ->
  strategy a = FAR_APART ->
  assign_isolated (isolated_students a) (cluster_info a) = Ok ci ->
  match route_clusters school api_key ci ([], 0%R, 0%R) with
  | (Ok (r :: rs, total, mt), log) =>
    optimize_routes (Some school) students0 max_buses api_key
    = (Ok (cluster_plan a (r :: rs) total mt), log)
  | (Ok ([], total, mt), log) =>
    optimize_routes (Some school) students0 max_buses api_key
    = (value (sweep school students0 max_buses (recommended_buses a)
                    (visualization a) api_key),
       log ++ calls (sweep school students0 max_buses
                           (recommended_buses a) (visualization a)
                           api_key))
  | (Raise e, log) =>
    optimize_routes (Some school) students0 max_buses api_key
    = (Raise e, log)
  end.
Proof.
  intros Ha Hs Hci. unfold optimize_routes.
  destruct students0 as [|s0 ss]; [discriminate|].
  rewrite Ha, Hs, Hci, bind_lift_ok.
  destruct (route_clusters school api_key ci ([], 0%R, 0%R))
    as [[[[[|r rs] total] mt]|e] log]; unfold bind; try reflexivity.
  - unfold value, calls. now destruct (sweep _ _ _ _ _ _).
  - unfold ret. now rewrite app_nil_r.
Qed.

(** Every plan is the refusal for missing input, a cluster-based plan, or
    the pick among the candidates of the sweep. *)
Lemma optimize_routes_shape school students0 max_buses api_key :
  match value (optimize_routes school students0 max_buses api_key) with
  | Raise _ => True
  | Ok plan =>
    plan = not_set_plan \/
    exists school0 a,
      school = Some school0 /\
      analyze_student_clusters students0 school0 = Analysed a /\
      ((exists ci total mt,
          strategy a = FAR_APART /\
          assign_isolated (isolated_students a) (cluster_info a) = Ok ci /\
          flat_map (served school0 api_key) ci <> [] /\
          plan = cluster_plan a (flat_map (served school0 api_key) ci)
                              total mt) \/
       (exists results,
          Forall (recorded school0 students0 api_key) results /\
          plan = pick_best results (visualization a)))
  end.
Proof.
  destruct school as [school0|]; [|now left].
  destruct students0 as [|s0 ss]; [now left|].
  set (students0 := s0 :: ss).
  destruct (analyze_student_clusters students0 school0) as [|a] eqn:Ha;
    [unfold optimize_routes; subst students0; now rewrite Ha|].
  destruct (sweep_facts school0 students0 max_buses (recommended_buses a)
              (visualization a) api_key) as (results & _ & Hsw & Hrec).
  destruct (strategy a) eqn:Hs.
  - destruct (assign_isolated (isolated_students a) (cluster_info a))
      as [ci|e] eqn:Hci.
    + pose proof (optimize_routes_far school0 students0 max_buses api_key
                    a ci Ha Hs Hci) as H.
      pose proof (route_clusters_facts school0 api_key ci [] 0%R 0%R) as Hf.
      destruct (route_clusters school0 api_key ci ([], 0%R, 0%R))
        as [[[[[|r rs] total] mt]|e] log].
      * rewrite H, Hsw. cbn. right. exists school0, a.
        repeat split; auto. right. now exists results.
      * rewrite H. cbn. right. exists school0, a. repeat split; auto.
        left. exists ci, total, mt. destruct Hf as [Hf _]. cbn in Hf.
        rewrite <- Hf. repeat split; auto. discriminate.
      * now rewrite H.
    + unfold optimize_routes. subst students0. now rewrite Ha, Hs, Hci.
  - rewrite (optimize_routes_close school0 students0 max_buses api_key a
               Ha Hs), Hsw.
    cbn. right. exists school0, a. repeat split; auto.
    right. now exists results.
Qed.

(** A property of all the routes of every successful solve is a property
    of all the routes of every plan. *)
Lemma optimize_routes_routes (Q : Route -> Prop) school students0
    max_buses api_key :
  (forall school0 students1 k,
     match value (solve_cvrp school0 students1 k api_key) with
     | Ok (Solved found _ _ _) => Forall Q found
     | _ => True
     end) ->
  match value (optimize_routes school students0 max_buses api_key) with
  | Ok plan => Forall Q (routes plan)
  | Raise _ => True
  end.
Proof.
  intros HQ.
  pose proof (optimize_routes_shape school students0 max_buses api_key) as H.
  destruct (value (optimize_routes school students0 max_buses api_key))
    as [plan|e]; [|exact I].
  destruct H as [->|(school0 & a & _ & _ & [H|H])].
  - constructor.
  - destruct H as (ci & total & mt & _ & _ & _ & ->). cbn [routes cluster_plan].
    apply Forall_flat_map, Forall_forall. intros c _. unfold served.
    specialize (HQ school0 (cluster_students c)
                   (Nat.max 1 (ceil40 (length (cluster_students c))))).
    destruct (value (solve_cvrp _ _ _ _)) as [[| |found t m n]|];
      try constructor. exact HQ.
  - destruct H as (results & Hrec & ->).
    pose proof (pick_best_routes results (visualization a)) as Hp.
    destruct results as [|first others];
      [destruct Hp as [-> _]; constructor|].
    destruct Hp as (_ & c & Hc & ->).
    rewrite Forall_forall in Hrec.
    destruct (Hrec c Hc) as (k & log & E & _).
    specialize (HQ school0 students0 k). unfold value in HQ.
    now rewrite E in HQ.
Qed.

(** **** The selection rule of the sweep (C3) *)


(** **** The fall-through of the cluster-based branch (C9) *)

(** C9: in the FAR_APART branch, when the loop over the clusters ends with
    no route at all, [optimize_routes] returns no error there: its result
    is the result of the fleet-size sweep over the full student list. *)
Theorem far_apart_falls_through school students0 max_buses api_key a ci
    total mt log :
  analyze_student_clusters students0 school = Analysed a ->
  strategy a = FAR_APART ->
  assign_isolated (isolated_students a) (cluster_info a) = Ok ci ->
  route_clusters school api_key ci ([], 0%R, 0%R)
  = (Ok ([], total, mt), log) ->
  value (optimize_routes (Some school) students0 max_buses api_key)
  = value (sweep school students0 max_buses (recommended_buses a)
                 (visualization a) api_key) /\
  exists results,
    value (try_fleets school students0 api_key
             (fleet_sizes max_buses (recommended_buses a)) []) = Ok results /\
    value (optimize_routes (Some school) students0 max_buses api_key)
    = Ok (pick_best results (visualization a)) /\
    (results <> [] ->
     error (pick_best results (visualization a)) = None /\
     routes (pick_best results (visualization a)) <> []).
Proof.
  intros Ha Hs Hci Hrc.
  pose proof (optimize_routes_far school students0 max_buses api_key a ci
                Ha Hs Hci) as H.
  rewrite Hrc in H. rewrite H. split; [reflexivity|].
  destruct (sweep_facts school students0 max_buses (recommended_buses a)
              (visualization a) api_key) as (results & Htry & Hsw & Hrec).
  exists results. split; [exact Htry|]. split; [now rewrite Hsw|].
  intros Hne. destruct results as [|first others]; [contradiction|].
  destruct (pick_best_spec first others (visualization a))
    as (best & Hin & Hr & _ & He & _).
  { eapply Forall_impl; [|exact Hrec]. intros c. apply recorded_nonneg. }
  split; [exact He|]. rewrite Hr.
  rewrite Forall_forall in Hrec.
  now destruct (Hrec best Hin) as (k & l & _ & Hne').
Qed.

(** **** Where the figures of a route come from (C4) *)

(** C4, as amended: the search of a solve reads the distance matrix only,
    and the students of the routes are those of the paths it found.  After
    the search [solve_cvrp] itself calls the adapter, once for every segment
    of every route it returns; the distance of a route is the sum of the
    adapter's distances and its time the sum of the adapter's times plus
    60 s for each of its students.  The figures read from the matrix during
    extraction are not returned.  The sweep makes the calls of every solve
    it tries, whichever candidate is picked afterwards. *)
Theorem solve_cvrp_figures school students0 num_vehicles max_buses
    recommended viz api_key :
  match solve_cvrp school students0 num_vehicles api_key with
  | (Ok (Solved found _ _ _), log) =>
    (exists solution,
       search (build_distance_matrix_fast school students0) num_vehicles
       = Some solution /\
       concat (map students found) =
         flat_map (fun v =>
                     tour_students school students0
                       (build_distance_matrix_fast school students0)
                       (solution v))
                  (seq 0 num_vehicles)) /\
    log = flat_map route_calls found /\
    Forall (fun r =>
              distance_km r
              = py_round_to (sum_R (map distance (segments r))) 2 /\
              time_seconds r
              = py_round (sum_R (map time (segments r))
                          + INR (length (students r)) * 60)%R /\
              Forall (fun seg =>
                        (distance seg, time seg, geometry seg)
                        = adapter_answer (seg_from seg) (seg_to seg)
                                         api_key)
                     (segments r))
           found
  | (Ok _, log) => log = []
  | (Raise _, _) => True
  end /\
  calls (sweep school students0 max_buses recommended viz api_key)
  = flat_map (fun k => calls (solve_cvrp school students0 k api_key))
             (fleet_sizes max_buses recommended).
Proof.
  split.
  - pose proof (solve_cvrp_facts school students0 num_vehicles api_key) as H.
    destruct (solve_cvrp school students0 num_vehicles api_key)
      as [[[| |found total mt nb]|e] log]; try tauto.
    destruct H as (solution & Hs & _ & _ & Hr & Hl & _ & Hc & _).
    split; [exists solution; now split|]. split; [exact Hl|].
    eapply Forall_impl; [|exact Hr].
    intros r (_ & _ & Hd & Ht & Hseg). now repeat split.
  - destruct (sweep_facts school students0 max_buses recommended viz
                api_key) as (results & _ & -> & _).
    reflexivity.
Qed.

(** **** The cluster analyzer *)

Lemma set_add_in x y s : In x (set_add y s) <-> x = y \/ In x s.
Proof.
  induction s as [|z s IH]; cbn [set_add].
  - cbn. intuition.
  - destruct (Z.ltb_spec y z); [cbn; intuition|].
    destruct (Z.eqb_spec y z) as [->|Hne]; [cbn; intuition|].
    cbn. rewrite IH. intuition.
Qed.

Lemma py_set_in x labels : In x (py_set labels) <-> In x labels.
Proof.
  induction labels as [|y labels IH]; [reflexivity|].
  cbn [py_set fold_right]. rewrite set_add_in. fold (py_set labels).
  rewrite IH. cbn. intuition.
Qed.

Lemma set_add_sorted y s :
  StronglySorted Z.lt s -> StronglySorted Z.lt (set_add y s).
Proof.
  induction 1 as [|z s Hs IH Hall]; cbn [set_add].
  - repeat constructor.
  - destruct (Z.ltb_spec y z) as [Hlt|Hge].
    + constructor; [now constructor|].
      constructor; [exact Hlt|].
      eapply Forall_impl; [|exact Hall]. intros; lia.
    + destruct (Z.eqb_spec y z) as [->|Hne]; [now constructor|].
      constructor; [exact IH|].
      apply Forall_forall. intros w Hw. apply set_add_in in Hw as [->|Hw].
      * lia.
      * rewrite Forall_forall in Hall. now apply Hall.
Qed.

Lemma py_set_sorted labels : StronglySorted Z.lt (py_set labels).
Proof.
  induction labels as [|y labels IH]; [constructor|].
  now apply set_add_sorted.
Qed.

Lemma sorted_NoDup s : StronglySorted Z.lt s -> NoDup s.
Proof.
  induction 1 as [|z s Hs IH Hall]; constructor; [|exact IH].
  intros Hin. rewrite Forall_forall in Hall. specialize (Hall z Hin). lia.
Qed.

Lemma length_filter_out x s :
  NoDup s ->
  length (filter (fun y => negb (y =? x)%Z) s)
  = (length s - (if existsb (Z.eqb x) s then 1 else 0))%nat.
Proof.
  induction 1 as [|z s Hz Hs IH]; [reflexivity|].
  cbn [filter existsb length].
  destruct (Z.eqb_spec z x) as [->|Hne].
  - rewrite Z.eqb_refl. cbn [negb orb].
    rewrite IH.
    destruct (existsb (Z.eqb x) s) eqn:E; [|lia].
    apply existsb_exists in E as (w & Hw & Hwx).
    apply Z.eqb_eq in Hwx. subst. contradiction.
  - destruct (Z.eqb_spec x z); [congruence|]. cbn [negb orb length].
    rewrite IH. destruct (existsb (Z.eqb x) s) eqn:E; [|lia].
    destruct s; [discriminate|]. cbn [length]. lia.
Qed.

Lemma existsb_py_set x labels :
  existsb (Z.eqb x) (py_set labels) = existsb (Z.eqb x) labels.
Proof.
  destruct (existsb (Z.eqb x) labels) eqn:E.
  - apply existsb_exists in E as (w & Hw & Hwx).
    apply existsb_exists. exists w. split; [|exact Hwx].
    now apply py_set_in.
  - destruct (existsb (Z.eqb x) (py_set labels)) eqn:E'; [|reflexivity].
    apply existsb_exists in E' as (w & Hw & Hwx).
    apply (proj1 (py_set_in w labels)) in Hw.
    assert (existsb (Z.eqb x) labels = true)
      by (apply existsb_exists; exists w; split; assumption).
    congruence.
Qed.

(** The members of a label, when every item has a label. *)
Lemma members_length (A : Type) labels cluster_id (xs : list A) :
  length xs = length labels ->
  length (members labels cluster_id xs)
  = count_occ Z.eq_dec labels cluster_id.
Proof.
  unfold members. rewrite length_map. revert labels.
  induction xs as [|x xs IH]; intros [|l labels] Hlen; try discriminate;
    [reflexivity|].
  cbn [combine filter snd count_occ].
  destruct (Z.eqb_spec l cluster_id) as [->|Hne].
  - destruct (Z.eq_dec cluster_id cluster_id); [|congruence].
    cbn [length]. f_equal. apply IH. now inversion Hlen.
  - destruct (Z.eq_dec l cluster_id); [congruence|].
    apply IH. now inversion Hlen.
Qed.

Lemma ceil40_bound n :
  (40 * (ceil40 n - 1) < n <= 40 * ceil40 n)%nat \/ (n = 0 /\ ceil40 n = 0)%nat.
Proof.
  unfold ceil40.
  pose proof (Zceil_bound (INR n / 40)) as [Hlo Hhi].
  pose proof (pos_INR n) as Hn.
  assert (Hz : (0 <= Zceil (INR n / 40))%Z).
  { apply le_IZR. lra. }
  destruct n as [|n].
  - right. split; [reflexivity|].
    replace (Zceil (INR 0 / 40)) with 0%Z; [reflexivity|].
    symmetry. apply Zceil_eq. cbn. lra.
  - left. rewrite INR_IZR_INZ in Hlo, Hhi.
    set (c := Zceil (IZR (Z.of_nat (S n)) / 40)) in *.
    assert (H1 : (IZR (40 * (c - 1)) < IZR (Z.of_nat (S n)))%R).
    { rewrite mult_IZR, minus_IZR. lra. }
    assert (H2 : (IZR (Z.of_nat (S n)) <= IZR (40 * c))%R).
    { rewrite mult_IZR. lra. }
    apply lt_IZR in H1. apply le_IZR in H2.
    rewrite INR_IZR_INZ. fold c. lia.
Qed.

Lemma ceil40_pos n : (1 <= n)%nat -> Nat.max 1 (ceil40 n) = ceil40 n.
Proof. destruct (ceil40_bound n) as [H|[H _]]; lia. Qed.


Definition centroid_distances (cluster_info : list ClusterInfo) : list R :=
  map (fun cc => point_distance (center (fst cc)) (center (snd cc)))
      (pairs_of cluster_info).

Definition labels_of (students0 : list Student) : list Z :=
  map (dbscan (map student_point students0))
      (seq 0 (length (map student_point students0))).

Definition cluster_ids (students0 : list Student) : list Z :=
  filter (fun cluster_id => negb (cluster_id =? -1)%Z)
         (py_set (labels_of students0)).

Lemma analyze_fields students0 school a :
  analyze_student_clusters students0 school = Analysed a ->
  (2 <= length students0)%nat /\
  cluster_info a
  = map (cluster_record school students0 (map student_point students0)
                        (labels_of students0))
        (cluster_ids students0) /\
  isolated_students a = members (labels_of students0) (-1)%Z students0 /\
  n_clusters a
  = (length (py_set (labels_of students0))
     - (if existsb (Z.eqb (-1)) (labels_of students0) then 1 else 0))%nat /\
  n_noise a = count_occ Z.eq_dec (labels_of students0) (-1)%Z /\
  avg_cluster_distance a
  = match centroid_distances (cluster_info a) with
    | [] => 0%R
    | _ :: _ => mean (centroid_distances (cluster_info a))
    end /\
  recommended_buses a
  = (if (n_clusters a =? 0)%nat then Nat.max 1 (ceil40 (length students0))
     else if (n_clusters a =? 1)%nat
     then Nat.max 1 (ceil40 (length students0))
     else if Rgtb (avg_cluster_distance a) 7
     then if (0 <? n_noise a)%nat
          then (sum_nat (map (fun c => Nat.max 1 (ceil40 (size c)))
                             (cluster_info a))
                + ceil40 (n_noise a))%nat
          else sum_nat (map (fun c => Nat.max 1 (ceil40 (size c)))
                            (cluster_info a))
     else Nat.max 1 (ceil40 (length students0))) /\
  visualization a
  = {| clusters := map circle_of (cluster_info a);
       isolated := map mark_of (isolated_students a) |}.
Proof.
  unfold analyze_student_clusters.
  destruct (Nat.ltb_spec (length students0) 2) as [|Hlen]; [discriminate|].
  fold (labels_of students0). fold (cluster_ids students0).
  set (ci := map (cluster_record school students0
                    (map student_point students0) (labels_of students0))
                 (cluster_ids students0)).
  fold (centroid_distances ci).
  set (nc := (length (py_set (labels_of students0))
              - (if existsb (Z.eqb (-1)) (labels_of students0)
                 then 1 else 0))%nat).
  destruct (nc =? 0)%nat eqn:E0;
    [|destruct (nc =? 1)%nat eqn:E1;
      [|destruct (Rgtb _ 7) eqn:Eg]];
    intros H; inversion H; subst; clear H; cbn;
    fold nc; rewrite ?E0, ?E1, ?Eg; repeat split; auto.
Qed.

Lemma labels_of_length students0 :
  length (labels_of students0) = length students0.
Proof. unfold labels_of. now rewrite length_map, length_seq, length_map. Qed.

Lemma cluster_ids_in students0 cluster_id :
  In cluster_id (cluster_ids students0) <->
  In cluster_id (labels_of students0) /\ cluster_id <> (-1)%Z.
Proof.
  unfold cluster_ids. rewrite filter_In, py_set_in.
  destruct (Z.eqb_spec cluster_id (-1)); cbn; intuition congruence.
Qed.

Lemma cluster_ids_length students0 :
  length (cluster_ids students0)
  = (length (py_set (labels_of students0))
     - (if existsb (Z.eqb (-1)) (labels_of students0) then 1 else 0))%nat.
Proof.
  unfold cluster_ids.
  rewrite length_filter_out by apply sorted_NoDup, py_set_sorted.
  now rewrite existsb_py_set.
Qed.


Lemma sum_nat_from l : forall n, fold_left Nat.add l n = (n + sum_nat l)%nat.
Proof.
  unfold sum_nat.
  induction l as [|x l IH]; intros n; cbn; [lia|].
  rewrite IH, (IH x). lia.
Qed.

Lemma sum_nat_ext (A : Type) (f g : A -> nat) l :
  (forall x, In x l -> f x = g x) ->
  sum_nat (map f l) = sum_nat (map g l).
Proof.
  intros H. f_equal. apply map_ext_in. exact H.
Qed.

Lemma analyze_exists students0 school :
  (2 <= length students0)%nat ->
  exists a, analyze_student_clusters students0 school = Analysed a.
Proof.
  intros Hlen. unfold analyze_student_clusters.
  destruct (Nat.ltb_spec (length students0) 2); [lia|].
  repeat match goal with
         | |- context [if ?b then _ else _] => destruct b
         end; eexists; reflexivity.
Qed.

(** **** Strategy and recommended fleet (C5) *)


(** **** Clusters and isolated students partition the students *)

Lemma members_cons (A : Type) l labels k (x : A) xs :
  members (l :: labels) k (x :: xs)
  = if (l =? k)%Z then x :: members labels k xs else members labels k xs.
Proof. unfold members. cbn. now destruct (l =? k)%Z. Qed.

Lemma flat_map_members_skip (A : Type) l labels (x : A) xs ks :
  ~ In l ks ->
  flat_map (fun k => members (l :: labels) k (x :: xs)) ks
  = flat_map (fun k => members labels k xs) ks.
Proof.
  intros Hnot. apply flat_map_ext_in. intros k Hk.
  rewrite members_cons. destruct (Z.eqb_spec l k); [subst; contradiction|].
  reflexivity.
Qed.

Lemma flat_map_members_hit (A : Type) l labels (x : A) xs ks :
  NoDup ks -> In l ks ->
  Permutation (flat_map (fun k => members (l :: labels) k (x :: xs)) ks)
              (x :: flat_map (fun k => members labels k xs) ks).
Proof.
  induction 1 as [|k ks Hk Hks IH]; intros Hin; [contradiction|].
  cbn [flat_map]. rewrite members_cons.
  destruct (Z.eqb_spec l k) as [->|Hne].
  - rewrite flat_map_members_skip by assumption. reflexivity.
  - destruct Hin as [Hin|Hin]; [congruence|].
    rewrite (IH Hin). apply Permutation_sym, Permutation_middle.
Qed.

Lemma members_partition (A : Type) ks : forall labels (xs : list A),
  NoDup ks -> length xs = length labels ->
  (forall l, In l labels -> In l ks) ->
  Permutation (flat_map (fun k => members labels k xs) ks) xs.
Proof.
  intros labels xs Hks. revert labels.
  induction xs as [|x xs IH]; intros [|l labels] Hlen Hall;
    try discriminate.
  - unfold members. cbn. clear. induction ks; cbn; auto.
  - rewrite flat_map_members_hit; [|exact Hks|apply Hall; now left].
    constructor. apply IH; [now inversion Hlen|].
    intros l' Hl'. apply Hall. now right.
Qed.

Lemma clusters_partition students0 school a :
  analyze_student_clusters students0 school = Analysed a ->
  Permutation (flat_map cluster_students (cluster_info a)
               ++ isolated_students a) students0.
Proof.
  intros Ha.
  destruct (analyze_fields students0 school a Ha)
    as (_ & Hci & Hiso & _).
  rewrite Hci, Hiso, flat_map_concat_map, map_map.
  cbn [cluster_record cluster_students]. rewrite <- flat_map_concat_map.
  replace (members (labels_of students0) (-1)%Z students0)
    with (flat_map (fun k => members (labels_of students0) k students0)
                   [(-1)%Z]) by (cbn; now rewrite app_nil_r).
  rewrite <- flat_map_app.
  apply members_partition.
  - apply NoDup_app_remove_l with (l := []). cbn.
    assert (Hnd : NoDup (cluster_ids students0)).
    { unfold cluster_ids. apply NoDup_filter, sorted_NoDup, py_set_sorted. }
    assert (Hnot : ~ In (-1)%Z (cluster_ids students0)).
    { intros H. apply cluster_ids_in in H. tauto. }
    clear - Hnd Hnot. induction (cluster_ids students0) as [|k ks IH]; cbn.
    + repeat constructor. intros [].
    + inversion Hnd; subst. constructor.
      * rewrite in_app_iff. cbn. intros [H|[H|[]]]; [contradiction|].
        apply Hnot. now left.
      * apply IH; [assumption|]. intros H. apply Hnot. now right.
  - now rewrite labels_of_length.
  - intros l Hl. rewrite in_app_iff. cbn.
    destruct (Z.eq_dec l (-1)) as [->|Hne]; [now right; left|].
    left. apply cluster_ids_in. now split.
Qed.

Lemma append_student_perm cluster_info0 s : forall idx ci,
  append_student cluster_info0 idx s = Ok ci ->
  Permutation (flat_map cluster_students ci)
              (s :: flat_map cluster_students cluster_info0).
Proof.
  unfold append_student.
  induction cluster_info0 as [|c cs IH]; intros [|idx] ci; cbn;
    try discriminate.
  - intros H; inversion H; subst. cbn.
    rewrite <- app_assoc. cbn.
    apply Permutation_sym, Permutation_middle.
  - destruct (nth_error cs idx) as [c'|] eqn:E; [|discriminate].
    intros H; inversion H; subst. cbn.
    specialize (IH idx). rewrite E in IH. rewrite (IH _ eq_refl).
    apply Permutation_sym, Permutation_middle.
Qed.

Lemma assign_isolated_perm isolated0 : forall cluster_info0 ci,
  assign_isolated isolated0 cluster_info0 = Ok ci ->
  Permutation (flat_map cluster_students ci)
              (flat_map cluster_students cluster_info0 ++ isolated0).
Proof.
  induction isolated0 as [|s rest IH]; intros cluster_info0 ci; cbn.
  - intros H; inversion H; subst. now rewrite app_nil_r.
  - destruct (append_student _ _ _) as [ci1|] eqn:E; [|discriminate].
    intros H. rewrite (IH _ _ H), (append_student_perm _ _ _ _ E).
    apply Permutation_middle.
Qed.

(** A cluster whose solve left no route in the plan. *)
Definition unserved (school : School) (api_key : string) (c : ClusterInfo)
  : bool :=
  match served school api_key c with
  | [] => true
  | _ :: _ => false
  end.

(** **** Totals of a solve *)

(** [real_distance] and [real_time] of the extraction loop, read back from
    the route it built. *)
Definition real_distance (r : Route) : R :=
  sum_R (map distance (segments r)).

Definition real_time (r : Route) : R :=
  (sum_R (map time (segments r)) + INR (length (students r)) * 60)%R.

Lemma sum_R_from l : forall a, fold_left Rplus l a = (a + sum_R l)%R.
Proof.
  unfold sum_R. induction l as [|x l IH]; intros a; cbn; [lra|].
  rewrite IH, (IH (0 + x)%R). lra.
Qed.

Lemma sum_R_cons x l : sum_R (x :: l) = (x + sum_R l)%R.
Proof. unfold sum_R at 1. cbn. rewrite sum_R_from. lra. Qed.

Lemma fold_Rmax_spec l : forall m0,
  let m := fold_left Rmax l m0 in
  (m0 <= m)%R /\ (forall x, In x l -> (x <= m)%R) /\ (m = m0 \/ In m l).
Proof.
  induction l as [|x l IH]; intros m0; cbn.
  - repeat split; [lra|tauto|now left].
  - destruct (IH (Rmax m0 x)) as (H1 & H2 & H3).
    repeat split.
    + eapply Rle_trans; [apply Rmax_l|exact H1].
    + intros y [<-|Hy]; [|now apply H2].
      eapply Rle_trans; [apply Rmax_r|exact H1].
    + destruct H3 as [H3|H3]; [|now right; right].
      rewrite H3. unfold Rmax.
      destruct (Rle_dec m0 x); [right; now left|now left].
Qed.

Lemma extract_routes_totals school students0 D solution api_key vehicles :
  forall routes0 total0 max0,
    match extract_routes school students0 D solution api_key vehicles
                         (routes0, total0, max0) with
    | (Ok (routes1, total1, max1), _) =>
      exists new,
        routes1 = routes0 ++ new /\
        total1 = (total0 + sum_R (map real_distance new))%R /\
        max1 = fold_left Rmax (map real_time new) max0 /\
        (length new <= length vehicles)%nat
    | (Raise _, _) => True
    end.
Proof.
  induction vehicles as [|v vehicles IH]; intros routes0 total0 max0.
  - cbn. exists []. rewrite app_nil_r. cbn. repeat split; auto.
    unfold sum_R. cbn. lra.
  - cbn [extract_routes].
    destruct (follow school students0 D 0 (solution v) empty_tour)
      as [t|e] eqn:Ef; [|now rewrite bind_lift_raise].
    rewrite bind_lift_ok.
    destruct (route_students t) as [|s0 ss] eqn:Es.
    + specialize (IH routes0 total0 max0).
      destruct (extract_routes _ _ _ _ _ vehicles _)
        as [[[[routes1 total1] max1]|e] log]; [|exact I].
      destruct IH as (new & H1 & H2 & H3 & H4).
      exists new. repeat split; auto. cbn [length]. lia.
    + rewrite <- Es. rewrite enrich_all. unfold bind at 1.
      match goal with
      | |- context [extract_routes _ _ _ _ _ vehicles (?r, ?t', ?m')] =>
        specialize (IH r t' m');
        destruct (extract_routes school students0 D solution api_key
                                 vehicles (r, t', m'))
          as [[[[routes1 total1] max1]|e] log]; [|exact I]
      end.
      destruct IH as (new & H1 & H2 & H3 & H4).
      match type of H1 with
      | _ = (_ ++ [?route]) ++ _ => exists (route :: new)
      end.
      repeat split.
      * now rewrite H1, <- app_assoc.
      * rewrite H2. cbn [map]. rewrite sum_R_cons.
        unfold real_distance at 2. cbn [make_route segments]. lra.
      * rewrite H3. reflexivity.
      * cbn [length]. lia.
Qed.

Lemma solve_cvrp_sums school students0 num_vehicles api_key :
  match value (solve_cvrp school students0 num_vehicles api_key) with
  | Ok (Solved found total max_route_time buses) =>
    buses = length found /\ (buses <= num_vehicles)%nat /\
    total = sum_R (map real_distance found) /\
    (0 <= max_route_time)%R /\
    (forall r, In r found -> (real_time r <= max_route_time)%R) /\
    (max_route_time = 0%R \/
     exists r, In r found /\ max_route_time = real_time r)
  | _ => True
  end.
Proof.
  unfold solve_cvrp, value. destruct students0 as [|s0 ss]; [exact I|].
  set (students0 := s0 :: ss).
  destruct (search _ num_vehicles) as [solution|] eqn:Es; [|exact I].
  pose proof (extract_routes_totals school students0
                (build_distance_matrix_fast school students0)
                solution api_key (seq 0 num_vehicles) [] 0%R 0%R) as H.
  unfold bind.
  destruct (extract_routes _ _ _ _ _ _ _)
    as [[[[routes1 total1] max1]|e] log]; [|exact I].
  destruct H as (new & H1 & H2 & H3 & H4).
  cbn [ret app fst] in *. subst routes1.
  rewrite length_seq in H4.
  destruct (fold_Rmax_spec (map real_time new) 0%R) as (M1 & M2 & M3).
  rewrite <- H3 in M1, M2, M3.
  repeat split; auto.
  - rewrite H2. lra.
  - intros r Hr. apply M2. now apply in_map.
  - destruct M3 as [M3|M3]; [now left|right].
    apply in_map_iff in M3 as (r & Hr & Hin). now exists r.
Qed.

(** X6: The totals [solve_cvrp] reports are those of the routes it
    returns: [num_buses] counts the routes and is at most the number of vehicles
    asked for, [total_distance] is the sum of the distances of their
    segments, and [max_route_time] is the largest of their times, a time
    being that of the segments plus 60 s per student. *)
Theorem solve_cvrp_totals school students0 num_vehicles api_key :
  match value (solve_cvrp school students0 num_vehicles api_key) with
  | Ok (Solved found total max_route_time buses) =>
    buses = length found /\ (buses <= num_vehicles)%nat /\
    total = sum_R (map real_distance found) /\
    (0 <= max_route_time)%R /\
    (forall r, In r found -> (real_time r <= max_route_time)%R) /\
    (max_route_time = 0%R \/
     exists r, In r found /\ max_route_time = real_time r)
  | _ => True
  end.
Proof. apply solve_cvrp_sums. Qed.

(** **** The routing service not answering *)

(** X5: When the routing service answers no request, every segment of
    every route of a plan is the straight line between its two end points: the
    geometry holds these two points, the distance is the haversine distance
    and the time that of 30 km/h over it. *)
Theorem offline_segments school students0 max_buses api_key :
  (forall from to key, onemap from to key = None) ->
  match value (optimize_routes school students0 max_buses api_key) with
  | Ok plan =>
    Forall (fun r =>
              Forall (fun seg =>
                        geometry seg = [seg_from seg; seg_to seg] /\
                        distance seg
                        = point_distance (seg_from seg) (seg_to seg) /\
                        time seg = estimate_travel_time (distance seg))
                     (segments r))
           (routes plan)
  | Raise _ => True
  end.
Proof.
  intros Hoff. apply optimize_routes_routes. intros school0 students1 k.
  pose proof (solve_cvrp_facts school0 students1 k api_key) as H.
  unfold value.
  destruct (solve_cvrp school0 students1 k api_key)
    as [[[| |found total mt nb]|e] log]; cbn; auto.
  destruct H as (_ & _ & _ & _ & H & _).
  eapply Forall_impl; [|exact H].
  intros r (_ & _ & _ & _ & Hseg).
  eapply Forall_impl; [|exact Hseg].
  intros seg E. unfold adapter_answer in E. rewrite Hoff in E.
  inversion E as [[E1 E2 E3]]. repeat split. exact E1.
Qed.

(** **** What the analyzer reports about its clusters *)

Lemma sum_nat_cons x l : sum_nat (x :: l) = (x + sum_nat l)%nat.
Proof. unfold sum_nat at 1. cbn. now rewrite sum_nat_from. Qed.

Lemma length_flat_map_sum (A B : Type) (f : A -> list B) l :
  length (flat_map f l) = sum_nat (map (fun x => length (f x)) l).
Proof.
  induction l as [|x l IH]; [reflexivity|].
  cbn [flat_map map]. now rewrite length_app, sum_nat_cons, IH.
Qed.

Lemma members_map (A B : Type) (f : A -> B) k : forall labels xs,
  members labels k (map f xs) = map f (members labels k xs).
Proof.
  induction labels as [|l labels IH]; intros [|x xs]; try reflexivity.
  cbn [map]. rewrite !members_cons, IH.
  now destruct (l =? k)%Z.
Qed.

Lemma analyze_min_buses students0 school a :
  analyze_student_clusters students0 school = Analysed a ->
  min_buses a
  = (if (n_clusters a =? 0)%nat then recommended_buses a
     else if (n_clusters a =? 1)%nat then 1
     else if Rgtb (avg_cluster_distance a) 7 then recommended_buses a
     else 1)%nat.
Proof.
  unfold analyze_student_clusters.
  destruct (Nat.ltb_spec (length students0) 2) as [|Hlen]; [discriminate|].
  fold (labels_of students0). fold (cluster_ids students0).
  set (ci := map (cluster_record school students0
                    (map student_point students0) (labels_of students0))
                 (cluster_ids students0)).
  fold (centroid_distances ci).
  set (nc := (length (py_set (labels_of students0))
              - (if existsb (Z.eqb (-1)) (labels_of students0)
                 then 1 else 0))%nat).
  destruct (nc =? 0)%nat eqn:E0;
    [|destruct (nc =? 1)%nat eqn:E1;
      [|destruct (Rgtb _ 7) eqn:Eg]];
    intros H; inversion H; subst; clear H; cbn;
    fold nc; rewrite ?E0, ?E1, ?Eg; reflexivity.
Qed.

Lemma cluster_info_length students0 school a :
  analyze_student_clusters students0 school = Analysed a ->
  length (cluster_info a) = n_clusters a.
Proof.
  intros Ha.
  destruct (analyze_fields students0 school a Ha)
    as (_ & Hci & _ & Hnc & _).
  now rewrite Hci, length_map, cluster_ids_length, Hnc.
Qed.

Lemma cluster_sizes students0 school a :
  analyze_student_clusters students0 school = Analysed a ->
  Forall (fun c => cluster_id c <> (-1)%Z /\
                   size c = length (cluster_students c) /\
                   (1 <= size c)%nat)
         (cluster_info a).
Proof.
  intros Ha.
  destruct (analyze_fields students0 school a Ha) as (_ & Hci & _).
  rewrite Hci. apply Forall_forall. intros c Hin.
  apply in_map_iff in Hin as (k & <- & Hk).
  apply cluster_ids_in in Hk as [Hk Hne].
  cbn [cluster_record cluster_id size cluster_students].
  repeat split; [exact Hne|].
  rewrite members_length by (symmetry; apply labels_of_length).
  apply (count_occ_In Z.eq_dec) in Hk. lia.
Qed.

Lemma cluster_sizes_total students0 school a :
  analyze_student_clusters students0 school = Analysed a ->
  (sum_nat (map size (cluster_info a)) + n_noise a = length students0)%nat /\
  length (isolated_students a) = n_noise a.
Proof.
  intros Ha.
  pose proof (clusters_partition students0 school a Ha) as Hp.
  pose proof (cluster_sizes students0 school a Ha) as Hs.
  destruct (analyze_fields students0 school a Ha)
    as (_ & _ & Hiso & _ & Hnn & _).
  assert (Hn : length (isolated_students a) = n_noise a).
  { rewrite Hiso, members_length by (symmetry; apply labels_of_length).
    now rewrite Hnn. }
  split; [|exact Hn].
  apply Permutation_length in Hp.
  rewrite length_app, length_flat_map_sum, Hn in Hp. rewrite <- Hp.
  f_equal. apply sum_nat_ext. intros c Hc.
  rewrite Forall_forall in Hs. now destruct (Hs c Hc) as (_ & -> & _).
Qed.

(** X10: The analyzer splits the students between its clusters and the
    isolated ones: every student is in exactly one cluster or isolated.  It
    reports one entry per cluster, under distinct identifiers other than -1,
    each with at least one student and with its number of students as size,
    and [n_noise] counts the isolated students. *)
Theorem analysis_partition students0 school a :
  analyze_student_clusters students0 school = Analysed a ->
  Permutation (flat_map cluster_students (cluster_info a)
               ++ isolated_students a) students0 /\
  length (cluster_info a) = n_clusters a /\
  length (isolated_students a) = n_noise a /\
  NoDup (map cluster_id (cluster_info a)) /\
  Forall (fun c => cluster_id c <> (-1)%Z /\
                   size c = length (cluster_students c) /\
                   (1 <= size c)%nat)
         (cluster_info a) /\
  (sum_nat (map size (cluster_info a)) + n_noise a = length students0)%nat.
Proof.
  intros Ha.
  destruct (cluster_sizes_total students0 school a Ha) as [Hsum Hn].
  repeat split.
  - now apply clusters_partition with (school := school).
  - now apply cluster_info_length with (students0 := students0)
                                       (school := school).
  - exact Hn.
  - destruct (analyze_fields students0 school a Ha) as (_ & -> & _).
    rewrite map_map. unfold cluster_record. cbn [cluster_id].
    rewrite map_id. unfold cluster_ids.
    apply NoDup_filter, sorted_NoDup, py_set_sorted.
  - now apply cluster_sizes with (students0 := students0) (school := school).
  - exact Hsum.
Qed.

Lemma sum_fleet_bound l :
  (length l <= sum_nat (map (fun c => Nat.max 1 (ceil40 (size c))) l))%nat /\
  (sum_nat (map size l)
   <= 40 * sum_nat (map (fun c => Nat.max 1 (ceil40 (size c))) l))%nat.
Proof.
  induction l as [|c l [IH1 IH2]]; [cbn; lia|].
  cbn [map length]. rewrite !sum_nat_cons.
  pose proof (ceil40_bound (size c)). lia.
Qed.

Lemma fleet_carries students0 school a :
  analyze_student_clusters students0 school = Analysed a ->
  (1 <= recommended_buses a)%nat /\
  (length students0 <= 40 * recommended_buses a)%nat.
Proof.
  intros Ha.
  pose proof (cluster_info_length students0 school a Ha) as Hlen.
  destruct (cluster_sizes_total students0 school a Ha) as [Hsum _].
  destruct (analyze_fields students0 school a Ha)
    as (HN & _ & _ & _ & _ & _ & Hrec & _).
  destruct (sum_fleet_bound (cluster_info a)) as [B1 B2].
  pose proof (ceil40_bound (length students0)) as BN.
  pose proof (ceil40_bound (n_noise a)) as Bn.
  rewrite Hrec. clear Hrec.
  destruct (Nat.eqb_spec (n_clusters a) 0); [lia|].
  destruct (Nat.eqb_spec (n_clusters a) 1); [lia|].
  destruct (Rgtb (avg_cluster_distance a) 7); [|lia].
  destruct (Nat.ltb_spec 0 (n_noise a)); lia.
Qed.

(** X12: The recommended fleet can carry every student at 40 per bus, and
    [min_buses] lies between 1 and the recommendation. *)
Theorem recommended_fleet_carries students0 school a :
  analyze_student_clusters students0 school = Analysed a ->
  (1 <= min_buses a <= recommended_buses a)%nat /\
  (length students0 <= 40 * recommended_buses a)%nat.
Proof.
  intros Ha.
  pose proof (analyze_min_buses students0 school a Ha) as Hmin.
  destruct (fleet_carries students0 school a Ha) as [H1 H2].
  split; [|exact H2]. rewrite Hmin.
  destruct (n_clusters a =? 0)%nat; [lia|].
  destruct (n_clusters a =? 1)%nat; [lia|].
  destruct (Rgtb (avg_cluster_distance a) 7); lia.
Qed.

Lemma in_pairs_of (A : Type) (p q : A) : forall l,
  In p l -> In q l ->
  p = q \/ In (p, q) (pairs_of l) \/ In (q, p) (pairs_of l).
Proof.
  induction l as [|x t IH]; [contradiction|].
  cbn [pairs_of]. intros [->|Hp] [->|Hq].
  - now left.
  - right; left. apply in_or_app. left. now apply in_map.
  - right; right. apply in_or_app. left. now apply in_map.
  - destruct (IH Hp Hq) as [H|[H|H]]; [now left| |].
    + right; left. apply in_or_app. now right.
    + right; right. apply in_or_app. now right.
Qed.

Lemma pairs_of_in (A : Type) (p q : A) : forall l,
  In (p, q) (pairs_of l) -> In p l /\ In q l.
Proof.
  induction l as [|x t IH]; [contradiction|].
  cbn [pairs_of]. intros H. apply in_app_or in H as [H|H].
  - apply in_map_iff in H as (y & E & Hy). inversion E; subst.
    split; [now left|now right].
  - destruct (IH H). split; now right.
Qed.

Lemma fold_spread (A : Type) (d : A -> R) l : forall m0,
  fold_left (fun m x => Rmax m (d x)) l m0 = fold_left Rmax (map d l) m0.
Proof. induction l as [|x l IH]; intros m0; cbn; [reflexivity|apply IH]. Qed.

(** X11: For every cluster the analyzer reports, the center is the mean of
    the latitudes and of the longitudes of its students, the distance from the
    school is measured to that center, and the spread is the largest
    distance between two of its students: no two of them are farther
    apart, and it is 0 or the distance between two of them. *)
Theorem cluster_geometry students0 school a :
  analyze_student_clusters students0 school = Analysed a ->
  Forall (fun c =>
            center c = (mean (map latitude (cluster_students c)),
                        mean (map longitude (cluster_students c))) /\
            distance_from_school c
            = point_distance (school_point school) (center c) /\
            (forall s1 s2,
               In s1 (cluster_students c) -> In s2 (cluster_students c) ->
               (point_distance (student_point s1) (student_point s2)
                <= spread c)%R) /\
            (spread c = 0%R \/
             exists s1 s2,
               In s1 (cluster_students c) /\ In s2 (cluster_students c) /\
               spread c
               = point_distance (student_point s1) (student_point s2)))
         (cluster_info a).
Proof.
  intros Ha.
  destruct (analyze_fields students0 school a Ha) as (_ & -> & _).
  apply Forall_forall. intros c Hin.
  apply in_map_iff in Hin as (k & <- & _).
  cbn [cluster_record center distance_from_school spread cluster_students].
  rewrite members_map, !map_map. cbn [student_point fst snd].
  set (ms := members (labels_of students0) k students0).
  rewrite fold_spread.
  destruct (fold_Rmax_spec
              (map (fun pq : Point * Point =>
                      point_distance (fst pq) (snd pq))
                   (pairs_of (map student_point ms))) 0%R)
    as (M1 & M2 & M3).
  repeat split.
  - intros s1 s2 H1 H2.
    destruct (in_pairs_of _ (student_point s1) (student_point s2)
                (map student_point ms)) as [E|[E|E]];
      try now apply in_map.
    + rewrite E. unfold point_distance. rewrite haversine_self. exact M1.
    + apply M2. apply in_map_iff. now exists (student_point s1,
                                               student_point s2).
    + unfold point_distance. rewrite haversine_sym.
      apply M2. apply in_map_iff.
      now exists (student_point s2, student_point s1).
  - destruct M3 as [M3|M3]; [now left|right].
    apply in_map_iff in M3 as ([p q] & E & Hpq).
    apply pairs_of_in in Hpq as [Hp Hq].
    apply in_map_iff in Hp as (s1 & <- & H1).
    apply in_map_iff in Hq as (s2 & <- & H2).
    exists s1, s2. repeat split; auto.
Qed.

(** X13: The map payload of the analyzer draws one circle per cluster and
    one mark per isolated student; a circle carries the identifier, center and
    size of its cluster and has a radius of at least 500 m and of at least
    half the spread of the cluster. *)
Theorem visualization_payload students0 school a :
  analyze_student_clusters students0 school = Analysed a ->
  length (clusters (visualization a)) = n_clusters a /\
  length (isolated (visualization a)) = n_noise a /\
  map mark_name (isolated (visualization a))
  = map name (isolated_students a) /\
  Forall2 (fun c circle =>
             circle_id circle = cluster_id c /\
             circle_center circle = center c /\
             circle_size circle = length (cluster_students c) /\
             (500 <= radius circle)%R /\
             (spread c * 1000 / 2 <= radius circle)%R)
          (cluster_info a) (clusters (visualization a)).
Proof.
  intros Ha.
  pose proof (cluster_info_length students0 school a Ha) as Hlen.
  destruct (cluster_sizes_total students0 school a Ha) as [_ Hn].
  pose proof (cluster_sizes students0 school a Ha) as Hs.
  destruct (analyze_fields students0 school a Ha)
    as (_ & _ & _ & _ & _ & _ & _ & ->).
  cbn [clusters isolated]. rewrite !length_map, map_map.
  repeat split; auto.
  clear Hlen Hn Ha.
  induction Hs as [|c l (_ & Hsz & _) _ IH]; cbn [map]; constructor;
    [|exact IH].
  cbn [circle_of circle_id circle_center circle_size radius].
  repeat split; auto.
  - apply Rmax_l.
  - eapply Rle_trans; [|apply Rmax_r]. lra.
Qed.

(** **** Isolated students join the nearest cluster *)

(** The body of the inner loop of the assignment. *)
Definition nearest_step (iso_student : Student) (st : option R * nat)
    (ic : nat * ClusterInfo) : option R * nat :=
  let dist := point_distance (student_point iso_student) (center (snd ic)) in
  match fst st with
  | None => (Some dist, fst ic)
  | Some min_dist => if Rltb dist min_dist then (Some dist, fst ic) else st
  end.

(** The state of the loop after the clusters [seen]: the index is that of
    the first of the nearest centers among them. *)
Definition nearest_so_far (iso_student : Student) (seen : list ClusterInfo)
    (st : option R * nat) : Prop :=
  match fst st with
  | None => seen = []
  | Some min_dist =>
    exists c,
      nth_error seen (snd st) = Some c /\
      point_distance (student_point iso_student) (center c) = min_dist /\
      forall j cj,
        nth_error seen j = Some cj ->
        (min_dist <= point_distance (student_point iso_student) (center cj))%R
        /\ ((j < snd st)%nat ->
            (min_dist
             < point_distance (student_point iso_student) (center cj))%R)
  end.

Lemma nearest_step_keeps s seen c st :
  nearest_so_far s seen st ->
  nearest_so_far s (seen ++ [c]) (nearest_step s st (length seen, c)).
Proof.
  unfold nearest_so_far, nearest_step. cbn [fst snd].
  destruct st as [[m|] i]; cbn [fst snd].
  - intros (ci & Hi & Hd & Hall).
    assert (Hlt : (i < length seen)%nat)
      by (apply nth_error_Some; congruence).
    destruct (Rltb _ m) eqn:E; cbn [fst snd].
    + apply Rltb_spec in E.
      exists c. split; [|split; [reflexivity|]].
      * rewrite nth_error_app2, Nat.sub_diag by lia. reflexivity.
      * intros j cj Hj.
        destruct (Nat.lt_ge_cases j (length seen)) as [Hjl|Hjl].
        -- rewrite nth_error_app1 in Hj by exact Hjl.
           destruct (Hall j cj Hj) as [H1 _]. split; [lra|intros _; lra].
        -- rewrite nth_error_app2 in Hj by exact Hjl.
           destruct (j - length seen)%nat as [|[|k]] eqn:Ej;
             cbn in Hj; try discriminate.
           inversion Hj; subst. split; [lra|lia].
    + assert (Hge : (m <= point_distance (student_point s) (center c))%R).
      { destruct (Rle_dec m (point_distance (student_point s) (center c)))
          as [H|H]; [exact H|].
        assert (Rltb (point_distance (student_point s) (center c)) m = true)
          by (apply Rltb_spec; lra).
        congruence. }
      exists ci. split; [|split; [exact Hd|]].
      * now rewrite nth_error_app1.
      * intros j cj Hj.
        destruct (Nat.lt_ge_cases j (length seen)) as [Hjl|Hjl].
        -- rewrite nth_error_app1 in Hj by exact Hjl. now apply Hall.
        -- rewrite nth_error_app2 in Hj by exact Hjl.
           destruct (j - length seen)%nat as [|[|k]] eqn:Ej;
             cbn in Hj; try discriminate.
           inversion Hj; subst. split; [exact Hge|lia].
  - intros ->. cbn [app length].
    exists c. split; [reflexivity|split; [reflexivity|]].
    intros [|[|j]] cj Hj; cbn in Hj; try discriminate.
    inversion Hj; subst. split; [lra|lia].
Qed.

Lemma nearest_fold s rest : forall seen st,
  nearest_so_far s seen st ->
  nearest_so_far s (seen ++ rest)
    (fold_left (nearest_step s)
               (combine (seq (length seen) (length rest)) rest) st).
Proof.
  induction rest as [|c rest IH]; intros seen st Hst.
  - now rewrite app_nil_r.
  - cbn [length seq combine fold_left].
    specialize (IH (seen ++ [c]) _ (nearest_step_keeps s seen c st Hst)).
    rewrite length_app, Nat.add_1_r, <- app_assoc in IH. exact IH.
Qed.

Lemma nearest_cluster_fold s cluster_info0 :
  nearest_cluster s cluster_info0
  = snd (fold_left (nearest_step s)
                   (combine (seq 0 (length cluster_info0)) cluster_info0)
                   (None, 0%nat)).
Proof. reflexivity. Qed.

Lemma nearest_cluster_found s cluster_info0 :
  cluster_info0 <> [] ->
  exists c,
    nth_error cluster_info0 (nearest_cluster s cluster_info0) = Some c /\
    forall j cj,
      nth_error cluster_info0 j = Some cj ->
      (point_distance (student_point s) (center c)
       <= point_distance (student_point s) (center cj))%R /\
      ((j < nearest_cluster s cluster_info0)%nat ->
       (point_distance (student_point s) (center c)
        < point_distance (student_point s) (center cj))%R).
Proof.
  intros Hne. rewrite nearest_cluster_fold.
  pose proof (nearest_fold s cluster_info0 [] (None, 0%nat) eq_refl) as H.
  cbn [app length] in H. unfold nearest_so_far in H.
  destruct (fold_left _ _ _) as [[m|] i]; cbn [fst snd] in *;
    [|contradiction].
  destruct H as (c & Hi & Hd & Hall). exists c. split; [exact Hi|].
  rewrite Hd. exact Hall.
Qed.

(** X14: The cluster an isolated student is attached to is the one whose
    center is nearest to the student, the first of them in the order of the
    analyzer when several are as near; without any cluster the index is 0,
    which no list of clusters has. *)
Theorem nearest_cluster_nearest s cluster_info0 :
  (cluster_info0 <> [] ->
   exists c,
     nth_error cluster_info0 (nearest_cluster s cluster_info0) = Some c /\
     forall j cj,
       nth_error cluster_info0 j = Some cj ->
       (point_distance (student_point s) (center c)
        <= point_distance (student_point s) (center cj))%R /\
       ((j < nearest_cluster s cluster_info0)%nat ->
        (point_distance (student_point s) (center c)
         < point_distance (student_point s) (center cj))%R)) /\
  (cluster_info0 = [] ->
   nearest_cluster s cluster_info0 = 0%nat /\
   append_student cluster_info0 0 s = Raise IndexError).
Proof.
  split; [apply nearest_cluster_found|].
  intros ->. split; reflexivity.
Qed.

(** A cluster after students were attached to it: only the list of its
    students changed, at its end. *)
Definition grown (c c' : ClusterInfo) : Prop :=
  cluster_id c' = cluster_id c /\ size c' = size c /\
  center c' = center c /\
  distance_from_school c' = distance_from_school c /\
  spread c' = spread c /\
  exists added, cluster_students c' = cluster_students c ++ added.

Lemma grown_refl c : grown c c.
Proof.
  repeat split. exists []. now rewrite app_nil_r.
Qed.

Lemma grown_trans c1 c2 c3 : grown c1 c2 -> grown c2 c3 -> grown c1 c3.
Proof.
  intros (A1 & A2 & A3 & A4 & A5 & x & A6) (B1 & B2 & B3 & B4 & B5 & y & B6).
  repeat split; try congruence.
  exists (x ++ y). now rewrite B6, A6, app_assoc.
Qed.

Lemma Forall2_grown_refl l : Forall2 grown l l.
Proof. induction l; constructor; auto using grown_refl. Qed.

Lemma Forall2_grown_trans l1 : forall l2 l3,
  Forall2 grown l1 l2 -> Forall2 grown l2 l3 -> Forall2 grown l1 l3.
Proof.
  induction l1 as [|c l1 IH]; intros l2 l3 H12 H23;
    inversion H12; subst; inversion H23; subst; constructor.
  - eapply grown_trans; eassumption.
  - eapply IH; eassumption.
Qed.

Lemma append_student_grown s : forall cluster_info0 idx c,
  nth_error cluster_info0 idx = Some c ->
  exists ci,
    append_student cluster_info0 idx s = Ok ci /\
    Forall2 grown cluster_info0 ci.
Proof.
  intros cluster_info0 idx c Hc. unfold append_student. rewrite Hc.
  eexists. split; [reflexivity|].
  revert idx Hc.
  induction cluster_info0 as [|x l IH]; intros [|idx] Hc; cbn in Hc;
    try discriminate; cbn [set_nth]; constructor.
  - inversion Hc; subst. repeat split. now exists [s].
  - apply Forall2_grown_refl.
  - apply grown_refl.
  - now apply IH.
Qed.

Lemma assign_isolated_ok isolated0 : forall cluster_info0,
  cluster_info0 <> [] ->
  exists ci,
    assign_isolated isolated0 cluster_info0 = Ok ci /\
    Forall2 grown cluster_info0 ci.
Proof.
  induction isolated0 as [|s rest IH]; intros cluster_info0 Hne.
  - exists cluster_info0. split; [reflexivity|apply Forall2_grown_refl].
  - cbn [assign_isolated].
    destruct (nearest_cluster_found s cluster_info0 Hne) as (c & Hc & _).
    destruct (append_student_grown s _ _ _ Hc) as (ci1 & -> & Hg1).
    destruct (IH ci1) as (ci & Hci & Hg).
    { intros ->. inversion Hg1; subst. contradiction. }
    exists ci. split; [exact Hci|].
    eapply Forall2_grown_trans; eassumption.
Qed.

(** X15: With at least one cluster the assignment of the isolated
    students does not raise.  It keeps the clusters, their order, identifiers,
    centers and recorded sizes, and only appends students to their lists:
    afterwards the students of the clusters are those they had and the
    isolated ones, each in one cluster. *)
Theorem assign_isolated_grows isolated0 cluster_info0 :
  cluster_info0 <> [] ->
  exists ci,
    assign_isolated isolated0 cluster_info0 = Ok ci /\
    Forall2 grown cluster_info0 ci /\
    Permutation (flat_map cluster_students ci)
                (flat_map cluster_students cluster_info0 ++ isolated0).
Proof.
  intros Hne.
  destruct (assign_isolated_ok isolated0 cluster_info0 Hne)
    as (ci & Hci & Hg).
  exists ci. repeat split; auto. now apply assign_isolated_perm.
Qed.

(** **** The plan and its fleet *)

Lemma pick_best_candidate results viz :
  results <> [] ->
  exists c note,
    In c results /\ pick_best results viz = chosen_plan c note viz /\
    forall buses k avg, note <> Some (ClusterBased buses k avg).
Proof.
  destruct results as [|first others]; [contradiction|]. intros _.
  unfold pick_best.
  destruct (fastest_spec first others) as [Hf _].
  destruct (Rgtb _ 1800);
    [eexists _, _; split; [exact Hf|split; [reflexivity|discriminate]]|].
  destruct (find _ _) as [x|] eqn:E;
    [|eexists _, _; split; [exact Hf|split; [reflexivity|discriminate]]].
  apply find_some in E as [E _].
  exists x, (Some (OptimalBalance (num_buses x))).
  split; [|split; [reflexivity|discriminate]].
  eapply Permutation_in; [apply sorted_by_buses_perm|exact E].
Qed.

(** X19: In every plan [optimize_routes] returns, [total_buses] is the
    number of routes, and the plan carries an error exactly when it has no
    route; a plan without error has its time, distance and map payload. *)
Theorem plan_fleet school students0 max_buses api_key plan :
  value (optimize_routes school students0 max_buses api_key) = Ok plan ->
  total_buses plan = length (routes plan) /\
  (error plan = None <-> routes plan <> []) /\
  (error plan = None ->
   max_route_time_minutes plan <> None /\
   total_distance_km plan <> None /\
   cluster_visualization plan <> None).
Proof.
  intros Hv.
  pose proof (optimize_routes_shape school students0 max_buses api_key) as H.
  rewrite Hv in H.
  destruct H as [->|(school0 & a & _ & _ & [H|H])].
  - cbn. repeat split; try discriminate. intros H. now contradiction H.
  - destruct H as (ci & total & mt & _ & _ & Hne & ->). cbn.
    repeat split; try discriminate; auto.
  - destruct H as (results & Hrec & ->).
    destruct results as [|first others].
    + cbn. repeat split; try discriminate. intros H. now contradiction H.
    + destruct (pick_best_candidate (first :: others) (visualization a))
        as (c & note & Hc & -> & _); [discriminate|].
      rewrite Forall_forall in Hrec.
      destruct (Hrec c Hc) as (k & log & E & Hne).
      pose proof (solve_cvrp_facts school0 students0 k api_key) as Hf.
      rewrite E in Hf. destruct Hf as (_ & _ & _ & Hb & _).
      cbn. repeat split; try discriminate; auto.
Qed.

(** **** The fleet sizes of the sweep *)

Lemma fleet_sizes_seq max_buses recommended :
  fleet_sizes max_buses recommended
  = seq 1 (Nat.max 1 (Z.to_nat (Z.min max_buses (Z.of_nat recommended)))).
Proof.
  unfold fleet_sizes.
  destruct (Nat.ltb_spec 1 recommended) as [Hr|Hr].
  - destruct (Z_le_gt_dec (Z.min max_buses (Z.of_nat recommended)) 0)
      as [Hm|Hm].
    + replace (Z.to_nat (Z.min max_buses (Z.of_nat recommended) + 1 - 2))
        with 0%nat by lia.
      replace (Z.to_nat (Z.min max_buses (Z.of_nat recommended)))
        with 0%nat by lia.
      reflexivity.
    + replace (Nat.max 1 (Z.to_nat (Z.min max_buses (Z.of_nat recommended))))
        with (S (Z.to_nat (Z.min max_buses (Z.of_nat recommended) + 1 - 2)))
        by lia.
      reflexivity.
  - replace (Nat.max 1 (Z.to_nat (Z.min max_buses (Z.of_nat recommended))))
      with 1%nat by lia.
    reflexivity.
Qed.

(** X17: The sweep tries 1, 2, ... buses up to the smaller of [max_buses]
    and the recommendation, and one bus when that bound is below 1: every
    size it tries is at least 1 and at most the recommendation or 1. *)
Theorem fleet_sizes_range max_buses recommended :
  fleet_sizes max_buses recommended
  = seq 1 (Nat.max 1 (Z.to_nat (Z.min max_buses (Z.of_nat recommended))))
  /\
  forall k, In k (fleet_sizes max_buses recommended) ->
            (1 <= k <= Nat.max 1 recommended)%nat /\
            (Z.of_nat k <= Z.max 1 max_buses)%Z.
Proof.
  split; [apply fleet_sizes_seq|].
  intros k Hk. rewrite fleet_sizes_seq in Hk. apply in_seq in Hk. lia.
Qed.

(** The entries a fleet size adds to [results]. *)
Definition candidates (school : School) (students0 : list Student)
    (api_key : string) (num_vehicles : nat) : list Candidate :=
  match value (try_fleet school students0 num_vehicles api_key) with
  | Ok found => found
  | Raise _ => []
  end.

Lemma try_fleets_value school students0 api_key fleets : forall results0,
  value (try_fleets school students0 api_key fleets results0)
  = Ok (results0
        ++ flat_map (candidates school students0 api_key) fleets).
Proof.
  induction fleets as [|k fleets IH]; intros results0.
  - cbn. now rewrite app_nil_r.
  - cbn [try_fleets flat_map]. unfold candidates at 1.
    destruct (try_fleet_facts school students0 k api_key)
      as (found & E & _).
    rewrite E. cbn [value fst]. unfold bind.
    specialize (IH (results0 ++ found)). unfold value in IH.
    destruct (try_fleets school students0 api_key fleets (results0 ++ found))
      as [r log]. cbn [fst] in *. now rewrite IH, app_assoc.
Qed.

(** **** The legs of a tour *)

(** The point of a node of the routing model. *)
Definition node_point (school : School) (students0 : list Student)
    (node : nat) : Point :=
  match node with
  | O => school_point school
  | S k => match nth_error students0 k with
           | Some s => student_point s
           | None => school_point school
           end
  end.

(** The legs of a bus that leaves [from], picks up [riders] in order and
    returns to the school. *)
Fixpoint legs (school : School) (from : Point) (riders : list Student)
  : list RawSegment :=
  match riders with
  | [] =>
    [{| raw_from := from; raw_to := school_point school;
        raw_student := "Return to School" |}]
  | s :: riders' =>
    {| raw_from := from; raw_to := student_point s; raw_student := name s |}
    :: legs school (student_point s) riders'
  end.

Lemma legs_ends school riders : forall from,
  map raw_from (legs school from riders)
  = from :: map student_point riders /\
  map raw_to (legs school from riders)
  = map student_point riders ++ [school_point school] /\
  map raw_student (legs school from riders)
  = map name riders ++ ["Return to School"%string].
Proof.
  induction riders as [|s riders IH]; intros from; [now repeat split|].
  destruct (IH (student_point s)) as (H1 & H2 & H3).
  cbn [legs map app]. rewrite H1, H2, H3. now repeat split.
Qed.

Lemma follow_legs school students0 D path :
  square (S (length students0)) D ->
  forall node t,
    Forall (fun k => (1 <= k <= length students0)%nat) path ->
    (node <= length students0)%nat ->
    (node = 0%nat -> path <> []) ->
    exists t',
      follow school students0 D node path t = Ok t' /\
      route_students t' = route_students t ++ flat_map (pick students0) path
      /\ route_segments t'
         = route_segments t
           ++ legs school (node_point school students0 node)
                   (flat_map (pick students0) path).
Proof.
  intros Hsq.
  induction path as [|k path IH]; intros node t Hpath Hnode Hstart;
    cbn [follow hd flat_map].
  - rewrite app_nil_r. destruct node as [|node]; [now contradiction Hstart|].
    cbn [Nat.eqb andb negb]. unfold return_leg.
    destruct (Nat.ltb_spec 0 (S node)); [|lia].
    destruct (getitem_in_range _ students0 (S node - 1)) as (s & -> & Hs);
      [lia|].
    destruct (matrix_lookup_square _ D (S node) 0 Hsq) as (v & ->); try lia.
    eexists. split; [reflexivity|]. split; [reflexivity|].
    cbn [route_segments legs node_point].
    replace (S node - 1)%nat with node in Hs by lia. now rewrite Hs.
  - inversion Hpath as [|k' path' Hk Hrest]; subst.
    destruct (Nat.eqb_spec k 0); [lia|]. rewrite andb_false_r.
    cbn [negb]. unfold pickup_leg.
    destruct (getitem_in_range _ students0 (k - 1)) as (s & -> & Hs);
      [lia|].
    destruct (matrix_lookup_square _ D node k Hsq) as (v & ->); try lia.
    assert (Hfrom : (if (node =? 0)%nat then Ok (school_point school)
                     else match getitem students0 (node - 1) with
                          | Ok s1 => Ok (student_point s1)
                          | Raise e => Raise e
                          end)
                    = Ok (node_point school students0 node)).
    { destruct node as [|node]; [reflexivity|]. cbn [Nat.eqb].
      destruct (getitem_in_range _ students0 (S node - 1))
        as (s1 & -> & Hs1); [lia|].
      replace (S node - 1)%nat with node in Hs1 by lia.
      cbn [node_point]. now rewrite Hs1. }
    rewrite Hfrom.
    match goal with
    | |- context [follow school students0 D k path ?t1] =>
      destruct (IH k t1 Hrest) as (t' & Hf & Ht' & Hsegs);
        [lia|intros; lia|]
    end.
    assert (Hpick : pick students0 k = [s]) by (unfold pick; now rewrite Hs).
    assert (Hk' : node_point school students0 k = student_point s).
    { destruct k as [|k]; [lia|].
      replace (S k - 1)%nat with k in Hs by lia.
      cbn [node_point]. now rewrite Hs. }
    exists t'. split; [exact Hf|]. rewrite Ht', Hsegs, Hpick, Hk'.
    cbn [route_students route_segments app legs].
    now rewrite <- !app_assoc.
Qed.

Lemma extract_routes_tours school students0 D solution api_key vehicles :
  forall routes0 total0 max0,
    match extract_routes school students0 D solution api_key vehicles
                         (routes0, total0, max0) with
    | (Ok (routes1, _, _), _) =>
      exists new,
        routes1 = routes0 ++ new /\
        Forall (fun r =>
                  exists v t,
                    In v vehicles /\
                    follow school students0 D 0 (solution v) empty_tour
                    = Ok t /\
                    students r = route_students t /\
                    students r <> [] /\
                    segments r
                    = map (enrich_segment api_key) (route_segments t) /\
                    r = make_route (students r) (segments r)
                                   (real_distance r) (real_time r))
               new
    | (Raise _, _) => True
    end.
Proof.
  induction vehicles as [|v vehicles IH]; intros routes0 total0 max0.
  - cbn. exists []. rewrite app_nil_r. now split.
  - cbn [extract_routes].
    destruct (follow school students0 D 0 (solution v) empty_tour)
      as [t|e] eqn:Ef; [|now rewrite bind_lift_raise].
    rewrite bind_lift_ok.
    destruct (route_students t) as [|s0 ss] eqn:Es.
    + specialize (IH routes0 total0 max0).
      destruct (extract_routes _ _ _ _ _ vehicles _)
        as [[[[routes1 total1] max1]|e] log]; [|exact I].
      destruct IH as (new & H1 & H2).
      exists new. split; [exact H1|].
      eapply Forall_impl; [|exact H2].
      intros r (v' & t' & Hin & H). exists v', t'. split; [now right|exact H].
    + rewrite <- Es. rewrite enrich_all. unfold bind at 1.
      match goal with
      | |- context [extract_routes _ _ _ _ _ vehicles (?r, ?t', ?m')] =>
        specialize (IH r t' m');
        destruct (extract_routes school students0 D solution api_key
                                 vehicles (r, t', m'))
          as [[[[routes1 total1] max1]|e] log]; [|exact I]
      end.
      destruct IH as (new & H1 & H2).
      match type of H1 with
      | _ = (_ ++ [?route]) ++ _ => exists (route :: new)
      end.
      split; [now rewrite H1, <- app_assoc|].
      constructor.
      * exists v, t. unfold real_distance, real_time.
        cbn [make_route students segments].
        repeat split; auto; [now left|]. rewrite Es. discriminate.
      * eapply Forall_impl; [|exact H2].
        intros r (v' & t' & Hin & H). exists v', t'.
        split; [now right|exact H].
Qed.

Lemma enrich_segment_ends api_key raw :
  seg_from (enrich_segment api_key raw) = raw_from raw /\
  seg_to (enrich_segment api_key raw) = raw_to raw /\
  seg_student (enrich_segment api_key raw) = raw_student raw.
Proof.
  unfold enrich_segment. now destruct (adapter_answer _ _ _) as [[dk ts] g].
Qed.

(** X9: The figures of every route of a plan are those of its segments,
    rounded: the distance is the sum of the distances of the segments to
    the nearest hundredth of a kilometre, the time in seconds their times
    plus 60 s per student to the nearest second, the time in minutes that
    time to the nearest tenth of a minute, and the count is the number of
    students. *)
Theorem route_figures_rounded school students0 max_buses api_key :
  match value (optimize_routes school students0 max_buses api_key) with
  | Ok plan =>
    Forall (fun r =>
              student_count r = length (students r) /\
              (Rabs (distance_km r - real_distance r) <= 5 / 1000)%R /\
              (Rabs (IZR (time_seconds r) - real_time r) <= 1 / 2)%R /\
              (Rabs (time_minutes r - real_time r / 60) <= 5 / 100)%R)
           (routes plan)
  | Raise _ => True
  end.
Proof.
  apply optimize_routes_routes. intros school0 students1 k.
  unfold solve_cvrp, value. destruct students1 as [|s0 ss]; [exact I|].
  set (students1 := s0 :: ss).
  destruct (search _ k) as [solution|] eqn:Es; [|exact I].
  pose proof (extract_routes_tours school0 students1
                (build_distance_matrix_fast school0 students1)
                solution api_key (seq 0 k) [] 0%R 0%R) as H.
  unfold bind.
  destruct (extract_routes _ _ _ _ _ _ _)
    as [[[[routes1 total1] max1]|e] log]; [|exact I].
  destruct H as (new & H1 & H2).
  cbn [ret app fst] in *. subst routes1.
  eapply Forall_impl; [|exact H2].
  intros r (_ & _ & _ & _ & _ & _ & _ & Hr).
  pose proof (f_equal student_count Hr) as E0.
  pose proof (f_equal distance_km Hr) as E1.
  pose proof (f_equal time_seconds Hr) as E2.
  pose proof (f_equal time_minutes Hr) as E3.
  cbn [make_route student_count distance_km time_seconds time_minutes]
    in E0, E1, E2, E3.
  rewrite E0, E1, E2, E3.
  split; [reflexivity|].
  pose proof (py_round_to_near (real_distance r) 2) as B1.
  pose proof (py_round_near (real_time r)) as B2.
  pose proof (py_round_to_near (real_time r / 60) 1) as B3.
  repeat split; [| exact B2 |].
  - eapply Rle_trans; [exact B1|]. cbn [pow]. lra.
  - eapply Rle_trans; [exact B3|]. cbn [pow]. lra.
Qed.

(** The routes of a plan come from solves for the school of the call. *)
Lemma plan_routes_from (Q : School -> Route -> Prop) school students0
    max_buses api_key :
  (forall students1 k,
     match value (solve_cvrp school students1 k api_key) with
     | Ok (Solved found _ _ _) => Forall (Q school) found
     | _ => True
     end) ->
  match value (optimize_routes (Some school) students0 max_buses api_key)
  with
  | Ok plan => Forall (Q school) (routes plan)
  | Raise _ => True
  end.
Proof.
  intros HQ.
  pose proof (optimize_routes_shape (Some school) students0 max_buses
                                    api_key) as H.
  destruct (value (optimize_routes (Some school) students0 max_buses
                                   api_key)) as [plan|e]; [|exact I].
  destruct H as [->|(school0 & a & Hsch & _ & [H|H])]; [constructor| |];
    inversion Hsch; subst school0.
  - destruct H as (ci & total & mt & _ & _ & _ & ->).
    cbn [routes cluster_plan]. apply Forall_forall. intros r Hr.
    apply in_flat_map in Hr as (c & _ & Hr). unfold served in Hr.
    specialize (HQ (cluster_students c)
                   (Nat.max 1 (ceil40 (length (cluster_students c))))).
    destruct (value (solve_cvrp school (cluster_students c) _ api_key))
      as [[| |found total' mt' nb]|e]; try contradiction.
    rewrite Forall_forall in HQ. now apply HQ.
  - destruct H as (results & Hrec & ->).
    pose proof (pick_best_routes results (visualization a)) as Hp.
    destruct results as [|first others]; [destruct Hp as [-> _]; constructor|].
    destruct Hp as (_ & c & Hc & ->).
    rewrite Forall_forall in Hrec.
    destruct (Hrec c Hc) as (k & log & E & _).
    specialize (HQ students0 k). unfold value in HQ. now rewrite E in HQ.
Qed.

Lemma candidates_solved school students0 api_key k :
  candidates school students0 api_key k
  = match value (solve_cvrp school students0 k api_key) with
    | Ok (Solved (r :: rs) total max_route_time buses) =>
      [{| num_buses := buses; candidate_routes := r :: rs;
          max_time := max_route_time; candidate_distance := total |}]
    | _ => []
    end.
Proof.
  unfold candidates, try_fleet, value.
  now destruct (solve_cvrp school students0 k api_key)
    as [[[| |[|r rs] total mt nb]|e] log].
Qed.

Lemma pick_best_single c viz :
  (0 <= max_time c)%R ->
  pick_best [c] viz
  = chosen_plan c
      (Some (if Rgtb (max_time c) 1800
             then PrioritizingSpeed (num_buses c)
             else OptimalBalance (num_buses c)))
      viz.
Proof.
  intros Hc. unfold pick_best, min_time_of, fastest. cbn [fold_left].
  destruct (Rgtb (max_time c) 1800); [reflexivity|].
  cbn [sorted_by_buses fold_right insert_by_buses find].
  replace (Rleb (max_time c) (max_time c * (115 / 100))) with true;
    [reflexivity|].
  symmetry. apply Rleb_spec. lra.
Qed.

Lemma close_recommended students0 school a :
  analyze_student_clusters students0 school = Analysed a ->
  strategy a = CLOSE_OR_SINGLE ->
  recommended_buses a = ceil40 (length students0) /\
  (1 <= ceil40 (length students0))%nat.
Proof.
  intros Ha Hs.
  destruct (analyze_fields students0 school a Ha)
    as (HN & _ & _ & _ & _ & _ & Hrec & _).
  pose proof (ceil40_pos (length students0) ltac:(lia)) as Hpos.
  split; [|lia]. rewrite Hrec. unfold strategy in Hs.
  destruct (Nat.eqb_spec (n_clusters a) 0); [exact Hpos|].
  destruct (Nat.eqb_spec (n_clusters a) 1); [exact Hpos|].
  destruct (Rgtb (avg_cluster_distance a) 7); [|exact Hpos].
  destruct (Nat.ltb_spec 1 (n_clusters a)); [discriminate|lia].
Qed.

Lemma flat_map_nil (A B : Type) (f : A -> list B) l :
  (forall x, In x l -> f x = []) -> flat_map f l = [].
Proof.
  induction l as [|x l IH]; intros H; [reflexivity|].
  cbn [flat_map]. rewrite (H x) by now left.
  apply IH. intros y Hy. apply H. now right.
Qed.

Lemma flat_map_last_only (B : Type) (f : nat -> list B) K M :
  (1 <= K)%nat -> (M <= K)%nat ->
  (forall k, (1 <= k < K)%nat -> f k = []) ->
  flat_map f (seq 1 M) = if (M =? K)%nat then f K else [].
Proof.
  intros HK HM Hf. destruct (Nat.eqb_spec M K) as [->|Hne].
  - replace K with (S (K - 1)) at 1 by lia.
    rewrite seq_S, flat_map_app. cbn [flat_map].
    rewrite app_nil_r, flat_map_nil.
    + now replace (1 + (K - 1))%nat with K by lia.
    + intros k Hk. apply in_seq in Hk. apply Hf. lia.
  - apply flat_map_nil. intros k Hk. apply in_seq in Hk. apply Hf. lia.
Qed.

(** *** Properties that rest on the constraints of the routing model *)

Section Feasible.

(** A solution OR-Tools returns satisfies the model it was asked to solve:
    every student node is visited once and no vehicle takes more than 40
    of them. *)
Hypothesis search_feasible : forall D num_vehicles solution,
  search D num_vehicles = Some solution ->
  feasible (length D - 1) num_vehicles solution.

Lemma extract_routes_ok school students0 D solution api_key vehicles :
  (forall v, In v vehicles ->
             exists t, follow school students0 D 0 (solution v) empty_tour
                       = Ok t) ->
  forall acc, exists acc' log,
    extract_routes school students0 D solution api_key vehicles acc
    = (Ok acc', log).
Proof.
  induction vehicles as [|v vehicles IH]; intros Hok [[routes0 total0] max0].
  - now exists (routes0, total0, max0), [].
  - cbn [extract_routes].
    destruct (Hok v (or_introl eq_refl)) as (t & ->).
    rewrite bind_lift_ok.
    assert (Hok' : forall v', In v' vehicles ->
               exists t', follow school students0 D 0 (solution v')
                                 empty_tour = Ok t')
      by (intros v' Hv'; apply Hok; now right).
    destruct (route_students t) as [|s ss] eqn:Es.
    + apply IH, Hok'.
    + rewrite enrich_all. unfold bind.
      match goal with
      | |- context [extract_routes _ _ _ _ _ vehicles ?acc] =>
        destruct (IH Hok' acc) as (acc' & log & ->)
      end.
      now eexists _, _.
Qed.

Lemma solve_cvrp_feasible school students0 num_vehicles api_key :
  match solve_cvrp school students0 num_vehicles api_key with
  | (Raise _, _) => False
  | (Ok (Solved found _ _ _), _) =>
    Permutation (concat (map students found)) students0 /\
    Forall (fun r => (length (students r) <= 40)%nat) found /\
    found <> []
  | (Ok NoStudents, _) => students0 = []
  | (Ok NoSolution, _) =>
    search (build_distance_matrix_fast school students0) num_vehicles = None
  end.
Proof.
  pose proof (solve_cvrp_facts school students0 num_vehicles api_key) as H.
  pose proof (build_distance_matrix_square school students0) as Hsq.
  assert (Hfeas : forall solution,
             search (build_distance_matrix_fast school students0)
                    num_vehicles = Some solution ->
             feasible (length students0) num_vehicles solution).
  { intros solution Hs. apply search_feasible in Hs.
    destruct Hsq as [Hl _]. rewrite Hl in Hs.
    now rewrite Nat.sub_succ, Nat.sub_0_r in Hs. }
  destruct (solve_cvrp school students0 num_vehicles api_key)
    as [[[| |found total mt nb]|e] log] eqn:E; try tauto.
  - destruct H as (solution & Hs & Hne & _ & _ & _ & _ & Hc & Hcap).
    specialize (Hfeas solution Hs).
    assert (Hperm : Permutation (concat (map students found)) students0).
    { rewrite Hc.
      rewrite (flat_map_ext_in _ _ _
                 (fun v => flat_map (pick students0) (solution v))).
      - transitivity (flat_map (pick students0) (seq 1 (length students0)));
          [|now rewrite flat_map_pick_all].
        destruct Hfeas as [Hp _].
        rewrite flat_map_flat_map_concat.
        now apply Permutation_flat_map.
      - intros v Hv. apply in_seq in Hv.
        apply tour_students_feasible; [exact Hsq|].
        eapply feasible_paths; [eassumption|lia]. }
    repeat split; [exact Hperm| |].
    + eapply Forall_impl; [|exact Hcap].
      intros r (v & Hv & Hle). destruct Hfeas as [_ Hcap'].
      specialize (Hcap' v Hv). lia.
    + intros ->. cbn in Hperm. apply Permutation_nil in Hperm.
      contradiction.
  - unfold solve_cvrp in E. destruct students0 as [|s0 ss]; [discriminate|].
    set (students0 := s0 :: ss) in *.
    destruct (search _ num_vehicles) as [solution|] eqn:Es; [|discriminate].
    specialize (Hfeas solution eq_refl).
    destruct (extract_routes_ok school students0
                (build_distance_matrix_fast school students0) solution
                api_key (seq 0 num_vehicles)) with (acc := ([] : list Route, 0%R, 0%R))
      as (acc' & log' & Hex).
    { intros v Hv. apply in_seq in Hv.
      destruct (follow_feasible school students0
                  (build_distance_matrix_fast school students0)
                  (solution v) Hsq 0%nat empty_tour) as (t & Ht & _);
        [eapply feasible_paths; [eassumption|lia] | lia |].
      now exists t. }
    rewrite Hex in E. unfold bind in E.
    destruct acc' as [[r1 t1] m1]. discriminate.
Qed.

(** **** Capacity (C7) *)



(** **** Coverage (C2) *)

Lemma served_students school api_key c :
  served school api_key c = [] \/
  Permutation (concat (map students (served school api_key c)))
              (cluster_students c).
Proof.
  unfold served, value.
  pose proof (solve_cvrp_feasible school (cluster_students c)
                (Nat.max 1 (ceil40 (length (cluster_students c))))
                api_key) as H.
  destruct (solve_cvrp school (cluster_students c) _ api_key)
    as [[[| |found total mt nb]|e] log]; cbn [fst]; auto.
  right. now destruct H as (H & _).
Qed.

Lemma served_coverage school api_key ci :
  Permutation
    (concat (map students (flat_map (served school api_key) ci))
     ++ flat_map cluster_students (filter (unserved school api_key) ci))
    (flat_map cluster_students ci).
Proof.
  induction ci as [|c ci IH]; [constructor|].
  cbn [flat_map filter]. unfold unserved at 1.
  destruct (served_students school api_key c) as [Hs|Hs].
  - rewrite Hs. cbn [app flat_map].
    rewrite Permutation_app_comm, <- app_assoc.
    apply Permutation_app_head.
    rewrite Permutation_app_comm. exact IH.
  - destruct (served school api_key c) as [|r rs] eqn:Es.
    + cbn in Hs. apply Permutation_nil in Hs.
      cbn [app flat_map]. rewrite Hs. exact IH.
    + rewrite map_app, concat_app, <- app_assoc.
      apply Permutation_app; [exact Hs|exact IH].
Qed.

(** C2, as amended: in a successful plan no student is on two routes and
    every student on a route is an input student.  Every input student is
    on a route when the plan comes from the sweep, and in the FAR_APART
    branch when every per-cluster solve returned routes; the students of a
    cluster whose solve returned no route are on no route of the plan. *)
Theorem plan_coverage school students0 max_buses api_key plan :
  value (optimize_routes school students0 max_buses api_key) = Ok plan ->
  error plan = None ->
  exists dropped,
    Permutation (concat (map students (routes plan)) ++ dropped) students0 /\
    (NoDup (map id students0) ->
     NoDup (map id (concat (map students (routes plan))))) /\
    (dropped = [] \/
     exists school0 a ci,
       school = Some school0 /\
       analyze_student_clusters students0 school0 = Analysed a /\
       strategy a = FAR_APART /\
       assign_isolated (isolated_students a) (cluster_info a) = Ok ci /\
       routes plan = flat_map (served school0 api_key) ci /\
       dropped = flat_map cluster_students
                          (filter (unserved school0 api_key) ci)).
Proof.
  intros Hv Herr.
  pose proof (optimize_routes_shape school students0 max_buses api_key) as H.
  rewrite Hv in H.
  assert (Hmain : exists dropped,
             Permutation (concat (map students (routes plan)) ++ dropped)
                         students0 /\
             (dropped = [] \/
              exists school0 a ci,
                school = Some school0 /\
                analyze_student_clusters students0 school0 = Analysed a /\
                strategy a = FAR_APART /\
                assign_isolated (isolated_students a) (cluster_info a)
                = Ok ci /\
                routes plan = flat_map (served school0 api_key) ci /\
                dropped = flat_map cluster_students
                            (filter (unserved school0 api_key) ci))).
  { destruct H as [->|(school0 & a & Hsch & Ha & [H|H])];
      [discriminate| |].
    - destruct H as (ci & total & mt & Hs & Hci & Hne & ->).
      exists (flat_map cluster_students
                (filter (unserved school0 api_key) ci)).
      split.
      + cbn [routes cluster_plan].
        rewrite served_coverage, (assign_isolated_perm _ _ _ Hci).
        now apply clusters_partition with (school := school0).
      + right. exists school0, a, ci. now repeat split.
    - destruct H as (results & Hrec & ->).
      pose proof (pick_best_routes results (visualization a)) as Hp.
      destruct results as [|first others];
        [destruct Hp as [_ Hp]; contradiction|].
      destruct Hp as (_ & c & Hc & Hr).
      exists []. split; [|now left]. rewrite app_nil_r, Hr.
      rewrite Forall_forall in Hrec.
      destruct (Hrec c Hc) as (k & log & E & _).
      pose proof (solve_cvrp_feasible school0 students0 k api_key) as Hf.
      rewrite E in Hf. now destruct Hf as (Hf & _). }
  destruct Hmain as (dropped & Hperm & Hdrop).
  exists dropped. repeat split; [exact Hperm| |exact Hdrop].
  intros Hnd.
  apply (Permutation_map id) in Hperm. apply Permutation_sym in Hperm.
  apply (Permutation_NoDup Hperm) in Hnd.
  rewrite map_app in Hnd. now apply NoDup_app_remove_r in Hnd.
Qed.


(** **** Runs that succeed *)

Lemma route_clusters_ok school api_key ci : forall acc,
  exists routes1 total1 max1 log,
    route_clusters school api_key ci acc
    = (Ok (routes1, total1, max1), log).
Proof.
  induction ci as [|c ci IH]; intros [[routes0 total0] max0].
  - now exists routes0, total0, max0, [].
  - cbn [route_clusters].
    pose proof (solve_cvrp_feasible school (cluster_students c)
                  (Nat.max 1 (ceil40 (length (cluster_students c))))
                  api_key) as H.
    destruct (solve_cvrp school (cluster_students c) _ api_key)
      as [[res|e] log]; [|contradiction].
    unfold bind.
    match goal with
    | |- context [route_clusters school api_key ci ?acc] =>
      destruct (IH acc) as (r1 & t1 & m1 & log1 & ->)
    end.
    now exists r1, t1, m1, (log ++ log1).
Qed.

Lemma try_fleets_first school students0 api_key k fleets solution :
  search (build_distance_matrix_fast school students0) k = Some solution ->
  students0 <> [] ->
  exists results,
    value (try_fleets school students0 api_key (k :: fleets) [])
    = Ok results /\ results <> [].
Proof.
  intros Hs Hne. cbn [try_fleets].
  pose proof (solve_cvrp_feasible school students0 k api_key) as H.
  pose proof (solve_cvrp_facts school students0 k api_key) as H'.
  unfold try_fleet.
  destruct (solve_cvrp school students0 k api_key)
    as [[[| |found total mt nb]|e] log]; try contradiction; try congruence.
  destruct H as (_ & _ & Hfound).
  destruct found as [|r rs]; [contradiction|].
  unfold bind.
  match goal with
  | |- context [try_fleets school students0 api_key fleets ([] ++ [?c])] =>
    destruct (try_fleets_facts school students0 api_key fleets ([] ++ [c]))
      as (new & -> & _)
  end.
  eexists. split; [reflexivity|]. discriminate.
Qed.

Lemma route_clusters_served school api_key ci :
  exists total mt log,
    route_clusters school api_key ci ([], 0%R, 0%R)
    = (Ok (flat_map (served school api_key) ci, total, mt), log).
Proof.
  destruct (route_clusters_ok school api_key ci ([], 0%R, 0%R))
    as (r1 & t1 & m1 & log & E).
  pose proof (route_clusters_facts school api_key ci [] 0%R 0%R) as H.
  rewrite E in H. destruct H as [-> _].
  now exists t1, m1, log.
Qed.

(** The cluster-based branch returns its plan as soon as one cluster has a
    route. *)
Lemma far_apart_plan school students0 max_buses api_key a ci :
  analyze_student_clusters students0 school = Analysed a ->
  strategy a = FAR_APART ->
  assign_isolated (isolated_students a) (cluster_info a) = Ok ci ->
  flat_map (served school api_key) ci <> [] ->
  exists total mt,
    value (optimize_routes (Some school) students0 max_buses api_key)
    = Ok (cluster_plan a (flat_map (served school api_key) ci) total mt).
Proof.
  intros Ha Hs Hci Hne.
  destruct (route_clusters_served school api_key ci) as (total & mt & log & E).
  pose proof (optimize_routes_far school students0 max_buses api_key a ci
                Ha Hs Hci) as H.
  rewrite E in H.
  destruct (flat_map (served school api_key) ci) as [|r rs];
    [contradiction|].
  exists total, mt. now rewrite H.
Qed.

Lemma solve_cvrp_found school students0 num_vehicles api_key solution :
  search (build_distance_matrix_fast school students0) num_vehicles
  = Some solution ->
  students0 <> [] ->
  exists found total mt nb log,
    solve_cvrp school students0 num_vehicles api_key
    = (Ok (Solved found total mt nb), log) /\
    Permutation (concat (map students found)) students0 /\
    found <> [].
Proof.
  intros Hs Hne.
  pose proof (solve_cvrp_feasible school students0 num_vehicles api_key) as H.
  destruct (solve_cvrp school students0 num_vehicles api_key)
    as [[[| |found total mt nb]|e] log]; try contradiction; try congruence.
  destruct H as (Hp & _ & Hf). now exists found, total, mt, nb, log.
Qed.

Lemma served_found school api_key c solution :
  search (build_distance_matrix_fast school (cluster_students c))
         (cluster_fleet c) = Some solution ->
  cluster_students c <> [] ->
  served school api_key c <> [] /\
  Permutation (concat (map students (served school api_key c)))
              (cluster_students c).
Proof.
  intros Hs Hne. unfold served, value.
  destruct (solve_cvrp_found school (cluster_students c) (cluster_fleet c)
              api_key solution Hs Hne)
    as (found & total & mt & nb & log & E & Hp & Hf).
  unfold cluster_fleet in E. rewrite E. now split.
Qed.

(** **** The itinerary of a route *)

Lemma search_feasible_students school students0 k solution :
  search (build_distance_matrix_fast school students0) k = Some solution ->
  feasible (length students0) k solution.
Proof.
  intros Hs. apply search_feasible in Hs.
  destruct (build_distance_matrix_square school students0) as [Hl _].
  rewrite Hl in Hs. now rewrite Nat.sub_succ, Nat.sub_0_r in Hs.
Qed.

Lemma solve_cvrp_itinerary school students0 k api_key :
  match value (solve_cvrp school students0 k api_key) with
  | Ok (Solved found _ _ _) =>
    Forall (fun r =>
              map seg_from (segments r)
              = school_point school :: map student_point (students r) /\
              map seg_to (segments r)
              = map student_point (students r) ++ [school_point school] /\
              map seg_student (segments r)
              = map name (students r) ++ ["Return to School"%string])
           found
  | _ => True
  end.
Proof.
  unfold solve_cvrp, value. destruct students0 as [|s0 ss]; [exact I|].
  set (students0 := s0 :: ss).
  destruct (search _ k) as [solution|] eqn:Es; [|exact I].
  pose proof (search_feasible_students school students0 k solution Es)
    as Hfeas.
  pose proof (build_distance_matrix_square school students0) as Hsq.
  pose proof (extract_routes_tours school students0
                (build_distance_matrix_fast school students0)
                solution api_key (seq 0 k) [] 0%R 0%R) as H.
  unfold bind.
  destruct (extract_routes _ _ _ _ _ _ _)
    as [[[[routes1 total1] max1]|e] log]; [|exact I].
  destruct H as (new & H1 & H2).
  cbn [ret app fst] in *. subst routes1.
  eapply Forall_impl; [|exact H2].
  intros r (v & t & Hv & Hf & Hst & Hne & Hseg & _).
  apply in_seq in Hv.
  assert (Hpath : Forall (fun n => (1 <= n <= length students0)%nat)
                         (solution v))
    by (eapply feasible_paths; [eassumption|lia]).
  destruct (follow_legs school students0 _ (solution v) Hsq 0%nat
              empty_tour Hpath (Nat.le_0_l _)) as (t' & Hf' & Ht' & Hsegs).
  { intros _ E. rewrite E in Hf. cbn in Hf. inversion Hf; subst t.
    now apply Hne. }
  rewrite Hf in Hf'. inversion Hf'; subst t'.
  cbn [empty_tour route_students route_segments app node_point] in Ht', Hsegs.
  rewrite Hseg, Hst, Hsegs, Ht', !map_map.
  destruct (legs_ends school (flat_map (pick students0) (solution v))
                      (school_point school)) as (L1 & L2 & L3).
  rewrite <- L1, <- L2, <- L3.
  repeat split; apply map_ext; intros raw; apply enrich_segment_ends.
Qed.

(** X8: with a search whose solutions are feasible, every route of a plan
    starts and ends at the school and visits its students in the order it
    lists them: its segments go from the school
    to the first student, from each student to the next and from the last
    student to the school, the last one under the label "Return to
    School", the others under the name of the student they reach. *)
Theorem route_itinerary school students0 max_buses api_key :
  match value (optimize_routes (Some school) students0 max_buses api_key)
  with
  | Ok plan =>
    Forall (fun r =>
              map seg_from (segments r)
              = school_point school :: map student_point (students r) /\
              map seg_to (segments r)
              = map student_point (students r) ++ [school_point school] /\
              map seg_student (segments r)
              = map name (students r) ++ ["Return to School"%string])
           (routes plan)
  | Raise _ => True
  end.
Proof.
  apply (plan_routes_from
           (fun school r =>
              map seg_from (segments r)
              = school_point school :: map student_point (students r) /\
              map seg_to (segments r)
              = map student_point (students r) ++ [school_point school] /\
              map seg_student (segments r)
              = map name (students r) ++ ["Return to School"%string])).
  intros students1 k. apply solve_cvrp_itinerary.
Qed.

Lemma length_route_calls (found : list Route) :
  Forall (fun r => length (segments r) = S (length (students r))) found ->
  length (flat_map route_calls found)
  = (length (concat (map students found)) + length found)%nat.
Proof.
  induction 1 as [|r found Hr _ IH]; [reflexivity|].
  cbn [flat_map map concat length]. rewrite !length_app, IH.
  unfold route_calls. rewrite length_map, Hr. lia.
Qed.

Lemma length_concat_capacity (found : list Route) :
  Forall (fun r => (length (students r) <= 40)%nat) found ->
  (length (concat (map students found)) <= 40 * length found)%nat.
Proof.
  induction 1 as [|r found Hr _ IH]; [cbn; lia|].
  cbn [map concat length]. rewrite length_app. lia.
Qed.

(** The number of routes of a solve lies between the least number of
    buses that carries the students and the number of vehicles. *)
Lemma solve_cvrp_fleet school students0 num_vehicles api_key :
  match value (solve_cvrp school students0 num_vehicles api_key) with
  | Ok (Solved found _ _ buses) =>
    buses = length found /\
    (ceil40 (length students0) <= length found <= num_vehicles)%nat
  | _ => True
  end.
Proof.
  pose proof (solve_cvrp_feasible school students0 num_vehicles api_key) as H.
  pose proof (solve_cvrp_sums school students0 num_vehicles api_key) as H'.
  unfold value in *.
  destruct (solve_cvrp school students0 num_vehicles api_key)
    as [[[| |found total mt nb]|e] log]; cbn [fst] in *; auto.
  destruct H as (Hp & Hcap & _). destruct H' as (Hnb & Hle & _).
  apply length_concat_capacity in Hcap.
  rewrite (Permutation_length Hp) in Hcap.
  pose proof (ceil40_bound (length students0)). split; [exact Hnb|]. lia.
Qed.

(** X7: with a search whose solutions are feasible, a solve does not
    raise.  When the search finds a solution, every
    student is on exactly one of the returned routes, no route is empty or
    holds more than 40 students, there are at least as many routes as 40
    seats per bus require and at most as many as vehicles, and the routing
    service is asked once per student and once more per route; otherwise
    no request is sent. *)
Theorem solve_cvrp_serves school students0 num_vehicles api_key :
  match solve_cvrp school students0 num_vehicles api_key with
  | (Raise _, _) => False
  | (Ok (Solved found _ _ _), log) =>
    Permutation (concat (map students found)) students0 /\
    found <> [] /\
    Forall (fun r => (1 <= length (students r) <= 40)%nat) found /\
    (ceil40 (length students0) <= length found <= num_vehicles)%nat /\
    length log = (length students0 + length found)%nat
  | (Ok NoStudents, log) => students0 = [] /\ log = []
  | (Ok NoSolution, log) =>
    search (build_distance_matrix_fast school students0) num_vehicles = None
    /\ log = []
  end.
Proof.
  pose proof (solve_cvrp_feasible school students0 num_vehicles api_key) as H.
  pose proof (solve_cvrp_facts school students0 num_vehicles api_key) as H'.
  pose proof (solve_cvrp_itinerary school students0 num_vehicles api_key)
    as Hi.
  pose proof (solve_cvrp_fleet school students0 num_vehicles api_key) as Hk.
  unfold value in Hi, Hk.
  destruct (solve_cvrp school students0 num_vehicles api_key)
    as [[[| |found total mt nb]|e] log]; auto.
  cbn [fst] in Hi, Hk.
  destruct H as (Hp & Hcap & Hne).
  destruct H' as (_ & _ & _ & _ & Henr & Hlog & _).
  destruct Hk as (_ & Hk1 & Hk2).
  repeat split; auto.
  - apply Forall_forall. intros r Hr. rewrite Forall_forall in Hcap, Henr.
    specialize (Hcap r Hr). destruct (Henr r Hr) as (Hs & _).
    destruct (students r); [contradiction|cbn [length] in *; lia].
  - rewrite Hlog, length_route_calls.
    + now rewrite (Permutation_length Hp).
    + eapply Forall_impl; [|exact Hi]. intros r (_ & Hto & _).
      apply (f_equal (@length Point)) in Hto.
      rewrite length_app, !length_map in Hto. cbn [length] in Hto. lia.
Qed.

(** **** When [optimize_routes] raises *)

Lemma far_apart_clusters students0 school a :
  analyze_student_clusters students0 school = Analysed a ->
  strategy a = FAR_APART -> cluster_info a <> [].
Proof.
  intros Ha Hs E.
  pose proof (cluster_info_length students0 school a Ha) as Hl.
  rewrite E in Hl. cbn in Hl. unfold strategy in Hs. rewrite <- Hl in Hs.
  cbn in Hs. now rewrite andb_false_r in Hs.
Qed.

Lemma pick_best_visualization results viz :
  cluster_visualization (pick_best results viz) = Some viz.
Proof.
  unfold pick_best. destruct results as [|first others]; [reflexivity|].
  destruct (Rgtb _ 1800); [reflexivity|]. now destruct (find _ _).
Qed.

Lemma optimize_routes_outcome school students0 max_buses api_key :
  match value (optimize_routes school students0 max_buses api_key) with
  | Raise e => e = KeyError /\ school <> None /\ length students0 = 1%nat
  | Ok plan =>
    (plan = not_set_plan /\ (school = None \/ students0 = [])) \/
    (school <> None /\ (2 <= length students0)%nat /\
     cluster_visualization plan <> None)
  end.
Proof.
  destruct school as [school|]; [|cbn; left; split; [reflexivity|now left]].
  destruct students0 as [|s0 [|s1 ss]];
    [cbn; left; split; [reflexivity|now right]| |].
  - cbn. repeat split. discriminate.
  - set (students0 := s0 :: s1 :: ss).
    assert (Hlen : (2 <= length students0)%nat) by (cbn; lia).
    destruct (analyze_exists students0 school Hlen) as (a & Ha).
    destruct (strategy a) eqn:Hs.
    + destruct (assign_isolated_ok (isolated_students a) (cluster_info a))
        as (ci & Hci & _).
      { now apply far_apart_clusters with (students0 := students0)
                                          (school := school). }
      pose proof (optimize_routes_far school students0 max_buses api_key a
                    ci Ha Hs Hci) as H.
      destruct (route_clusters_ok school api_key ci ([], 0%R, 0%R))
        as (r1 & t1 & m1 & log & E).
      rewrite E in H. destruct r1 as [|r rs]; rewrite H; cbn [value fst].
      * destruct (sweep_facts school students0 max_buses
                    (recommended_buses a) (visualization a) api_key)
          as (results & _ & -> & _).
        cbn [value fst]. right. rewrite pick_best_visualization.
        repeat split; auto; discriminate.
      * right. cbn [cluster_plan cluster_visualization].
        repeat split; auto; discriminate.
    + rewrite (optimize_routes_close school students0 max_buses api_key a
                 Ha Hs).
      destruct (sweep_facts school students0 max_buses
                  (recommended_buses a) (visualization a) api_key)
        as (results & _ & -> & _).
      cbn [value fst]. right. rewrite pick_best_visualization.
      repeat split; auto; discriminate.
Qed.

(** X20: with a search whose solutions are feasible, [optimize_routes]
    raises only on a school with exactly one student, and then [KeyError].
    On any other input it returns a plan: the plan with the error "School
    location or students not set" when the school or the students are
    missing, and otherwise, with at least two students, a plan that carries
    the map payload of the analyzer. *)
Theorem optimize_routes_raises school students0 max_buses api_key :
  match value (optimize_routes school students0 max_buses api_key) with
  | Raise e => e = KeyError /\ school <> None /\ length students0 = 1%nat
  | Ok plan =>
    (plan = not_set_plan /\ (school = None \/ students0 = [])) \/
    (school <> None /\ (2 <= length students0)%nat /\
     cluster_visualization plan <> None)
  end.
Proof. apply optimize_routes_outcome. Qed.

(** **** The sweep when the clusters are not far apart *)

Lemma feasible_capacity n k solution :
  feasible n k solution -> (n <= 40 * k)%nat.
Proof.
  intros [Hp Hcap]. apply Permutation_length in Hp.
  rewrite length_seq in Hp. rewrite <- Hp.
  assert (H : forall l, (forall v, In v l -> (v < k)%nat) ->
                        (length (concat (map solution l))
                         <= 40 * length l)%nat).
  { induction l as [|v l IH]; intros Hl; [cbn; lia|].
    cbn [map concat length]. rewrite length_app.
    specialize (Hcap v (Hl v (or_introl eq_refl))).
    specialize (IH (fun w Hw => Hl w (or_intror Hw))). lia. }
  specialize (H (seq 0 k)). rewrite length_seq in H. apply H.
  intros v Hv. apply in_seq in Hv. lia.
Qed.

Lemma candidates_none school students0 api_key k :
  (40 * k < length students0)%nat ->
  candidates school students0 api_key k = [].
Proof.
  intros Hk. rewrite candidates_solved.
  pose proof (solve_cvrp_facts school students0 k api_key) as H.
  unfold value.
  destruct (solve_cvrp school students0 k api_key)
    as [[[| |[|r rs] total mt nb]|e] log]; try reflexivity.
  destruct H as (solution & Hs & _).
  apply search_feasible_students, feasible_capacity in Hs. lia.
Qed.

Lemma close_sweep_plan school students0 max_buses api_key a :
  analyze_student_clusters students0 school = Analysed a ->
  strategy a = CLOSE_OR_SINGLE ->
  value (optimize_routes (Some school) students0 max_buses api_key)
  = Ok (if (Z.of_nat (ceil40 (length students0)) <=? Z.max 1 max_buses)%Z
        then
          match value (solve_cvrp school students0
                         (ceil40 (length students0)) api_key) with
          | Ok (Solved found total max_route_time buses) =>
            chosen_plan
              {| num_buses := buses; candidate_routes := found;
                 max_time := max_route_time; candidate_distance := total |}
              (Some (if Rgtb max_route_time 1800
                     then PrioritizingSpeed buses
                     else OptimalBalance buses))
              (visualization a)
          | _ => pick_best [] (visualization a)
          end
        else pick_best [] (visualization a)).
Proof.
  intros Ha Hs.
  destruct (close_recommended students0 school a Ha Hs) as [Hrec HK].
  pose proof (ceil40_bound (length students0)) as B.
  remember (ceil40 (length students0)) as K eqn:EK.
  rewrite (optimize_routes_close school students0 max_buses api_key a Ha Hs).
  destruct (sweep_facts school students0 max_buses (recommended_buses a)
              (visualization a) api_key) as (results & Hres & -> & _).
  cbn [value fst]. f_equal.
  rewrite try_fleets_value in Hres.
  assert (Hr : results
               = flat_map (candidates school students0 api_key)
                          (fleet_sizes max_buses (recommended_buses a)))
    by (cbn [app] in Hres; congruence).
  rewrite Hr, fleet_sizes_seq, Hrec.
  rewrite (flat_map_last_only _ (candidates school students0 api_key) K);
    [|exact HK|lia|].
  2:{ intros k Hk. apply candidates_none. nia. }
  destruct (Z.leb_spec (Z.of_nat K) (Z.max 1 max_buses)) as [Hm|Hm].
  - replace (Nat.max 1 (Z.to_nat (Z.min max_buses (Z.of_nat K))) =? K)%nat
      with true by (symmetry; apply Nat.eqb_eq; lia).
    rewrite candidates_solved.
    pose proof (solve_cvrp_feasible school students0 K api_key) as Hf.
    pose proof (solve_cvrp_facts school students0 K api_key) as Hf'.
    unfold value.
    destruct (solve_cvrp school students0 K api_key)
      as [[[| |found total mt nb]|e] log]; cbn [fst]; try reflexivity.
    destruct Hf as (_ & _ & Hne).
    destruct Hf' as (_ & _ & _ & _ & _ & _ & Hmt & _).
    destruct found as [|r rs]; [contradiction|].
    now rewrite pick_best_single.
  - replace (Nat.max 1 (Z.to_nat (Z.min max_buses (Z.of_nat K))) =? K)%nat
      with false by (symmetry; apply Nat.eqb_neq; lia).
    reflexivity.
Qed.

(** X18: with a search whose solutions are feasible and clusters that are
    not far apart, only a fleet of ceil(N / 40) buses can carry the N
    students, so that the sweep records at most one
    candidate.  The plan is the solve with that many buses when
    [max(1, max_buses)] allows them and the search finds a solution, under
    the note "prioritizing speed" when its longest route takes more than
    1800 s and "optimal balance" otherwise; in every other case it is the
    plan with the error "Could not create routes".  A plan without error
    therefore uses exactly ceil(N / 40) buses. *)
Theorem close_sweep_single_fleet school students0 max_buses api_key a :
  analyze_student_clusters students0 school = Analysed a ->
  strategy a = CLOSE_OR_SINGLE ->
  let K := ceil40 (length students0) in
  value (optimize_routes (Some school) students0 max_buses api_key)
  = Ok (if (Z.of_nat K <=? Z.max 1 max_buses)%Z then
          match value (solve_cvrp school students0 K api_key) with
          | Ok (Solved found total max_route_time buses) =>
            chosen_plan
              {| num_buses := buses; candidate_routes := found;
                 max_time := max_route_time; candidate_distance := total |}
              (Some (if Rgtb max_route_time 1800
                     then PrioritizingSpeed buses
                     else OptimalBalance buses))
              (visualization a)
          | _ => pick_best [] (visualization a)
          end
        else pick_best [] (visualization a)) /\
  forall plan,
    value (optimize_routes (Some school) students0 max_buses api_key)
    = Ok plan ->
    error plan = None ->
    total_buses plan = K /\ length (routes plan) = K.
Proof.
  intros Ha Hs. cbv zeta.
  pose proof (close_sweep_plan school students0 max_buses api_key a Ha Hs)
    as Heq.
  split; [exact Heq|].
  intros plan Hplan Herr. rewrite Heq in Hplan.
  inversion Hplan as [Hp]. clear Hplan Heq.
  pose proof (solve_cvrp_fleet school students0
                (ceil40 (length students0)) api_key) as Hk.
  destruct (Z.of_nat (ceil40 (length students0)) <=? Z.max 1 max_buses)%Z;
    [|subst plan; discriminate].
  destruct (value (solve_cvrp school students0
                     (ceil40 (length students0)) api_key))
    as [[| |found total mt nb]|e]; subst plan; try discriminate.
  cbn [chosen_plan total_buses routes num_buses candidate_routes]. lia.
Qed.

(** **** The routes of the cluster-based plan *)

Lemma served_fleet school api_key c :
  served school api_key c = [] \/
  length (served school api_key c) = ceil40 (length (cluster_students c)).
Proof.
  unfold served.
  pose proof (solve_cvrp_fleet school (cluster_students c)
                (Nat.max 1 (ceil40 (length (cluster_students c))))
                api_key) as Hk.
  pose proof (solve_cvrp_facts school (cluster_students c)
                (Nat.max 1 (ceil40 (length (cluster_students c))))
                api_key) as Hf.
  unfold value in *.
  destruct (solve_cvrp school (cluster_students c) _ api_key)
    as [[[| |found total mt nb]|e] log]; cbn [fst] in *; auto.
  right. destruct Hf as (_ & _ & Hne & _). destruct Hk as (_ & Hk).
  rewrite ceil40_pos in Hk; [lia|].
  destruct (cluster_students c); [contradiction|cbn; lia].
Qed.

(** X16: with a search whose solutions are feasible, in a plan with the note
    of the cluster-based branch no bus is shared between clusters: every
    route only carries students of one cluster, the clusters being those of
    the analyzer with the isolated students attached, which together hold
    every student once.  The routes are those of the solves of the clusters,
    in the order of the clusters; a cluster has no route or as many as its
    students need at 40 per bus.  The note counts the routes and the
    clusters of the analyzer. *)
Theorem cluster_routes school students0 max_buses api_key plan buses k avg :
  value (optimize_routes (Some school) students0 max_buses api_key)
  = Ok plan ->
  optimization_note plan = Some (ClusterBased buses k avg) ->
  exists a ci,
    analyze_student_clusters students0 school = Analysed a /\
    strategy a = FAR_APART /\
    assign_isolated (isolated_students a) (cluster_info a) = Ok ci /\
    Forall2 grown (cluster_info a) ci /\
    Permutation (flat_map cluster_students ci) students0 /\
    buses = length (routes plan) /\ k = n_clusters a /\
    Forall (fun r => exists c, In c ci /\
                               incl (students r) (cluster_students c))
           (routes plan) /\
    routes plan = flat_map (served school api_key) ci /\
    Forall (fun c =>
              served school api_key c = [] \/
              length (served school api_key c)
              = ceil40 (length (cluster_students c)))
           ci.
Proof.
  intros Hv Hnote.
  pose proof (optimize_routes_shape (Some school) students0 max_buses
                                    api_key) as H.
  rewrite Hv in H.
  destruct H as [->|(school0 & a & Hsch & Ha & [H|H])]; [discriminate| |];
    inversion Hsch; subst school0.
  - destruct H as (ci & total & mt & Hs & Hci & Hne & ->).
    cbn [optimization_note cluster_plan] in Hnote.
    inversion Hnote; subst. clear Hnote.
    destruct (assign_isolated_ok (isolated_students a) (cluster_info a))
      as (ci' & Hci' & Hg).
    { now apply far_apart_clusters with (students0 := students0)
                                        (school := school). }
    rewrite Hci in Hci'. inversion Hci'; subst ci'.
    exists a, ci. repeat split; auto.
    + rewrite (assign_isolated_perm _ _ _ Hci).
      now apply clusters_partition with (school := school).
    + cbn [routes cluster_plan]. apply Forall_forall. intros r Hr.
      apply in_flat_map in Hr as (c & Hc & Hr). exists c.
      split; [exact Hc|]. intros s Hin.
      destruct (served_students school api_key c) as [E|Hp];
        [rewrite E in Hr; contradiction|].
      eapply Permutation_in; [exact Hp|].
      apply in_concat. exists (students r). split; [|exact Hin].
      now apply in_map.
    + apply Forall_forall. intros c _. apply served_fleet.
  - destruct H as (results & _ & ->).
    destruct results as [|first others]; [discriminate|].
    destruct (pick_best_candidate (first :: others) (visualization a))
      as (c & note & _ & E & Hn); [discriminate|].
    rewrite E in Hnote. cbn in Hnote. now apply Hn in Hnote.
Qed.

End Feasible.

End Code.

(** *** Concrete runs *)

(** Seven students north and south of the school, on its meridian: three
    around latitude 1.31 and four around latitude 1.415. *)
Definition student_at (i : Z) (n : string) (lat : R) : Student :=
  {| id := i; name := n; address := "Meridian Road"; postal := "100000";
     latitude := lat; longitude := 103.8 |}.

Definition a1 : Student := student_at 1 "Aisha" 1.30.
Definition a2 : Student := student_at 2 "Bo" 1.31.
Definition a3 : Student := student_at 3 "Chen" 1.32.
Definition b1 : Student := student_at 4 "Devi" 1.40.
Definition b2 : Student := student_at 5 "Ema" 1.41.
Definition b3 : Student := student_at 6 "Farid" 1.42.
Definition b4 : Student := student_at 7 "Gita" 1.43.

Definition south : list Student := [a1; a2; a3].
Definition north : list Student := [b1; b2; b3; b4].
Definition town : list Student := south ++ north.

(** The labels DBSCAN gives to [town]: the first three rows form cluster 0,
    the others cluster 1. *)
Definition two_groups : list Point -> nat -> Z :=
  fun _ i => if (i <? 3)%nat then 0%Z else 1%Z.

(** The routing service does not answer. *)
Definition offline : Point -> Point -> string -> option (R * R * pystr) :=
  fun _ _ _ => None.

(** A search that puts all the students on the first bus, in input order,
    when they fit. *)
Definition one_bus (D : matrix) (num_vehicles : nat)
  : option (nat -> list nat) :=
  if (0 <? num_vehicles)%nat && (length D <=? 41)%nat
  then Some (fun v => if (v =? 0)%nat then seq 1 (length D - 1) else [])
  else None.

(** The same search, finding nothing on a matrix of [n] points. *)
Definition one_bus_except (n : nat) (D : matrix) (num_vehicles : nat)
  : option (nat -> list nat) :=
  if (length D =? n)%nat then None else one_bus D num_vehicles.

(** The same search, finding nothing on fewer than [n] points. *)
Definition one_bus_from (n : nat) (D : matrix) (num_vehicles : nat)
  : option (nat -> list nat) :=
  if (length D <? n)%nat then None else one_bus D num_vehicles.

Lemma concat_all_nil (A B : Type) (l : list A) :
  concat (map (fun _ => @nil B) l) = [].
Proof. induction l; cbn; auto. Qed.

Lemma one_bus_feasible D num_vehicles solution :
  one_bus D num_vehicles = Some solution ->
  feasible (length D - 1) num_vehicles solution.
Proof.
  unfold one_bus.
  destruct (Nat.ltb_spec 0 num_vehicles) as [Hk|]; [|discriminate].
  destruct (Nat.leb_spec (length D) 41) as [Hn|]; [|discriminate].
  intros H; inversion H; subst; clear H. split.
  - destruct num_vehicles as [|k]; [lia|].
    cbn [seq map concat Nat.eqb].
    rewrite (map_ext_in _ (fun _ => @nil nat)).
    + now rewrite concat_all_nil, app_nil_r.
    + intros v Hv. apply in_seq in Hv.
      destruct (Nat.eqb_spec v 0); [lia|reflexivity].
  - intros v _. destruct (v =? 0)%nat; [rewrite length_seq|cbn]; lia.
Qed.

Lemma one_bus_except_feasible n D num_vehicles solution :
  one_bus_except n D num_vehicles = Some solution ->
  feasible (length D - 1) num_vehicles solution.
Proof.
  unfold one_bus_except. destruct (length D =? n)%nat; [discriminate|].
  apply one_bus_feasible.
Qed.

Lemma one_bus_from_feasible n D num_vehicles solution :
  one_bus_from n D num_vehicles = Some solution ->
  feasible (length D - 1) num_vehicles solution.
Proof.
  unfold one_bus_from. destruct (length D <? n)%nat; [discriminate|].
  apply one_bus_feasible.
Qed.

Lemma matrix_length school students0 :
  length (build_distance_matrix_fast school students0)
  = S (length students0).
Proof. now destruct (build_distance_matrix_square school students0). Qed.

Lemma mean_3 x y z : mean [x; y; z] = ((x + y + z) / 3)%R.
Proof. unfold mean, sum_R. cbn. field. Qed.

Lemma mean_4 x y z w : mean [x; y; z; w] = ((x + y + z + w) / 4)%R.
Proof. unfold mean, sum_R. cbn. field. Qed.

Lemma mean_1 x : mean [x] = x.
Proof. unfold mean, sum_R. cbn. field. Qed.

(** The analysis of [town]: two clusters about 11.7 km apart. *)
Lemma town_analysis :
  exists a,
    analyze_student_clusters two_groups town example_school = Analysed a /\
    strategy a = FAR_APART /\
    n_clusters a = 2%nat /\
    map cluster_students (cluster_info a) = [south; north] /\
    assign_isolated (isolated_students a) (cluster_info a)
    = Ok (cluster_info a).
Proof.
  destruct (analyze_exists two_groups town example_school) as [a Ha];
    [cbn; lia|].
  exists a. split; [exact Ha|].
  destruct (analyze_fields two_groups town example_school a Ha)
    as (_ & Hci & Hiso & Hnc & _ & Havg & _).
  assert (Hlabels : labels_of two_groups town = [0; 0; 0; 1; 1; 1; 1]%Z)
    by reflexivity.
  assert (Hids : cluster_ids two_groups town = [0; 1]%Z)
    by (unfold cluster_ids; rewrite Hlabels; reflexivity).
  rewrite Hlabels in *. rewrite Hids in Hci. cbn [map] in Hci.
  assert (Hn : n_clusters a = 2%nat) by (rewrite Hnc; reflexivity).
  assert (Hd : centroid_distances (cluster_info a)
               = [point_distance (1.31, 103.8) (1.415, 103.8)]%R).
  { rewrite Hci. unfold centroid_distances. cbn [pairs_of map app fst snd].
    unfold cluster_record. cbn [center]. do 2 f_equal.
    - f_equal.
      + change (mean [1.30; 1.31; 1.32] = 1.31)%R. rewrite mean_3. lra.
      + change (mean [103.8; 103.8; 103.8] = 103.8)%R. rewrite mean_3. lra.
    - f_equal.
      + change (mean [1.40; 1.41; 1.42; 1.43] = 1.415)%R.
        rewrite mean_4. lra.
      + change (mean [103.8; 103.8; 103.8; 103.8] = 103.8)%R.
        rewrite mean_4. lra. }
  repeat split.
  - unfold strategy. rewrite Hn, Havg, Hd, mean_1. cbn [Nat.ltb Nat.leb].
    rewrite andb_true_r.
    replace (Rgtb _ 7) with true; [reflexivity|].
    symmetry. apply Rgtb_spec. unfold point_distance. cbn [fst snd].
    rewrite haversine_meridian by lra. unfold radians.
    pose proof PI_bounds. lra.
  - exact Hn.
  - rewrite Hci. reflexivity.
  - rewrite Hiso. reflexivity.
Qed.


Lemma served_not_found search onemap school api_key c :
  search (build_distance_matrix_fast school (cluster_students c))
         (cluster_fleet c) = None ->
  served search onemap school api_key c = [].
Proof.
  intros Hs. unfold served, value, solve_cvrp.
  unfold cluster_fleet in Hs.
  destruct (cluster_students c) as [|s0 ss]; [reflexivity|].
  now rewrite Hs.
Qed.

Lemma one_bus_finds school students0 k :
  (1 <= k)%nat -> (length students0 <= 40)%nat ->
  exists solution,
    one_bus (build_distance_matrix_fast school students0) k = Some solution.
Proof.
  intros Hk Hn. unfold one_bus. rewrite matrix_length.
  destruct (Nat.ltb_spec 0 k); [|lia].
  destruct (Nat.leb_spec (S (length students0)) 41); [|lia].
  now eexists.
Qed.

Lemma cluster_fleet_pos c : (1 <= cluster_fleet c)%nat.
Proof. unfold cluster_fleet. lia. Qed.

Lemma town_ids : NoDup (map id town).
Proof.
  cbn. repeat constructor; cbn; intuition discriminate.
Qed.

(** C2, as stated, fails: with two clusters far apart and a solver that
    finds nothing for the northern one, the plan is successful and leaves
    the four northern students out. *)
Lemma far_apart_drops_cluster :
  exists plan,
    value (optimize_routes two_groups (one_bus_except 5) offline
             (Some example_school) town 3 "key")
    = Ok plan /\
    error plan = None /\
    routes plan <> [] /\
    In b1 town /\
    ~ In b1 (concat (map students (routes plan))).
Proof.
  destruct town_analysis as (a & Ha & Hs & _ & Hcs & Hci).
  destruct (cluster_info a) as [|c0 [|c1 [|c2 cs]]] eqn:Eci;
    try discriminate.
  inversion Hcs as [[Hc0 Hc1]]. clear Hcs.
  assert (H1 : served (one_bus_except 5) offline example_school "key" c1
               = []).
  { apply served_not_found. rewrite Hc1. unfold one_bus_except.
    now rewrite matrix_length. }
  destruct (one_bus_finds example_school south (cluster_fleet c0)
              (cluster_fleet_pos c0)) as (solution & Hsol); [cbn; lia|].
  destruct (served_found (one_bus_except 5) offline
              (one_bus_except_feasible 5) example_school "key" c0 solution)
    as (H0 & Hp0).
  { rewrite Hc0. unfold one_bus_except. rewrite matrix_length. exact Hsol. }
  { rewrite Hc0. discriminate. }
  destruct (far_apart_plan two_groups (one_bus_except 5) offline
              (one_bus_except_feasible 5) example_school town 3 "key" a
              [c0; c1] Ha Hs) as (total & mt & Hplan).
  { rewrite Eci. exact Hci. }
  { cbn [flat_map]. rewrite H1, !app_nil_r. exact H0. }
  cbn [flat_map] in Hplan. rewrite H1, !app_nil_r in Hplan.
  eexists. split; [exact Hplan|]. cbn [error routes cluster_plan].
  repeat split; auto.
  - cbn. tauto.
  - intros Hin. apply (Permutation_in _ Hp0) in Hin. rewrite Hc0 in Hin.
    cbn in Hin.
    destruct Hin as [H|[H|[H|[]]]]; apply (f_equal id) in H; discriminate.
Qed.


(** With a solver that serves both clusters, the plan of [town]. *)
Lemma town_plan :
  exists a c0 c1 total mt,
    analyze_student_clusters two_groups town example_school = Analysed a /\
    cluster_students c0 = south /\ cluster_students c1 = north /\
    served one_bus offline example_school "key" c0 <> [] /\
    value (optimize_routes two_groups one_bus offline
             (Some example_school) town 3 "key")
    = Ok (cluster_plan a
            (served one_bus offline example_school "key" c0
             ++ served one_bus offline example_school "key" c1)
            total mt).
Proof.
  destruct town_analysis as (a & Ha & Hs & _ & Hcs & Hci).
  destruct (cluster_info a) as [|c0 [|c1 [|c2 cs]]] eqn:Eci;
    try discriminate.
  inversion Hcs as [[Hc0 Hc1]]. clear Hcs.
  destruct (one_bus_finds example_school south (cluster_fleet c0)
              (cluster_fleet_pos c0)) as (solution & Hsol); [cbn; lia|].
  destruct (served_found one_bus offline one_bus_feasible example_school
              "key" c0 solution) as (H0 & _).
  { now rewrite Hc0. }
  { rewrite Hc0. discriminate. }
  destruct (far_apart_plan two_groups one_bus offline one_bus_feasible
              example_school town 3 "key" a [c0; c1] Ha Hs)
    as (total & mt & Hplan).
  { rewrite Eci. exact Hci. }
  { cbn [flat_map]. rewrite app_nil_r. intros E.
    apply app_eq_nil in E as [E _]. contradiction. }
  cbn [flat_map] in Hplan. rewrite app_nil_r in Hplan.
  now exists a, c0, c1, total, mt.
Qed.

Lemma plan_coverage_witness :
  exists plan,
    value (optimize_routes two_groups one_bus offline
             (Some example_school) town 3 "key") = Ok plan /\
    routes plan <> [] /\
    exists dropped,
      Permutation (concat (map students (routes plan)) ++ dropped) town /\
      NoDup (map id (concat (map students (routes plan)))).
Proof.
  destruct town_plan as (a & c0 & c1 & total & mt & Ha & _ & _ & H0 & Hplan).
  eexists. split; [exact Hplan|]. split.
  - cbn [routes cluster_plan]. intros E.
    apply app_eq_nil in E as [E _]. contradiction.
  - destruct (plan_coverage two_groups one_bus offline one_bus_feasible
                (Some example_school) town 3 "key" _ Hplan eq_refl)
      as (dropped & Hperm & Hids & _).
    exists dropped. split; [exact Hperm|]. apply Hids, town_ids.
Defined.




(** The three southern students alone form a single cluster. *)
Lemma south_analysis :
  exists a,
    analyze_student_clusters two_groups south example_school = Analysed a /\
    strategy a = CLOSE_OR_SINGLE.
Proof.
  destruct (analyze_exists two_groups south example_school) as [a Ha];
    [cbn; lia|].
  exists a. split; [exact Ha|].
  destruct (analyze_fields two_groups south example_school a Ha)
    as (_ & _ & _ & Hnc & _).
  assert (Hn : n_clusters a = 1%nat) by (rewrite Hnc; reflexivity).
  unfold strategy. rewrite Hn. cbn [Nat.ltb Nat.leb].
  now rewrite andb_false_r.
Qed.


(** With a solver that finds nothing for either cluster, but a route for
    all the students together. *)
Lemma far_apart_falls_through_witness :
  exists a results,
    analyze_student_clusters two_groups town example_school = Analysed a /\
    strategy a = FAR_APART /\
    value (optimize_routes two_groups (one_bus_from 6) offline
             (Some example_school) town 3 "key")
    = value (sweep (one_bus_from 6) offline example_school town 3
               (recommended_buses a) (visualization a) "key") /\
    value (optimize_routes two_groups (one_bus_from 6) offline
             (Some example_school) town 3 "key")
    = Ok (pick_best results (visualization a)) /\
    error (pick_best results (visualization a)) = None /\
    routes (pick_best results (visualization a)) <> [].
Proof.
  destruct town_analysis as (a & Ha & Hs & _ & Hcs & Hci).
  destruct (cluster_info a) as [|c0 [|c1 [|c2 cs]]] eqn:Eci;
    try discriminate.
  inversion Hcs as [[Hc0 Hc1]]. clear Hcs.
  assert (H0 : served (one_bus_from 6) offline example_school "key" c0 = []).
  { apply served_not_found. rewrite Hc0. unfold one_bus_from.
    now rewrite matrix_length. }
  assert (H1 : served (one_bus_from 6) offline example_school "key" c1 = []).
  { apply served_not_found. rewrite Hc1. unfold one_bus_from.
    now rewrite matrix_length. }
  destruct (route_clusters_served (one_bus_from 6) offline
              (one_bus_from_feasible 6) example_school "key" [c0; c1])
    as (total & mt & log & Hrc).
  cbn [flat_map] in Hrc. rewrite H0, H1 in Hrc. cbn [app] in Hrc.
  rewrite <- Eci in Hci at 1.
  destruct (far_apart_falls_through two_groups (one_bus_from 6) offline
              example_school town 3 "key" a [c0; c1] total mt log
              Ha Hs Hci Hrc)
    as (Hsweep & results & Htry & Hopt & Hok).
  destruct (one_bus_finds example_school town 1 (le_n 1))
    as (solution & Hsol); [cbn; lia|].
  destruct (try_fleets_first (one_bus_from 6) offline
              (one_bus_from_feasible 6) example_school town "key" 1
              (if (1 <? recommended_buses a)%nat
               then seq 2 (Z.to_nat
                             (Z.min 3 (Z.of_nat (recommended_buses a))
                              + 1 - 2))
               else [])
              solution) as (results' & Htry' & Hne).
  { unfold one_bus_from. rewrite matrix_length. exact Hsol. }
  { discriminate. }
  unfold fleet_sizes in Htry. rewrite Htry' in Htry.
  inversion Htry; subst results'.
  destruct (Hok Hne) as (Herr & Hroutes).
  exists a, results. now repeat split.
Defined.


(** **** One student, the routing service not answering (C4) *)

Definition near_matrix : matrix :=
  build_distance_matrix_fast example_school [near_student].

(** The extraction loop on the only possible tour: the figures it
    accumulates come from the matrix entry, 722 m each way. *)
Lemma near_tour :
  follow example_school [near_student] near_matrix 0 [1%nat] empty_tour
  = Ok {| route_distance := (0 + 722 / 1000 + 722 / 1000)%R;
          route_time :=
            (0 + (estimate_travel_time (722 / 1000) + 60)
             + estimate_travel_time (722 / 1000))%R;
          route_students := [near_student];
          route_segments :=
            [{| raw_from := school_point example_school;
                raw_to := student_point near_student;
                raw_student := name near_student |};
             {| raw_from := student_point near_student;
                raw_to := school_point example_school;
                raw_student := "Return to School" |}] |}.
Proof.
  destruct near_student_entry as [H01 H10]. fold near_matrix in H01, H10.
  assert (Hsq : square 2 near_matrix)
    by apply (build_distance_matrix_square example_school [near_student]).
  cbn [follow hd Nat.eqb andb negb].
  unfold pickup_leg, return_leg.
  cbn [getitem nth_error Nat.sub Nat.eqb Nat.ltb Nat.leb].
  rewrite (matrix_lookup_get 2 near_matrix 0 1 Hsq) by lia.
  rewrite (matrix_lookup_get 2 near_matrix 1 0 Hsq) by lia.
  rewrite H01, H10. reflexivity.
Qed.

Lemma near_student_km :
  (0.5558 < haversine_distance 1.35 103.8 1.355 103.8 < 0.5561)%R.
Proof.
  rewrite haversine_meridian by lra. unfold radians.
  pose proof PI_bounds. lra.
Qed.

(** C4, as stated, fails: for this school and student the solve itself
    sends two requests to the adapter, and the route it returns has the
    distance and time of the adapter's answers, 1.11 km and 193 s, while
    the figures read from the matrix are 1.444 km and 233.28 s. *)
Lemma route_figures_not_from_matrix :
  exists r total mt tour,
    solve_cvrp one_bus offline example_school [near_student] 1 "key"
    = (Ok (Solved [r] total mt 1),
       [(school_point example_school, student_point near_student);
        (student_point near_student, school_point example_school)]) /\
    follow example_school [near_student] near_matrix 0 [1%nat] empty_tour
    = Ok tour /\
    route_distance tour = 1.444%R /\
    route_time tour = 233.28%R /\
    distance_km r = 1.11%R /\
    time_seconds r = 193%Z.
Proof.
  pose proof near_student_km as Hkm.
  assert (Hback : haversine_distance 1.355 103.8 1.35 103.8
                  = haversine_distance 1.35 103.8 1.355 103.8)
    by apply haversine_sym.
  eexists _, _, _, _. split; [|split; [apply near_tour|]].
  - unfold solve_cvrp. fold near_matrix. unfold one_bus.
    unfold near_matrix at 1 2. rewrite matrix_length. fold near_matrix.
    cbn [length Nat.ltb Nat.leb andb Nat.sub seq extract_routes Nat.eqb].
    rewrite near_tour, bind_lift_ok. cbn [route_students route_segments].
    rewrite enrich_all. unfold bind, ret. cbn [app map length].
    reflexivity.
  - cbn [route_distance route_time distance_km time_seconds make_route
         map distance time].
    unfold enrich_segment, adapter_answer, offline.
    cbn [raw_from raw_to distance time map length].
    unfold sum_R, estimate_travel_time, py_round_to.
    cbn [fold_left INR pow].
    change (fst (school_point example_school)) with 1.35%R.
    change (snd (school_point example_school)) with 103.8%R.
    change (fst (student_point near_student)) with 1.355%R.
    change (snd (student_point near_student)) with 103.8%R.
    rewrite Hback.
    repeat split; try lra.
    + rewrite (py_round_between _ 111); lra.
    + apply py_round_between. lra.
Qed.


(** **** Runs of the properties above *)

Lemma town_plan_routes a c0 c1 total mt :
  served one_bus offline example_school "key" c0 <> [] ->
  routes (cluster_plan a
            (served one_bus offline example_school "key" c0
             ++ served one_bus offline example_school "key" c1)
            total mt) <> [].
Proof.
  intros H0 E. cbn [routes cluster_plan] in E.
  apply app_eq_nil in E as [E _]. contradiction.
Qed.

Lemma offline_segments_witness :
  exists plan,
    value (optimize_routes two_groups one_bus offline
             (Some example_school) town 3 "key") = Ok plan /\
    routes plan <> [] /\
    Forall (fun r =>
              Forall (fun seg =>
                        geometry seg = [seg_from seg; seg_to seg] /\
                        distance seg
                        = point_distance (seg_from seg) (seg_to seg) /\
                        time seg = estimate_travel_time (distance seg))
                     (segments r))
           (routes plan).
Proof.
  destruct town_plan as (a & c0 & c1 & total & mt & Ha & _ & _ & H0 & Hplan).
  eexists. split; [exact Hplan|]. split; [now apply town_plan_routes|].
  pose proof (offline_segments two_groups one_bus offline
                (Some example_school) town 3 "key"
                (fun _ _ _ => eq_refl)) as H.
  rewrite Hplan in H. exact H.
Defined.

Lemma analysis_partition_witness :
  exists a,
    analyze_student_clusters two_groups town example_school = Analysed a /\
    Permutation (flat_map cluster_students (cluster_info a)
                 ++ isolated_students a) town /\
    length (cluster_info a) = n_clusters a /\
    length (isolated_students a) = n_noise a /\
    NoDup (map cluster_id (cluster_info a)) /\
    Forall (fun c => cluster_id c <> (-1)%Z /\
                     size c = length (cluster_students c) /\
                     (1 <= size c)%nat)
           (cluster_info a) /\
    (sum_nat (map size (cluster_info a)) + n_noise a = length town)%nat.
Proof.
  destruct town_analysis as (a & Ha & _).
  exists a. split; [exact Ha|].
  exact (analysis_partition two_groups town example_school a Ha).
Defined.

Lemma recommended_fleet_carries_witness :
  exists a,
    analyze_student_clusters two_groups town example_school = Analysed a /\
    (1 <= min_buses a <= recommended_buses a)%nat /\
    (length town <= 40 * recommended_buses a)%nat.
Proof.
  destruct town_analysis as (a & Ha & _).
  exists a. split; [exact Ha|].
  exact (recommended_fleet_carries two_groups town example_school a Ha).
Defined.

Lemma cluster_geometry_witness :
  exists a,
    analyze_student_clusters two_groups town example_school = Analysed a /\
    cluster_info a <> [] /\
    Forall (fun c =>
              center c = (mean (map latitude (cluster_students c)),
                          mean (map longitude (cluster_students c))) /\
              distance_from_school c
              = point_distance (school_point example_school) (center c) /\
              (forall s1 s2,
                 In s1 (cluster_students c) -> In s2 (cluster_students c) ->
                 (point_distance (student_point s1) (student_point s2)
                  <= spread c)%R) /\
              (spread c = 0%R \/
               exists s1 s2,
                 In s1 (cluster_students c) /\ In s2 (cluster_students c) /\
                 spread c
                 = point_distance (student_point s1) (student_point s2)))
           (cluster_info a).
Proof.
  destruct town_analysis as (a & Ha & _ & _ & Hcs & _).
  exists a. split; [exact Ha|]. split.
  - intros E. rewrite E in Hcs. discriminate.
  - exact (cluster_geometry two_groups town example_school a Ha).
Defined.

Lemma visualization_payload_witness :
  exists a,
    analyze_student_clusters two_groups town example_school = Analysed a /\
    n_clusters a = 2%nat /\
    length (clusters (visualization a)) = n_clusters a /\
    length (isolated (visualization a)) = n_noise a /\
    map mark_name (isolated (visualization a))
    = map name (isolated_students a) /\
    Forall2 (fun c circle =>
               circle_id circle = cluster_id c /\
               circle_center circle = center c /\
               circle_size circle = length (cluster_students c) /\
               (500 <= radius circle)%R /\
               (spread c * 1000 / 2 <= radius circle)%R)
            (cluster_info a) (clusters (visualization a)).
Proof.
  destruct town_analysis as (a & Ha & _ & Hn & _).
  exists a. split; [exact Ha|]. split; [exact Hn|].
  exact (visualization_payload two_groups town example_school a Ha).
Defined.

(** The southern students as a cluster, and a student to attach to it. *)
Definition south_cluster : ClusterInfo :=
  {| cluster_id := 0; size := 3; center := (1.31, 103.8)%R;
     distance_from_school := 0; spread := 0; cluster_students := south |}.

Lemma assign_isolated_grows_witness :
  exists ci,
    assign_isolated [b1] [south_cluster] = Ok ci /\
    Forall2 grown [south_cluster] ci /\
    Permutation (flat_map cluster_students ci)
                (flat_map cluster_students [south_cluster] ++ [b1]).
Proof.
  apply (assign_isolated_grows [b1] [south_cluster]). discriminate.
Defined.

Lemma plan_fleet_witness :
  exists plan,
    value (optimize_routes two_groups one_bus offline
             (Some example_school) town 3 "key") = Ok plan /\
    total_buses plan = length (routes plan) /\
    (error plan = None <-> routes plan <> []) /\
    (error plan = None ->
     max_route_time_minutes plan <> None /\
     total_distance_km plan <> None /\
     cluster_visualization plan <> None).
Proof.
  destruct town_plan as (a & c0 & c1 & total & mt & Ha & _ & _ & H0 & Hplan).
  eexists. split; [exact Hplan|].
  exact (plan_fleet two_groups one_bus offline (Some example_school) town 3
                    "key" _ Hplan).
Defined.

Lemma route_itinerary_witness :
  exists plan,
    value (optimize_routes two_groups one_bus offline
             (Some example_school) town 3 "key") = Ok plan /\
    routes plan <> [] /\
    Forall (fun r =>
              map seg_from (segments r)
              = school_point example_school
                :: map student_point (students r) /\
              map seg_to (segments r)
              = map student_point (students r)
                ++ [school_point example_school] /\
              map seg_student (segments r)
              = map name (students r) ++ ["Return to School"%string])
           (routes plan).
Proof.
  destruct town_plan as (a & c0 & c1 & total & mt & Ha & _ & _ & H0 & Hplan).
  eexists. split; [exact Hplan|]. split; [now apply town_plan_routes|].
  pose proof (route_itinerary two_groups one_bus offline one_bus_feasible
                example_school town 3 "key") as H.
  rewrite Hplan in H. exact H.
Defined.

Lemma solve_cvrp_serves_witness :
  exists found total mt nb log,
    solve_cvrp one_bus offline example_school south 1 "key"
    = (Ok (Solved found total mt nb), log) /\
    Permutation (concat (map students found)) south /\
    found <> [] /\
    Forall (fun r => (1 <= length (students r) <= 40)%nat) found /\
    (ceil40 (length south) <= length found <= 1)%nat /\
    length log = (length south + length found)%nat.
Proof.
  destruct (one_bus_finds example_school south 1 (le_n 1))
    as (solution & Hsol); [cbn; lia|].
  destruct (solve_cvrp_found one_bus offline one_bus_feasible example_school
              south 1 "key" solution Hsol)
    as (found & total & mt & nb & log & E & _); [discriminate|].
  exists found, total, mt, nb, log. split; [exact E|].
  pose proof (solve_cvrp_serves one_bus offline one_bus_feasible
                example_school south 1 "key") as H.
  rewrite E in H. exact H.
Defined.

Lemma optimize_routes_raises_witness :
  match value (optimize_routes two_groups one_bus offline
                 (Some example_school) [a1] 3 "key") with
  | Raise e =>
    e = KeyError /\ Some example_school <> None /\ length [a1] = 1%nat
  | Ok plan =>
    (plan = not_set_plan /\ (Some example_school = None \/ [a1] = [])) \/
    (Some example_school <> None /\ (2 <= length [a1])%nat /\
     cluster_visualization plan <> None)
  end.
Proof.
  exact (optimize_routes_raises two_groups one_bus offline one_bus_feasible
           (Some example_school) [a1] 3 "key").
Defined.

Lemma close_sweep_single_fleet_witness :
  exists a,
    analyze_student_clusters two_groups south example_school = Analysed a /\
    strategy a = CLOSE_OR_SINGLE /\
    value (optimize_routes two_groups one_bus offline
             (Some example_school) south 3 "key")
    = Ok (if (Z.of_nat (ceil40 (length south)) <=? Z.max 1 3)%Z then
            match value (solve_cvrp one_bus offline example_school south
                           (ceil40 (length south)) "key") with
            | Ok (Solved found total max_route_time buses) =>
              chosen_plan
                {| num_buses := buses; candidate_routes := found;
                   max_time := max_route_time;
                   candidate_distance := total |}
                (Some (if Rgtb max_route_time 1800
                       then PrioritizingSpeed buses
                       else OptimalBalance buses))
                (visualization a)
            | _ => pick_best [] (visualization a)
            end
          else pick_best [] (visualization a)) /\
    forall plan,
      value (optimize_routes two_groups one_bus offline
               (Some example_school) south 3 "key") = Ok plan ->
      error plan = None ->
      total_buses plan = ceil40 (length south) /\
      length (routes plan) = ceil40 (length south).
Proof.
  destruct south_analysis as (a & Ha & Hs).
  exists a. split; [exact Ha|]. split; [exact Hs|].
  exact (close_sweep_single_fleet two_groups one_bus offline one_bus_feasible
           example_school south 3 "key" a Ha Hs).
Defined.

Lemma cluster_routes_witness :
  exists plan a ci,
    value (optimize_routes two_groups one_bus offline
             (Some example_school) town 3 "key") = Ok plan /\
    analyze_student_clusters two_groups town example_school = Analysed a /\
    strategy a = FAR_APART /\
    assign_isolated (isolated_students a) (cluster_info a) = Ok ci /\
    Forall2 grown (cluster_info a) ci /\
    Permutation (flat_map cluster_students ci) town /\
    Forall (fun r => exists c, In c ci /\
                               incl (students r) (cluster_students c))
           (routes plan) /\
    routes plan = flat_map (served one_bus offline example_school "key") ci /\
    Forall (fun c =>
              served one_bus offline example_school "key" c = [] \/
              length (served one_bus offline example_school "key" c)
              = ceil40 (length (cluster_students c)))
           ci.
Proof.
  destruct town_plan as (a & c0 & c1 & total & mt & Ha & _ & _ & H0 & Hplan).
  destruct (cluster_routes two_groups one_bus offline one_bus_feasible
              example_school town 3 "key" _ _ _ _ Hplan eq_refl)
    as (a' & ci & Ha' & Hs & Hci & Hg & Hp & _ & _ & Hr & Hrs & Hk).
  eexists _, a', ci. split; [exact Hplan|]. repeat split; auto.
Defined.

End Optimizer.


(** * app.py: the student store and its endpoints *)

Module App.

Import Geo Optimizer.

(** What a handler raises on a body it cannot read; Flask answers 500. *)
Inductive failure : Type :=
| MissingKey   (* [data[k]] on a body without the key [k] *)
| NotAFloat.   (* [float(v)] on a value that is no number *)

Inductive answer (A : Type) : Type :=
| Done (a : A)
| Failed (e : failure).

Arguments Done {A} a.
Arguments Failed {A} e.

(** The JSON body of [POST /api/students]: a field is [None] when the key
    is absent; a coordinate that is present is [Some x] when [float] turns
    it into [x] and [None] when [float] raises. *)
Record StudentForm : Type := {
  form_name : option string;
  form_address : option string;
  form_postal : option string;
  form_latitude : option (option R);
  form_longitude : option (option R)
}.

(** [add_student]: the answer and the store afterwards. *)
Definition add_student (students : list Student) (data : StudentForm)
  : answer Student * list Student :=
  match form_name data with
  | None => (Failed MissingKey, students)
  | Some name =>
    match form_address data with
    | None => (Failed MissingKey, students)
    | Some address =>
      match form_postal data with
      | None => (Failed MissingKey, students)
      | Some postal =>
        match form_latitude data with
        | None => (Failed MissingKey, students)
        | Some None => (Failed NotAFloat, students)
        | Some (Some latitude) =>
          match form_longitude data with
          | None => (Failed MissingKey, students)
          | Some None => (Failed NotAFloat, students)
          | Some (Some longitude) =>
            let student :=
              {| id := Z.of_nat (length students) + 1;
                 name := name; address := address; postal := postal;
                 latitude := latitude; longitude := longitude |} in
            (Done student, students ++ [student])
          end
        end
      end
    end
  end.

(** [delete_student]: the store afterwards. *)
Definition delete_student (students : list Student) (student_id : Z)
  : list Student :=
  filter (fun s => negb (id s =? student_id)%Z) students.

(** [get_stats]: ['total_students'] and ['buses_needed']. *)
Definition get_stats (students : list Student) : nat * nat :=
  let total_students := length students in
  let buses_needed :=
    if (0 <? total_students)%nat then ceil40 total_students else 0%nat in
  (total_students, buses_needed).

(** The text under ['recommendation']. *)
Inductive ReportText : Type :=
| FewStudentsText
| Advice (r : Recommendation).

Record ClusterReport : Type := {
  report_clusters : list ClusterCircle;
  report_isolated : list IsolatedMark;
  report_n_clusters : nat;
  report_n_noise : nat;
  report_recommended_buses : nat;
  report_recommendation : ReportText
}.

(** The answer of [GET /api/analyze-clusters]: [{'clusters': []}] or the
    report. *)
Inductive ClustersAnswer : Type :=
| NoClusters
| Report (r : ClusterReport).

(** The answer of [POST /api/optimise-routes]: an error with status 400 or
    the plan. *)
Inductive RoutesAnswer : Type :=
| BadRequest (error : string)
| RoutesJson (result : Plan).

(** Successive [POST /api/students] requests. *)
Definition add_students (students : list Student)
    (requests : list StudentForm) : list Student :=
  fold_left (fun students data => snd (add_student students data))
            requests students.

Section Endpoints.

Variable dbscan : list Point -> nat -> Z.
Variable search : matrix -> nat -> option (nat -> list nat).
Variable onemap : Point -> Point -> string -> option (R * R * pystr).

(** The module constant [API_KEY]. *)
Variable API_KEY : string.

(** The keys the handler reads with [.get] are absent from the dictionary
    of fewer than two students, which gives the defaults. *)
Definition analyze_clusters (students : list Student)
    (school_location : option School) : ClustersAnswer :=
  match students with
  | [] => NoClusters
  | _ :: _ =>
    match school_location with
    | None => NoClusters
    | Some school =>
      match analyze_student_clusters dbscan students school with
      | FewStudents =>
        Report {| report_clusters := []; report_isolated := [];
                  report_n_clusters := 0; report_n_noise := 0;
                  report_recommended_buses := 1;
                  report_recommendation := FewStudentsText |}
      | Analysed analysis =>
        Report {| report_clusters := clusters (visualization analysis);
                  report_isolated := isolated (visualization analysis);
                  report_n_clusters := n_clusters analysis;
                  report_n_noise := n_noise analysis;
                  report_recommended_buses := recommended_buses analysis;
                  report_recommendation :=
                    Advice (recommendation analysis) |}
      end
    end
  end.

(** [max_buses_field] is the value under ['max_buses'] of the body, when
    it has one. *)
Definition optimise_routes_endpoint (students : list Student)
    (school_location : option School) (max_buses_field : option Z)
  : M RoutesAnswer :=
  let max_buses :=
    match max_buses_field with
    | Some m => m
    | None => 3%Z
    end in
  match school_location with
  | None => ret (BadRequest "Please set school location first")
  | Some _ =>
    match students with
    | [] => ret (BadRequest "Please add students first")
    | _ :: _ =>
      result <- optimize_routes dbscan search onemap school_location
                                students max_buses API_KEY ;;
      ret (RoutesJson result)
    end
  end.

(** *** The identifiers of the store *)

Lemma seq_ids_NoDup n : NoDup (map Z.of_nat (seq 1 n)).
Proof.
  assert (H : forall l : list nat, NoDup l -> NoDup (map Z.of_nat l)).
  { induction 1 as [|x l Hx _ IH]; cbn [map]; constructor; [|exact IH].
    intros Hin. apply in_map_iff in Hin as (y & Hy & Hin).
    apply Nat2Z.inj in Hy. now subst. }
  apply H, seq_NoDup.
Qed.

Lemma add_student_done students data s students' :
  add_student students data = (Done s, students') ->
  students' = students ++ [s] /\
  id s = (Z.of_nat (length students) + 1)%Z.
Proof.
  unfold add_student.
  destruct (form_name data); [|discriminate].
  destruct (form_address data); [|discriminate].
  destruct (form_postal data); [|discriminate].
  destruct (form_latitude data) as [[lat|]|]; try discriminate.
  destruct (form_longitude data) as [[lng|]|]; try discriminate.
  intros H. inversion H; subst. now split.
Qed.

Lemma add_student_failed students data e students' :
  add_student students data = (Failed e, students') -> students' = students.
Proof.
  unfold add_student.
  destruct (form_name data); [|now inversion 1].
  destruct (form_address data); [|now inversion 1].
  destruct (form_postal data); [|now inversion 1].
  destruct (form_latitude data) as [[lat|]|]; try now inversion 1.
  destruct (form_longitude data) as [[lng|]|]; now inversion 1.
Qed.

Lemma add_students_numbered requests : forall students,
  map id students = map Z.of_nat (seq 1 (length students)) ->
  map id (add_students students requests)
  = map Z.of_nat (seq 1 (length (add_students students requests))).
Proof.
  induction requests as [|data requests IH]; intros students Hids;
    [exact Hids|].
  cbn [add_students fold_left]. apply IH.
  destruct (add_student students data) as [[s|e] students'] eqn:E;
    cbn [snd].
  - apply add_student_done in E as [-> Hid].
    rewrite map_app, length_app, Hids. cbn [map length].
    rewrite Nat.add_1_r, seq_S, map_app. cbn [map]. rewrite Hid.
    do 2 f_equal. lia.
  - apply add_student_failed in E. now subst.
Qed.

(** X21: Students added to an empty store are numbered 1, 2, ... in the
    order of their requests, a request that fails taking no number: as long as
    nothing is deleted, no two students share an identifier. *)
Theorem add_students_ids requests :
  let students := add_students [] requests in
  map id students = map Z.of_nat (seq 1 (length students)) /\
  NoDup (map id students) /\
  (length students <= length requests)%nat.
Proof.
  cbv zeta.
  pose proof (add_students_numbered requests [] eq_refl) as H.
  split; [exact H|]. split; [rewrite H; apply seq_ids_NoDup|].
  assert (Hlen : forall students,
             (length (add_students students requests)
              <= length students + length requests)%nat).
  { clear H.
    induction requests as [|data requests IH]; intros students;
      [cbn; lia|].
    cbn [add_students fold_left length].
    specialize (IH (snd (add_student students data))).
    unfold add_students in IH.
    destruct (add_student students data) as [[s|e] students'] eqn:E;
      cbn [snd] in *.
    - apply add_student_done in E as [-> _].
      rewrite length_app in IH. cbn [length] in IH. lia.
    - apply add_student_failed in E. subst. lia. }
  apply (Hlen []).
Qed.

Lemma delete_student_ids students student_id :
  map id (delete_student students student_id)
  = filter (fun x => negb (x =? student_id)%Z) (map id students).
Proof.
  unfold delete_student.
  induction students as [|s students IH]; [reflexivity|].
  cbn [filter map]. destruct (id s =? student_id)%Z; cbn [negb map];
    now rewrite IH.
Qed.

(** X22: In a store numbered 1, ..., n, deleting any student but the last
    and then adding a student gives the new student the identifier n, which
    the last student still has: two students share an identifier. *)
Theorem delete_then_add_reuses_id students n k data s students' :
  map id students = map Z.of_nat (seq 1 n) ->
  (1 <= k < n)%nat ->
  add_student (delete_student students (Z.of_nat k)) data
  = (Done s, students') ->
  id s = Z.of_nat n /\
  In (Z.of_nat n) (map id (delete_student students (Z.of_nat k))) /\
  ~ NoDup (map id students').
Proof.
  intros Hids Hk Hadd.
  apply add_student_done in Hadd as [-> Hid].
  assert (Hlen : length (delete_student students (Z.of_nat k))
                 = (n - 1)%nat).
  { rewrite <- (length_map id), delete_student_ids, Hids.
    rewrite length_filter_out by apply seq_ids_NoDup.
    rewrite length_map, length_seq.
    replace (existsb (Z.eqb (Z.of_nat k)) (map Z.of_nat (seq 1 n)))
      with true; [reflexivity|].
    symmetry. apply existsb_exists. exists (Z.of_nat k).
    split; [|apply Z.eqb_refl].
    apply in_map, in_seq. lia. }
  assert (Hid' : id s = Z.of_nat n) by (rewrite Hid, Hlen; lia).
  assert (Hin : In (Z.of_nat n)
                   (map id (delete_student students (Z.of_nat k)))).
  { rewrite delete_student_ids, Hids. apply filter_In. split.
    - apply in_map, in_seq. lia.
    - apply negb_true_iff, Z.eqb_neq. lia. }
  repeat split; auto.
  rewrite map_app. cbn [map]. rewrite Hid'. intros Hnd.
  apply NoDup_remove_2 in Hnd. apply Hnd. now rewrite app_nil_r.
Qed.

(** X23: [delete_student] removes every student with the identifier and
    no other, keeps the others in their order, leaves the store as it is
    when no student has the identifier, and removes exactly one student
    when the identifiers of the store are distinct and one of them is the
    identifier. *)
Theorem delete_student_removes students student_id :
  (forall s, In s (delete_student students student_id) <->
             In s students /\ id s <> student_id) /\
  (exists removed,
     Permutation (delete_student students student_id ++ removed) students
     /\ Forall (fun s => id s = student_id) removed) /\
  (~ In student_id (map id students) ->
   delete_student students student_id = students) /\
  (NoDup (map id students) -> In student_id (map id students) ->
   S (length (delete_student students student_id)) = length students).
Proof.
  split; [|split; [|split]].
  - intros s. unfold delete_student. rewrite filter_In, negb_true_iff.
    now rewrite Z.eqb_neq.
  - exists (filter (fun s => (id s =? student_id)%Z) students). split.
    + unfold delete_student.
      induction students as [|s students IH]; [constructor|].
      cbn [filter]. destruct (id s =? student_id)%Z; cbn [negb app].
      * rewrite <- Permutation_middle. now constructor.
      * now constructor.
    + apply Forall_forall. intros s Hs. apply filter_In in Hs as [_ Hs].
      now apply Z.eqb_eq.
  - intros Hnot. unfold delete_student.
    induction students as [|s students IH]; [reflexivity|].
    cbn [filter]. cbn [map] in Hnot.
    destruct (Z.eqb_spec (id s) student_id) as [E|E];
      [contradiction Hnot; now left|].
    cbn [negb]. f_equal. apply IH. intros Hin. apply Hnot. now right.
  - intros Hnd Hin.
    rewrite <- (length_map id), delete_student_ids.
    rewrite length_filter_out by exact Hnd.
    replace (existsb (Z.eqb student_id) (map id students)) with true.
    + rewrite length_map. destruct students; [contradiction|cbn; lia].
    + symmetry. apply existsb_exists. exists student_id.
      split; [exact Hin|apply Z.eqb_refl].
Qed.

(** *** The fleet the endpoints report *)

(** X24: [get_stats] counts the students and reports the least number of
    buses that carries them at 40 per bus, none for an empty store.  With two
    students or more this is the fleet the analyzer recommends whenever
    its clusters are not far apart. *)
Theorem get_stats_buses students :
  let (total_students, buses_needed) := get_stats students in
  total_students = length students /\
  (buses_needed = 0%nat <-> students = []) /\
  (total_students <= 40 * buses_needed)%nat /\
  (40 * buses_needed < total_students + 40)%nat /\
  forall school a,
    analyze_student_clusters dbscan students school = Analysed a ->
    strategy a = CLOSE_OR_SINGLE ->
    recommended_buses a = buses_needed.
Proof.
  unfold get_stats.
  pose proof (ceil40_bound (length students)) as B.
  destruct (Nat.ltb_spec 0 (length students)) as [Hn|Hn].
  - repeat split; try lia.
    + intros ->. cbn in Hn. lia.
    + intros school a Ha Hs.
      now destruct (close_recommended dbscan students school a Ha Hs).
  - assert (students = []) as -> by (destruct students; [easy|cbn in Hn; lia]).
    repeat split; try lia; auto.
    intros school a Ha.
    destruct (analyze_fields dbscan [] school a Ha) as (H2 & _).
    cbn in H2. lia.
Qed.

(** X25: [analyze_clusters] answers without clusters exactly when the store
    is empty or no school is set.  Otherwise it reports a fleet of at least
    one bus with a seat for every student at 40 per bus, as many circles
    as clusters and as many marks as isolated students; with a single
    student, for which the analyzer has no counts, the report is one bus
    and nothing to draw. *)
Theorem analyze_clusters_report students school_location :
  match analyze_clusters students school_location with
  | NoClusters => students = [] \/ school_location = None
  | Report r =>
    students <> [] /\ school_location <> None /\
    (1 <= report_recommended_buses r)%nat /\
    (length students <= 40 * report_recommended_buses r)%nat /\
    length (report_clusters r) = report_n_clusters r /\
    length (report_isolated r) = report_n_noise r /\
    (length students = 1%nat ->
     report_recommended_buses r = 1%nat /\ report_clusters r = [] /\
     report_isolated r = [] /\
     report_recommendation r = FewStudentsText)
  end.
Proof.
  unfold analyze_clusters.
  destruct students as [|s0 ss]; [now left|].
  destruct school_location as [school|]; [|now right].
  destruct (analyze_student_clusters dbscan (s0 :: ss) school)
    as [|a] eqn:Ha.
  - cbn [report_recommended_buses report_clusters report_isolated
         report_n_clusters report_n_noise report_recommendation].
    unfold analyze_student_clusters in Ha.
    destruct (Nat.ltb_spec (length (s0 :: ss)) 2) as [Hlt|Hge].
    + cbn [length] in *. repeat split; try discriminate; lia.
    + repeat match type of Ha with
             | context [if ?b then _ else _] => destruct b
             end; discriminate.
  - cbn [report_recommended_buses report_clusters report_isolated
         report_n_clusters report_n_noise report_recommendation].
    destruct (fleet_carries dbscan _ school a Ha) as [H1 H2].
    pose proof (cluster_info_length dbscan _ school a Ha) as Hl.
    destruct (cluster_sizes_total dbscan _ school a Ha) as [_ Hn].
    destruct (analyze_fields dbscan _ school a Ha)
      as (HN & _ & _ & _ & _ & _ & _ & Hv).
    rewrite Hv. cbn [clusters isolated]. rewrite !length_map.
    split; [discriminate|]. split; [discriminate|].
    split; [exact H1|]. split; [exact H2|].
    split; [exact Hl|]. split; [exact Hn|].
    intros E. exfalso. lia.
Qed.

(** *** The optimisation endpoint *)

Section Routing.

Hypothesis search_feasible : forall D num_vehicles solution,
  search D num_vehicles = Some solution ->
  feasible (length D - 1) num_vehicles solution.

(** X26: with a search whose solutions are feasible,
    [optimise_routes_endpoint] answers 400 when no school is set and when
    the store is empty, and with the plan of [optimize_routes] when the
    store holds two students or more; the plan of [optimize_routes] for a
    missing school or no student is never its answer.  With a school and
    exactly one student it raises the [KeyError] of [optimize_routes]. *)
Theorem optimise_routes_endpoint_answers students school_location
    max_buses_field :
  match value (optimise_routes_endpoint students school_location
                                        max_buses_field) with
  | Ok (BadRequest error) =>
    (school_location = None /\
     error = "Please set school location first"%string) \/
    (school_location <> None /\ students = [] /\
     error = "Please add students first"%string)
  | Ok (RoutesJson plan) =>
    school_location <> None /\ (2 <= length students)%nat /\
    plan <> not_set_plan /\
    value (optimize_routes dbscan search onemap school_location students
             match max_buses_field with
             | Some m => m
             | None => 3%Z
             end API_KEY) = Ok plan
  | Raise e =>
    e = KeyError /\ school_location <> None /\ length students = 1%nat
  end.
Proof.
  unfold optimise_routes_endpoint.
  destruct school_location as [school|]; [|cbn; now left].
  destruct students as [|s0 ss];
    [cbn; right; repeat split; discriminate|].
  pose proof (optimize_routes_outcome dbscan search onemap search_feasible
                (Some school) (s0 :: ss)
                match max_buses_field with
                | Some m => m
                | None => 3%Z
                end API_KEY) as H.
  unfold value in *.
  destruct (optimize_routes dbscan search onemap (Some school) (s0 :: ss)
              _ API_KEY) as [[plan|e] log]; cbn [fst bind ret] in *.
  - cbn [app fst].
    destruct H as [[_ [H|H]]|(H1 & H2 & H3)]; try discriminate.
    repeat split; auto. intros ->. now apply H3.
  - exact H.
Qed.

End Routing.

End Endpoints.

(** *** Runs *)

(** A request for a third student. *)
Definition hana : StudentForm :=
  {| form_name := Some "Hana"%string;
     form_address := Some "Meridian Road"%string;
     form_postal := Some "100000"%string;
     form_latitude := Some (Some 1.33%R);
     form_longitude := Some (Some 103.8%R) |}.

Lemma delete_then_add_reuses_id_witness :
  exists s students',
    add_student (delete_student [a1; a2] 1) hana = (Done s, students') /\
    id s = 2%Z /\
    In 2%Z (map id (delete_student [a1; a2] 1)) /\
    ~ NoDup (map id students').
Proof.
  eexists _, _. split; [reflexivity|].
  apply (delete_then_add_reuses_id [a1; a2] 2 1 hana);
    [reflexivity|lia|reflexivity].
Defined.

Lemma optimise_routes_endpoint_answers_witness :
  exists plan,
    value (optimise_routes_endpoint two_groups one_bus offline "key" town
             (Some example_school) (Some 3%Z))
    = Ok (RoutesJson plan) /\
    (2 <= length town)%nat /\ plan <> not_set_plan.
Proof.
  destruct town_plan as (a & c0 & c1 & total & mt & _ & _ & _ & _ & Hplan).
  pose proof (optimise_routes_endpoint_answers two_groups one_bus offline
                "key" one_bus_feasible town (Some example_school)
                (Some 3%Z)) as H.
  unfold optimise_routes_endpoint, value in *.
  change town with (a1 :: [a2; a3] ++ north) in *.
  destruct (optimize_routes two_groups one_bus offline (Some example_school)
              (a1 :: [a2; a3] ++ north) 3 "key") as [[plan|e] log];
    cbn [fst bind ret] in *; [|discriminate].
  exists plan. split; [reflexivity|]. now destruct H as (_ & H1 & H2 & _).
Defined.

End App.
